(** * JsonRpcEngine: a shallow embedding of [src/JsonRpcEngine.ts]

    The engine runs a stack of middleware against a request/response pair.
    Requests, responses and errors are JavaScript objects: they live in a
    store and are passed around by reference, so the store is explicit here and
    every engine function is a state-passing computation over it.  Middleware
    and return handlers are code of the engine's users; they are represented
    by scripts: finite trees of the actions that such code can take on the
    store and on the [end] callback it was handed. *)

From Stdlib Require Import ZArith.
From stdpp Require Import base option list gmap strings.

Open Scope string_scope.
Open Scope list_scope.

(** ** JavaScript values and objects *)

(** Objects are referred to by their position in the store. *)
Abbreviation loc := nat (only parsing).

(** Primitive values and references.  Numbers are the integers (codes, ids)
    and [NaN]; function values never occur as data: the two places where the
    engine tells functions from other values (the callback of [handle] and the
    value returned by a middleware) have types of their own below. *)
Inductive value : Type :=
| VUndefined
| VNull
| VBool (b : bool)
| VNum (n : Z)
| VNaN
| VStr (s : string)
| VRef (l : loc).

Inductive obj_class : Type :=
| CObject             (* a plain object *)
| CArray              (* Array.isArray *)
| CError              (* instanceof Error, not an EthereumRpcError *)
| CEthereumRpcError.  (* instanceof EthereumRpcError (and so instanceof Error) *)

Record object : Type := Obj { cls : obj_class; props : gmap string value }.

#[global] Instance value_eq_dec : EqDecision value.
Proof. solve_decision. Defined.

#[global] Instance obj_class_eq_dec : EqDecision obj_class.
Proof. solve_decision. Defined.

(** JavaScript truthiness. *)
Definition truthy (v : value) : bool :=
  match v with
  | VUndefined | VNull | VNaN => false
  | VBool b => b
  | VNum n => negb (n =? 0)%Z
  | VStr s => negb (String.eqb s EmptyString)
  | VRef _ => true
  end.

(** [typeof v] for the values above. *)
Definition typeof (v : value) : string :=
  match v with
  | VUndefined => "undefined"
  | VNull => "object"
  | VBool _ => "boolean"
  | VNum _ | VNaN => "number"
  | VStr _ => "string"
  | VRef _ => "object"
  end.

(** ** The store, and the trace of calls between the engine and user code *)

(** What the engine and user code call on each other, in the order of the
    calls: the engine invokes the middleware at stack index [i], user code
    invokes [end] with [arg], the engine pushes the handler returned by
    middleware [i] on [returnHandlers], the engine invokes that handler. *)
Inductive event : Type :=
| ECall (i : nat)
| EEnd (arg : value)
| ECollect (i : nat)
| ERun (i : nat).

#[global] Instance event_eq_dec : EqDecision event.
Proof. solve_decision. Defined.

(** The store of objects (allocation appends, nothing is freed), the trace,
    and the two variables that the closures of the [_runMiddleware] call in
    progress share: [endCalled] and the cell of the deferred promise
    ([None] while unresolved; the first [resolve] wins). *)
Record state : Type := State {
  heap : list object;
  calls : list event;
  endCalled : bool;
  deferred : option (value * bool)
}.

Definition set_heap (f : list object -> list object) (s : state) : state :=
  State (f (heap s)) (calls s) (endCalled s) (deferred s).

Definition log (e : event) (s : state) : state :=
  State (heap s) (calls s ++ [e]) (endCalled s) (deferred s).

Definition set_endCalled (b : bool) (s : state) : state :=
  State (heap s) (calls s) b (deferred s).

Definition set_deferred (d : option (value * bool)) (s : state) : state :=
  State (heap s) (calls s) (endCalled s) d.

(** [resolve(v)] on the deferred promise of [getDeferredPromise]: resolving
    a promise that is already resolved does nothing. *)
Definition resolve (v : value * bool) (s : state) : state :=
  match deferred s with
  | None => set_deferred (Some v) s
  | Some _ => s
  end.

(** Property access [o.key], [key in o], [o.key = v], [delete o.key] on the
    object at [l], and allocation of a new object. *)
Definition get (l : loc) (key : string) (s : state) : value :=
  match heap s !! l with
  | Some o => default VUndefined (props o !! key)
  | None => VUndefined
  end.

Definition has (l : loc) (key : string) (s : state) : bool :=
  match heap s !! l with
  | Some o => bool_decide (is_Some (props o !! key))
  | None => false
  end.

Definition set_prop (l : loc) (key : string) (v : value) (s : state) : state :=
  set_heap (alter (fun o => Obj (cls o) (<[key := v]> (props o))) l) s.

Definition del_prop (l : loc) (key : string) (s : state) : state :=
  set_heap (alter (fun o => Obj (cls o) (delete key (props o))) l) s.

Definition alloc (o : object) (s : state) : loc * state :=
  (length (heap s), set_heap (fun h => h ++ [o]) s).

Definition class_of (v : value) (s : state) : option obj_class :=
  match v with
  | VRef l => cls <$> heap s !! l
  | _ => None
  end.

Definition isArray (v : value) (s : state) : bool :=
  bool_decide (class_of v s = Some CArray).

Definition instanceof_EthereumRpcError (v : value) (s : state) : bool :=
  bool_decide (class_of v s = Some CEthereumRpcError).

Definition instanceof_Error (v : value) (s : state) : bool :=
  bool_decide (class_of v s = Some CError) || instanceof_EthereumRpcError v s.

(** ** Computations: return, throw, or never settle *)

Inductive outcome (A : Type) : Type :=
| Returned (a : A) (s : state)
| Threw (v : value) (s : state)
| Pending (s : state).
Arguments Returned {A} a s.
Arguments Threw {A} v s.
Arguments Pending {A} s.

Definition M (A : Type) : Type := state -> outcome A.

Definition ret {A} (a : A) : M A := fun s => Returned a s.
Definition throw {A} (v : value) : M A := fun s => Threw v s.

Definition bind {A B} (m : M A) (f : A -> M B) : M B :=
  fun s =>
    match m s with
    | Returned a s' => f a s'
    | Threw v s' => Threw v s'
    | Pending s' => Pending s'
    end.

(** [try { m } catch (e) { h e }] *)
Definition try_catch {A} (m : M A) (h : value -> M A) : M A :=
  fun s =>
    match m s with
    | Returned a s' => Returned a s'
    | Threw v s' => h v s'
    | Pending s' => Pending s'
    end.

Declare Scope eng_scope.
Delimit Scope eng_scope with eng.
Notation "x <- m ;; k" := (bind m (fun x => k))
  (at level 100, m at next level, right associativity) : eng_scope.
Notation "m ;;; k" := (bind m (fun _ => k))
  (at level 100, right associativity) : eng_scope.
Open Scope eng_scope.

Definition modify (f : state -> state) : M unit := fun s => Returned tt (f s).
Definition reads {A} (f : state -> A) : M A := fun s => Returned (f s) s.
Definition new (o : object) : M loc :=
  fun s => let '(l, s') := alloc o s in Returned l s'.

Definition state_of {A} (o : outcome A) : state :=
  match o with
  | Returned _ s | Threw _ s | Pending s => s
  end.

(** ** User code: middleware and return handlers *)

(** What a piece of user code does, one action at a time: settle with a
    value, throw (or reject), never settle, read an object, write or delete a
    property, create an object, call [end(arg)].  [CallEnd] continues with
    [None] when the call returns and with [Some e] when it throws [e]: the
    code is free to catch [e] or to let it escape ([Throw e]). *)
Inductive script (R : Type) : Type :=
| Ret (r : R)
| Throw (v : value)
| Hang
| Read (l : loc) (k : option object -> script R)
| SetProp (l : loc) (key : string) (v : value) (k : script R)
| DelProp (l : loc) (key : string) (k : script R)
| Alloc (o : object) (k : loc -> script R)
| CallEnd (arg : value) (k : option value -> script R).
Arguments Ret {R} r.
Arguments Throw {R} v.
Arguments Hang {R}.
Arguments Read {R} l k.
Arguments SetProp {R} l key v k.
Arguments DelProp {R} l key k.
Arguments Alloc {R} o k.
Arguments CallEnd {R} arg k.

(** [JsonRpcEngineReturnHandler = () => MaybePromise<void>] *)
Definition JsonRpcEngineReturnHandler : Type := script unit.

(** What a middleware settles with: a value that is not a function, or a
    function, which the engine takes for a return handler. *)
Inductive returned : Type :=
| RValue (v : value)
| RFunction (h : JsonRpcEngineReturnHandler).

(** [JsonRpcMiddleware]: the code to run, given the references [req] and
    [res]; the [end] argument is the [CallEnd] action. *)
Definition JsonRpcMiddleware : Type := loc -> loc -> script returned.

(** ** External collaborators (package eth-rpc-errors) *)

(** The error-code table and the serializer are imported, not defined in the
    repository: [errorCodes.rpc.internal], [errorCodes.rpc.invalidRequest],
    [isValidCode] and [serializeError], which returns a new plain object
    computed from the store and the error. *)
Class ErrorTable : Type := {
  internal : Z;
  invalidRequest : Z;
  isValidCode : value -> bool;
  serializeError : list object -> value -> object
}.

(** ** The engine *)

(** The double-quote character, for the messages that quote a name. *)
Definition dquote : string :=
  String (Ascii.Ascii false true false false false true false false) EmptyString.

Module errorMessages.
Definition invalidReturnHandler (value : value) : string :=
  "JsonRpcEngine: Return handlers must be functions. Received: " +:+ typeof value +:+ ".".
Definition noAssignmentToResponse : string :=
  "JsonRpcEngine: The response " +:+ dquote +:+ "error" +:+ dquote
    +:+ " property must not be directly assigned. Throw errors instead.".
Definition noErrorOrResult : string :=
  "JsonRpcEngine: Response has no error or result".
Definition noErrorsToEnd : string :=
  "JsonRpcEngine: " +:+ dquote +:+ "end" +:+ dquote
    +:+ " callback must not be passed any values. Received an error. Throw errors instead.".
Definition nonObjectRequest (request : value) : string :=
  "Requests must be plain objects. Received: " +:+ typeof request.
Definition nonStringMethod (method : value) : string :=
  "Must specify a string method. Received: " +:+ typeof method.
Definition noValuesToEnd (value : value) : string :=
  "JsonRpcEngine: " +:+ dquote +:+ "end" +:+ dquote
    +:+ " callback must not be passed any values. Received: " +:+ typeof value +:+ ".".
Definition nothingEndedRequest : string :=
  "JsonRpcEngine: Nothing ended request.".
Definition threwNonError : string :=
  "JsonRpcEngine: Middleware threw non-Error value.".
End errorMessages.

(** A return handler on [returnHandlers]: the function value, i.e. the
    handler's script closed over the [end] of the middleware that returned
    it, with the stack index of that middleware (used for the trace only). *)
Definition collected : Type := nat * M unit.

Record JsonRpcEngine : Type := { _middleware : list JsonRpcMiddleware }.

(** [constructor()] *)
Definition newEngine : JsonRpcEngine := {| _middleware := [] |}.

(** [push(middleware)] *)
Definition push (eng : JsonRpcEngine) (middleware : JsonRpcMiddleware) : JsonRpcEngine :=
  {| _middleware := _middleware eng ++ [middleware] |}.

(** [error.key] for a thrown value: a property of the object it refers to. *)
Definition prop_of (v : value) (key : string) (s : state) : value :=
  match v with
  | VRef l => get l key s
  | _ => VUndefined
  end.

(** [new Error(message)] *)
Definition new_Error (message : string) : object :=
  Obj CError {["message" := VStr message]}.

(** [Number.isInteger(v)] *)
Definition isInteger (v : value) : bool :=
  match v with
  | VNum _ => true
  | _ => false
  end.

(** The class [EthereumRpcError] is imported from eth-rpc-errors; its
    instances are the spec's StandardizedError [{code, message, data}], with
    an integer code and a string message.  The constructor of the package
    checks its arguments: it accepts a code that is an integer and a message
    that is a nonempty string, and given others it throws an [Error] and
    creates no instance. *)
Definition accepts (code message : value) : bool :=
  isInteger code && truthy message && String.eqb (typeof message) "string".

Definition integerCodeMessage : string :=
  dquote +:+ "code" +:+ dquote +:+ " must be an integer.".

Definition nonemptyMessageMessage : string :=
  dquote +:+ "message" +:+ dquote +:+ " must be a nonempty string.".

(** Modelled from the spec and from that constructor:
    [new EthereumRpcError(code, message, {...data})] creates the data object
    (an argument of the call), then the constructor throws or creates the
    error object. *)
Definition new_EthereumRpcError (code message : value) (data : gmap string value) : M value :=
  d <- new (Obj CObject data);;
  if negb (isInteger code) then
    e <- new (new_Error integerCodeMessage);;
    throw (VRef e)
  else if negb (truthy message) || negb (String.eqb (typeof message) "string") then
    e <- new (new_Error nonemptyMessageMessage);;
    throw (VRef e)
  else
    e <- new (Obj CEthereumRpcError
                (<["code" := code]> (<["message" := message]> {["data" := VRef d]})));;
    ret (VRef e).


(** A promise, as its eventual fate. *)
Inductive promise (A : Type) : Type :=
| Resolved (a : A) (s : state)
| Rejected (v : value) (s : state)
| Unsettled (s : state).
Arguments Resolved {A} a s.
Arguments Rejected {A} v s.
Arguments Unsettled {A} s.



(** Runs a script; [end_] is the [end] callback the code was handed. *)
Fixpoint exec {R} (end_ : value -> M unit) (p : script R) : M R :=
  match p with
  | Ret r => ret r
  | Throw v => throw v
  | Hang => Pending
  | Read l k => fun s => exec end_ (k (heap s !! l)) s
  | SetProp l key v k => modify (set_prop l key v);;; exec end_ k
  | DelProp l key k => modify (del_prop l key);;; exec end_ k
  | Alloc o k => l <- new o;; exec end_ (k l)
  | CallEnd arg k =>
      fun s =>
        match end_ arg s with
        | Returned _ s' => exec end_ (k None) s'
        | Threw e s' => exec end_ (k (Some e)) s'
        | Pending s' => Pending s'
        end
  end.

(** What the middleware of [asMiddleware] settles with: [undefined], the
    value of [end()], or the function that runs the handlers. *)
Inductive settled : Type :=
| SUndefined
| SFunction (f : M unit).



Section Engine.
Context {tbl : ErrorTable}.

(** [serializeError(error)] *)
Definition serialize (error : value) : M value :=
  o <- reads (fun s => serializeError (heap s) error);;
  l <- new o;;
  ret (VRef l).

Definition _processMiddlewareError (req res : loc) (error : value) : M unit :=
  isError <- reads (instanceof_Error error);;
  if isError : bool then
    isRpcError <- reads (instanceof_EthereumRpcError error);;
    if isRpcError : bool then
      modify (set_prop res "error" error)
    else
      code <- reads (prop_of error "code");;
      message <- reads (prop_of error "message");;
      e <- new_EthereumRpcError
             (if isValidCode code then code else VNum internal)
             message
             (<["request" := VRef req]> {["originalError" := error]});;
      modify (set_prop res "error" e)
  else
    e <- new_EthereumRpcError
           (VNum internal)
           (VStr errorMessages.threwNonError)
           (<["request" := VRef req]> {["thrownValue" := error]});;
    modify (set_prop res "error" e).

Definition _validateEndState (req res : loc) (endArg : value) : M unit :=
  isError <- reads (instanceof_Error endArg);;
  (if isError : bool then
     e <- new_EthereumRpcError
            (VNum internal)
            (VStr errorMessages.noErrorsToEnd)
            (<["request" := VRef req]> {["endCallbackCalledWith" := endArg]});;
     throw e
   else if truthy endArg then
     e <- new_EthereumRpcError
            (VNum internal)
            (VStr (errorMessages.noValuesToEnd endArg))
            (<["request" := VRef req]> {["endCallbackCalledWith" := endArg]});;
     throw e
   else ret tt);;;
  resError <- reads (get res "error");;
  if truthy resError then
    e <- new_EthereumRpcError
           (VNum internal)
           (VStr errorMessages.noAssignmentToResponse)
           (<["request" := VRef req]> {["responseError" := resError]});;
    throw e
  else ret tt.

Definition _checkForCompletion (req res : loc) (isComplete : bool) : M unit :=
  hasResult <- reads (has res "result");;
  hasError <- reads (has res "error");;
  (if negb hasResult && negb hasError then
     e <- new_EthereumRpcError
            (VNum internal)
            (VStr errorMessages.noErrorOrResult)
            {["request" := VRef req]};;
     throw e
   else ret tt);;;
  if negb isComplete then
    e <- new_EthereumRpcError
           (VNum internal)
           (VStr errorMessages.nothingEndedRequest)
           {["request" := VRef req]};;
    throw e
  else ret tt.

(** The [end] callback that [_runMiddleware] hands to the middleware. *)
Definition end_callback (req res : loc) (arg : value) : M unit :=
  modify (log (EEnd arg));;;
  _validateEndState req res arg;;;
  modify (set_endCalled true);;;
  modify (resolve (VNull, true)).

Definition _runReturnHandlers : list collected -> M unit :=
  fix go (handlers : list collected) : M unit :=
    match handlers with
    | [] => ret tt
    | (i, handler) :: rest =>
        modify (log (ERun i));;;
        handler;;;
        go rest
    end.

(** [returnHandlers.push] is the returned list; [i] is the index of
    [middleware] in the stack. *)
Definition _runMiddleware (req res : loc) (middleware : JsonRpcMiddleware)
    (i : nat) (returnHandlers : list collected)
  : M (value * bool * list collected) :=
  modify (set_deferred None);;;
  modify (set_endCalled false);;;
  modify (log (ECall i));;;
  returnHandlers' <-
    try_catch
      (returnHandler <- exec (end_callback req res) (middleware req res);;
       called <- reads endCalled;;
       if negb called then
         resError <- reads (get res "error");;
         if truthy resError then
           e <- new_EthereumRpcError
                  (VNum internal)
                  (VStr errorMessages.noAssignmentToResponse)
                  (<["request" := VRef req]> {["responseError" := resError]});;
           throw e
         else
           match returnHandler with
           | RValue v =>
               if truthy v then
                 e <- new_EthereumRpcError
                        (VNum internal)
                        (VStr (errorMessages.invalidReturnHandler v))
                        {["request" := VRef req]};;
                 throw e
               else
                 modify (resolve (VNull, false));;;
                 ret returnHandlers
           | RFunction h =>
               modify (log (ECollect i));;;
               modify (resolve (VNull, false));;;
               ret (returnHandlers ++ [(i, exec (end_callback req res) h)])
           end
       else ret returnHandlers)
      (fun error =>
         _processMiddlewareError req res error;;;
         resError <- reads (get res "error");;
         modify (resolve (resError, true));;;
         ret returnHandlers);;
  promised <- reads deferred;;
  match promised with
  | Some settled => ret (settled, returnHandlers')
  | None => Pending
  end.

(** The [for] loop of [_runAllMiddleware], from stack index [i] on. *)
Fixpoint middleware_loop (req res : loc) (middlewareStack : list JsonRpcMiddleware)
    (i : nat) (error : value) (isComplete : bool) (returnHandlers : list collected)
  : M (value * bool * list collected) :=
  match middlewareStack with
  | [] => ret (error, isComplete, returnHandlers)
  | middleware :: rest =>
      ran <- _runMiddleware req res middleware i returnHandlers;;
      let '(error', isComplete', returnHandlers') := ran in
      if isComplete' : bool then ret (error', isComplete', returnHandlers')
      else middleware_loop req res rest (S i) error' isComplete' returnHandlers'
  end.

Definition _runAllMiddleware (req res : loc) (middlewareStack : list JsonRpcMiddleware)
  : M (value * bool * list collected) :=
  ran <- middleware_loop req res middlewareStack 0%nat VNull false [];;
  let '(error, isComplete, returnHandlers) := ran in
  ret (error, isComplete, reverse returnHandlers).

Definition _processRequest (eng : JsonRpcEngine) (req res : loc) : M unit :=
  ran <- _runAllMiddleware req res (_middleware eng);;
  let '(error, isComplete, returnHandlers) := ran in
  _checkForCompletion req res isComplete;;;
  _runReturnHandlers returnHandlers;;;
  if truthy error then throw error else ret tt.

(** The own enumerable properties of an object: all of them but the
    [message] and the [stack] of an [Error], which its constructor defines as
    not enumerable. *)
Definition enumerable (o : object) : gmap string value :=
  match cls o with
  | CError | CEthereumRpcError => delete "message" (delete "stack" (props o))
  | CObject | CArray => props o
  end.

(** [{ ...callerReq }]: the own enumerable properties of the caller's
    object. *)
Definition spread (v : value) (s : state) : gmap string value :=
  match v with
  | VRef l => from_option enumerable ∅ (heap s !! l)
  | _ => ∅
  end.

(** Settles with the two arguments it passes to [cb]. *)
Definition _handle (eng : JsonRpcEngine) (callerReq : value) : M (value * loc) :=
  isArr <- reads (isArray callerReq);;
  if negb (truthy callerReq) || isArr || negb (String.eqb (typeof callerReq) "object") then
    error <- new_EthereumRpcError
               (VNum invalidRequest)
               (VStr (errorMessages.nonObjectRequest callerReq))
               {["request" := callerReq]};;
    res <- new (Obj CObject
                  (<["id" := VUndefined]> (<["jsonrpc" := VStr "2.0"]> {["error" := error]})));;
    ret (error, res)
  else
    method <- reads (prop_of callerReq "method");;
    if negb (String.eqb (typeof method) "string") then
      error <- new_EthereumRpcError
                 (VNum invalidRequest)
                 (VStr (errorMessages.nonStringMethod method))
                 {["request" := callerReq]};;
      id <- reads (prop_of callerReq "id");;
      res <- new (Obj CObject
                    (<["id" := id]> (<["jsonrpc" := VStr "2.0"]> {["error" := error]})));;
      ret (error, res)
    else
      callerProps <- reads (spread callerReq);;
      req <- new (Obj CObject callerProps);;
      id <- reads (get req "id");;
      jsonrpc <- reads (get req "jsonrpc");;
      res <- new (Obj CObject (<["id" := id]> {["jsonrpc" := jsonrpc]}));;
      error <- try_catch (_processRequest eng req res;;; ret VNull)
                         (fun _error => ret _error);;
      (if truthy error then
         modify (del_prop res "result");;;
         resError <- reads (get res "error");;
         if negb (truthy resError) then
           e <- serialize error;;
           modify (set_prop res "error" e)
         else ret tt
       else ret tt);;;
      ret (error, res).

Definition _promiseHandle (eng : JsonRpcEngine) (req : value) (s : state) : promise loc :=
  match _handle eng req s with
  | Returned (_err, res) s' => Resolved res s'
  | Threw _ s' => Unsettled s'
  | Pending s' => Unsettled s'
  end.





(** *** Names for parts of [_handle] and [_runMiddleware] *)

(** The state in which [_runMiddleware] invokes the middleware at index
    [i]: a new deferred promise, [endCalled = false]. *)
Definition entered (i : nat) (s : state) : state :=
  log (ECall i) (set_endCalled false (set_deferred None s)).

(** The [catch] block of [_runMiddleware], as a state change. *)
Definition caught (req res : loc) (error : value) (s : state) : state :=
  state_of ((_processMiddlewareError req res error;;;
             resError <- reads (get res "error");;
             modify (resolve (resError, true))) s).

(** [return middlewareCallbackPromise]: the value the deferred promise was
    resolved with. *)
Definition awaited (returnHandlers : list collected) : M (value * bool * list collected) :=
  promised <- reads deferred;;
  match promised with
  | Some settled => ret (settled, returnHandlers)
  | None => Pending
  end.

(** [new EthereumRpcError(code, message, data)] in state [s]: the error
    created, or the [Error] thrown by the constructor, and the state the call
    leaves. *)
Definition error_in (s : state) : value := VRef (S (length (heap s))).

Definition erred (code message : value) (data : gmap string value) (s : state) : state :=
  state_of (new_EthereumRpcError code message data s).

(** The object at [error_in s] after that call, where [d] is the location of
    the data object. *)
Definition constructed (code message : value) (d : loc) : object :=
  if negb (isInteger code) then new_Error integerCodeMessage
  else if negb (truthy message) || negb (String.eqb (typeof message) "string") then
    new_Error nonemptyMessageMessage
  else
    Obj CEthereumRpcError
      (<["code" := code]> (<["message" := message]> {["data" := VRef d]})).

(** The constructor accepts what [_processMiddlewareError] passes to it for
    the thrown value [error], if it calls the constructor for it: an [Error]
    that is not an [EthereumRpcError] must carry a nonempty string as its
    message. *)
Definition converts (error : value) (s : state) : bool :=
  negb (instanceof_Error error s)
  || instanceof_EthereumRpcError error s
  || accepts (if isValidCode (prop_of error "code" s)
              then prop_of error "code" s else VNum internal)
             (prop_of error "message" s).

(** What [_processMiddlewareError] stores in [res.error] for a thrown value
    that [converts], and what it throws for another, with the state in which
    it does. *)
Definition coerced (req : loc) (error : value) (s : state) : value * state :=
  if instanceof_Error error s then
    if instanceof_EthereumRpcError error s then (error, s)
    else
      (error_in s,
       erred (if isValidCode (prop_of error "code" s)
              then prop_of error "code" s else VNum internal)
             (prop_of error "message" s)
             (<["request" := VRef req]> {["originalError" := error]}) s)
  else
    (error_in s,
     erred (VNum internal) (VStr errorMessages.threwNonError)
           (<["request" := VRef req]> {["thrownValue" := error]}) s).

(** The request passes the two checks of [_handle]. *)
Definition valid_request (callerReq : value) (s : state) : bool :=
  truthy callerReq && negb (isArray callerReq s)
  && String.eqb (typeof callerReq) "object"
  && String.eqb (typeof (prop_of callerReq "method" s)) "string".

(** For a valid request, [_handle] creates [req] and [res], in this order,
    as the next two objects of the store. *)
Definition req_of (s : state) : loc := length (heap s).
Definition res_of (s : state) : loc := S (length (heap s)).

Definition begun (callerReq : value) (s : state) : state :=
  state_of ((callerProps <- reads (spread callerReq);;
             req <- new (Obj CObject callerProps);;
             id <- reads (get req "id");;
             jsonrpc <- reads (get req "jsonrpc");;
             new (Obj CObject (<["id" := id]> {["jsonrpc" := jsonrpc]}))) s).

(** The end of [_handle], from [if (error)] on. *)
Definition finish (res : loc) (error : value) : M (value * loc) :=
  (if truthy error then
     modify (del_prop res "result");;;
     resError <- reads (get res "error");;
     if negb (truthy resError) then
       e <- serialize error;;
       modify (set_prop res "error" e)
     else ret tt
   else ret tt);;;
  ret (error, res).

End Engine.

(** ** Observations used in the statements *)

(** The object a value refers to. *)
Definition deref (v : value) (s : state) : option object :=
  match v with
  | VRef l => heap s !! l
  | _ => None
  end.

(** A standardized error as read from the store: code, message and the
    properties of its data object. *)
Definition read_error (v : value) (s : state)
  : option (value * value * gmap string value) :=
  match deref v s with
  | Some (Obj CEthereumRpcError ps) =>
      match deref (default VUndefined (ps !! "data")) s with
      | Some d =>
          Some (default VUndefined (ps !! "code"),
                default VUndefined (ps !! "message"),
                props d)
      | None => None
      end
  | _ => None
  end.

(** The calls made between two states of one run. *)
Definition new_calls (s s' : state) : list event :=
  drop (length (calls s)) (calls s').

(** The indices of the handlers collected, in the order of collection; of
    the handlers invoked, in the order of invocation; the arguments [end]
    was called with. *)
Definition collects (t : list event) : list nat :=
  omap (fun e => match e with ECollect i => Some i | _ => None end) t.

Definition runs (t : list event) : list nat :=
  omap (fun e => match e with ERun i => Some i | _ => None end) t.

Definition ends (t : list event) : list value :=
  omap (fun e => match e with EEnd a => Some a | _ => None end) t.

(** The indices of the middleware invoked, in the order of invocation. *)
Definition invoked (t : list event) : list nat :=
  omap (fun e => match e with ECall i => Some i | _ => None end) t.

(** A call of [end]; the invocation of a handler. *)
Definition is_end (e : event) : Prop :=
  match e with EEnd _ => True | _ => False end.

Definition is_run (e : event) : Prop :=
  match e with ERun _ => True | _ => False end.

(** ** Properties of user code *)




(** The script writes to the objects of [L] and to those it creates. *)
Fixpoint writes_within {R} (P : list loc -> R -> Prop) (L : list loc) (p : script R) : Prop :=
  match p with
  | Ret r => P L r
  | Throw _ | Hang => True
  | Read _ k => forall o, writes_within P L (k o)
  | SetProp l _ _ k | DelProp l _ k => l ∈ L /\ writes_within P L k
  | Alloc _ k => forall l, writes_within P (l :: L) (k l)
  | CallEnd _ k => forall r, writes_within P L (k r)
  end.

(** The middleware, and the handler it returns, mutate the request and the
    response they received (and objects of their own), nothing else. *)
Definition writes_received (m : JsonRpcMiddleware) : Prop :=
  forall req res,
    writes_within (fun L r => match r with
                              | RValue _ => True
                              | RFunction h => writes_within (fun _ _ => True) L h
                              end) [req; res] (m req res).

(** The script lets what [end] throws escape: no [try]/[catch] around a
    call of [end]. *)
Fixpoint end_uncaught {R} (p : script R) : Prop :=
  match p with
  | Ret _ | Throw _ | Hang => True
  | Read _ k => forall o, end_uncaught (k o)
  | SetProp _ _ _ k | DelProp _ _ k => end_uncaught k
  | Alloc _ k => forall l, end_uncaught (k l)
  | CallEnd _ k => (forall e, k (Some e) = Throw e) /\ end_uncaught (k None)
  end.

(** The script does not set or delete the property [key] of the object at
    [l], and each result is accepted by [P]. *)
Fixpoint leaves {R} (P : R -> Prop) (l : loc) (key : string) (p : script R) : Prop :=
  match p with
  | Ret r => P r
  | Throw _ | Hang => True
  | Read _ k => forall o, leaves P l key (k o)
  | SetProp l' key' _ k | DelProp l' key' k =>
      (l' <> l \/ key' <> key) /\ leaves P l key k
  | Alloc _ k => forall l', leaves P l key (k l')
  | CallEnd _ k => forall r, leaves P l key (k r)
  end.

(** Run on [req] and [res], neither the middleware nor the handler it
    returns writes that property. *)
Definition turn_leaves (l : loc) (key : string) (req res : loc) (m : JsonRpcMiddleware)
  : Prop :=
  leaves (fun r => match r with
                   | RValue _ => True
                   | RFunction h => leaves (fun _ => True) l key h
                   end) l key (m req res).

(** The same, whatever the request and the response are. *)
Definition middleware_leaves (l : loc) (key : string) (m : JsonRpcMiddleware) : Prop :=
  forall req res, turn_leaves l key req res m.

(** The same, for a property of the response that the middleware
    receives. *)
Definition middleware_leaves_response (key : string) (m : JsonRpcMiddleware) : Prop :=
  forall req res, turn_leaves res key req res m.

(** One state of a run comes after another: the store has grown, objects
    have kept their class, calls were added to the trace. *)
Record evolves (s s' : state) : Prop := {
  ev_length : length (heap s) <= length (heap s');
  ev_class : forall l, l < length (heap s) -> cls <$> heap s' !! l = cls <$> heap s !! l;
  ev_calls : calls s `prefix_of` calls s'
}.

(** A property of the state change of a computation, whatever its outcome. *)
Definition preserves {A} (R : state -> state -> Prop) (m : M A) : Prop :=
  forall s, R s (state_of (m s)).

(** A function value on [returnHandlers] is a script closed over the [end]
    callback of a request. *)
Definition closure_of {tbl : ErrorTable} (req res : loc) (c : collected) : Prop :=
  exists h, c.2 = exec (end_callback req res) h.


(** The two closure variables of [_runMiddleware] while the middleware runs:
    [end] has not returned yet, or it has and the promise is resolved with
    [[null, true]]. *)
Definition cell_ok (s : state) : Prop :=
  (endCalled s = false /\ deferred s = None)
  \/ (endCalled s = true /\ deferred s = Some (VNull, true)).

Section Scenarios.
Context {tbl : ErrorTable}.

(** The request is valid and its middleware phase reaches [m], at index
    [length pre] of the stack, in state [s3], with the handlers [hs]
    collected from the middleware before it, none of which ended the
    request. *)
Definition reaches (eng : JsonRpcEngine) (callerReq : value) (s : state)
    (pre : list JsonRpcMiddleware) (m : JsonRpcMiddleware)
    (post : list JsonRpcMiddleware) (hs : list collected) (s3 : state) : Prop :=
  valid_request callerReq s = true
  /\ _middleware eng = pre ++ m :: post
  /\ middleware_loop (req_of s) (res_of s) pre 0 VNull false [] (begun callerReq s)
     = Returned (VNull, false, hs) s3.

(** What running [m] in that state comes to. *)
Definition run_of (callerReq : value) (s : state) (pre : list JsonRpcMiddleware)
    (m : JsonRpcMiddleware) (s3 : state) : outcome returned :=
  exec (end_callback (req_of s) (res_of s)) (m (req_of s) (res_of s))
       (entered (length pre) s3).

(** The unwind of the handlers [hs] from state [sE] settles, and it leaves
    the [error] property of the response and the objects at [L] as they
    are. *)
Definition unwind_keeps (res : loc) (L : list loc) (hs : list collected) (sE : state) : Prop :=
  (forall sP, _runReturnHandlers hs sE <> Pending sP)
  /\ get res "error" (state_of (_runReturnHandlers hs sE)) = get res "error" sE
  /\ forall l, l ∈ L -> heap (state_of (_runReturnHandlers hs sE)) !! l = heap sE !! l.


End Scenarios.

(** User code and the engine's bookkeeping add no [ECollect] and no [ERun]
    to the trace. *)
Definition quiet (s s' : state) : Prop :=
  evolves s s' /\ collects (new_calls s s') = [] /\ runs (new_calls s s') = [].

(** One state of a run comes after another, and the calls made in between
    all satisfy [P]. *)
Definition adds (P : event -> Prop) (s s' : state) : Prop :=
  evolves s s' /\ Forall P (new_calls s s').

(** The computation settles. *)
Definition no_pending {A} (o : outcome A) : Prop :=
  match o with
  | Pending _ => False
  | _ => True
  end.


(** The objects at the locations below [n] are the same in [s'] as in [s]
    (for a store [s] that holds at least [n] objects). *)
Definition frame_below (n : nat) (s s' : state) : Prop :=
  n <= length (heap s) ->
  n <= length (heap s') /\ forall l, l < n -> heap s' !! l = heap s !! l.

(** A function value on [returnHandlers] that leaves those objects alone. *)
Definition closure_frame (n : nat) (c : collected) : Prop :=
  forall s, frame_below n s (state_of (c.2 s)).

(** One state of a run comes after another, and the property [key] of the
    object at [l] is the same in both. *)
Definition keeps (l : loc) (key : string) (s s' : state) : Prop :=
  evolves s s'
  /\ (l < length (heap s) -> get l key s' = get l key s /\ has l key s' = has l key s).

(** A function value on [returnHandlers] that leaves that property alone. *)
Definition closure_keeps (l : loc) (key : string) (c : collected) : Prop :=
  forall s, keeps l key s (state_of (c.2 s)).

(** A computation fails with an error that carries [message]. *)
Definition fails_with {A} (message : string) (o : outcome A) : Prop :=
  exists e s code data,
    o = Threw e s /\ read_error e s = Some (code, VStr message, data).

(** * Sample collaborators and user code, for concrete runs *)

(** A code table with the JSON-RPC 2.0 codes, and a serializer that wraps
    what it is given. *)
Definition sampleTable : ErrorTable := {|
  internal := -32603;
  invalidRequest := -32600;
  isValidCode := fun v =>
    match v with
    | VNum n =>
        bool_decide (-32099 <= n <= -32000)%Z
        || bool_decide (n ∈ [-32700; -32600; -32601; -32602; -32603]%Z)
    | _ => false
    end;
  serializeError := fun _ v =>
    Obj CObject
      (<["code" := VNum (-32603)]>
         (<["message" := VStr "Internal JSON-RPC error."]> {["data" := v]}))
|}.

(** [{ jsonrpc: '2.0', method: 'm', id: 1 }], alone in the store. *)
Definition request0 : object :=
  Obj CObject (<["jsonrpc" := VStr "2.0"]> (<["method" := VStr "m"]> {["id" := VNum 1]})).

Definition state0 : state := State [request0] [] false None.

(** [engineOf [m1; m2]]: a new engine after [push m1] and [push m2]. *)
Definition engineOf (stack : list JsonRpcMiddleware) : JsonRpcEngine :=
  foldl push newEngine stack.

(** [(req, res, end) => { throw 'oops' }] *)
Definition mwThrowOops : JsonRpcMiddleware :=
  fun _ _ => Throw (VStr "oops").

(** [(req, res, end) => { throw { code: -32000, message: 'boom' } }] *)
Definition mwThrowPlain : JsonRpcMiddleware :=
  fun _ _ =>
    Alloc (Obj CObject (<["code" := VNum (-32000)]> {["message" := VStr "boom"]}))
          (fun l => Throw (VRef l)).

(** [(req, res, end) => { throw new EthereumRpcError(-32000, 'boom') }] *)
Definition mwThrowRpc : JsonRpcMiddleware :=
  fun _ _ =>
    Alloc (Obj CEthereumRpcError (<["code" := VNum (-32000)]> {["message" := VStr "boom"]}))
          (fun l => Throw (VRef l)).

(** [(req, res, end) => { end(1) }]: the error [end] throws escapes. *)
Definition mwEndTruthy : JsonRpcMiddleware :=
  fun _ _ =>
    CallEnd (VNum 1)
      (fun r => match r with
                | Some e => Throw e
                | None => Ret (RValue VUndefined)
                end).

(** [(req, res, end) => { try { end(1) } catch (_) {}; res.result = 42; end() }] *)
Definition mwEndCaught : JsonRpcMiddleware :=
  fun _ res =>
    CallEnd (VNum 1)
      (fun _ =>
         SetProp res "result" (VNum 42)
           (CallEnd VUndefined
              (fun r => match r with
                        | Some e => Throw e
                        | None => Ret (RValue VUndefined)
                        end))).

(** [(req, res, end) => { res.result = 42; end() }] *)
Definition mwOk : JsonRpcMiddleware :=
  fun _ res =>
    SetProp res "result" (VNum 42)
      (CallEnd VUndefined
         (fun r => match r with
                   | Some e => Throw e
                   | None => Ret (RValue VUndefined)
                   end)).

(** [(req, res, end) => { res.result = 42; end(); return () => { res.late = true } }] *)
Definition mwEndAndHandler : JsonRpcMiddleware :=
  fun _ res =>
    SetProp res "result" (VNum 42)
      (CallEnd VUndefined
         (fun r => match r with
                   | Some e => Throw e
                   | None => Ret (RFunction (SetProp res "late" (VBool true) (Ret tt)))
                   end)).

(** [(req, res, end) => () => { throw 'cleanup failed' }] *)
Definition mwFailingCleanup : JsonRpcMiddleware :=
  fun _ _ => Ret (RFunction (Throw (VStr "cleanup failed"))).

(** [(req, res, end) => { res.result = 42; end(); throw 'late' }] *)
Definition mwEndThenThrow : JsonRpcMiddleware :=
  fun _ res =>
    SetProp res "result" (VNum 42) (CallEnd VUndefined (fun _ => Throw (VStr "late"))).

(** [{ a: 1 }] and [{ jsonrpc: '2.0', method: 'm', id: 1, params: <it> }]. *)
Definition params1 : object := Obj CObject {["a" := VNum 1]}.

Definition request1 : object :=
  Obj CObject
    (<["jsonrpc" := VStr "2.0"]>
       (<["method" := VStr "m"]> (<["id" := VNum 1]> {["params" := VRef 0]}))).

Definition state1 : state := State [params1; request1] [] false None.

(** [(req, res, end) => { req.params.a = 2; res.result = 42; end() }] *)
Definition mwMutateParams : JsonRpcMiddleware :=
  fun req res =>
    Read req
      (fun o =>
         match o ≫= (fun ob => props ob !! "params") with
         | Some (VRef p) =>
             SetProp p "a" (VNum 2)
               (SetProp res "result" (VNum 42)
                  (CallEnd VUndefined (fun _ => Ret (RValue VUndefined))))
         | _ => Throw (VStr "no params")
         end).

(** [(req, res, end) => { req.method = 'other'; delete req.id; res.result = 42;
    end() }] *)
Definition mwMutateRequest : JsonRpcMiddleware :=
  fun req res =>
    SetProp req "method" (VStr "other")
      (DelProp req "id"
         (SetProp res "result" (VNum 42)
            (CallEnd VUndefined (fun _ => Ret (RValue VUndefined))))).

(** [(req, res, end) => new Promise(() => {})]: never settles. *)
Definition mwHang : JsonRpcMiddleware :=
  fun _ _ => Hang.




(** [(req, res, end) => () => { res.cleaned = true }]: does not end the
    request, returns a handler. *)
Definition mwCleanup : JsonRpcMiddleware :=
  fun _ res => Ret (RFunction (SetProp res "cleaned" (VBool true) (Ret tt))).

(** The handlers on [returnHandlers] after [mwCleanup], at index 0, has run
    for the request [req = 1], [res = 2]. *)
Definition cleanupHandlers {tbl : ErrorTable} : list collected :=
  [(0, exec (end_callback 1 2) (SetProp 2 "cleaned" (VBool true) (Ret tt)))].

(** The function value that [mwCleanup] returns, and the one that
    [mwFailingCleanup] returns, for the request [req = 1], [res = 2]. *)
Definition cleanupHandler {tbl : ErrorTable} : M unit :=
  exec (end_callback 1 2) (SetProp 2 "cleaned" (VBool true) (Ret tt)).

Definition failingHandler {tbl : ErrorTable} : M unit :=
  exec (end_callback 1 2) (Throw (VStr "cleanup failed")).

(** [{ id: 7, jsonrpc: '1.0' }]: a request without a method, alone in the
    store. *)
Definition requestNoMethod : object :=
  Obj CObject (<["id" := VNum 7]> {["jsonrpc" := VStr "1.0"]}).

Definition stateNoMethod : state := State [requestNoMethod] [] false None.

(** [(req, res, end) => 5] *)
Definition mwReturnFive : JsonRpcMiddleware :=
  fun _ _ => Ret (RValue (VNum 5)).

(** [(req, res, end) => { res.error = 'bad' }] *)
Definition mwAssignError : JsonRpcMiddleware :=
  fun _ res => SetProp res "error" (VStr "bad") (Ret (RValue VUndefined)).

(** [(req, res, end) => { const e = new Error('boom'); e.code = -32000; throw e }] *)
Definition mwThrowError : JsonRpcMiddleware :=
  fun _ _ =>
    Alloc (new_Error "boom")
      (fun l => SetProp l "code" (VNum (-32000)) (Throw (VRef l))).

(** [(req, res, end) => { res.result = 42 }]: sets a result, does not end
    the request. *)
Definition mwSetResult : JsonRpcMiddleware :=
  fun _ res => SetProp res "result" (VNum 42) (Ret (RValue VUndefined)).

(** [(req, res, end) => { end() }]: ends the request, sets no result. *)
Definition mwEndOnly : JsonRpcMiddleware :=
  fun _ _ =>
    CallEnd VUndefined
      (fun r => match r with
                | Some e => Throw e
                | None => Ret (RValue VUndefined)
                end).

(** [(req, res, end) => () => { throw 0 }] *)
Definition mwFalsyFailingCleanup : JsonRpcMiddleware :=
  fun _ _ => Ret (RFunction (Throw (VNum 0))).



(** [(req, res, end) => { throw new Error() }]: the message of the error is
    the empty string. *)
Definition mwThrowEmptyError : JsonRpcMiddleware :=
  fun _ _ => Alloc (new_Error EmptyString) (fun l => Throw (VRef l)).

(** * Proofs *)

Arguments erred : simpl never.
Arguments caught : simpl never.
Arguments begun : simpl never.
Arguments coerced : simpl never.
Arguments new_EthereumRpcError : simpl never.
Arguments _runMiddleware : simpl never.
Arguments _checkForCompletion : simpl never.
Arguments _processMiddlewareError : simpl never.
Arguments _validateEndState : simpl never.
Arguments end_callback : simpl never.
Arguments finish : simpl never.
Arguments new_calls : simpl never.

(** ** The store *)

Lemma length_heap_set_prop l key v s :
  length (heap (set_prop l key v s)) = length (heap s).
Proof. apply length_alter. Qed.

Lemma length_heap_del_prop l key s :
  length (heap (del_prop l key s)) = length (heap s).
Proof. apply length_alter. Qed.

Lemma lookup_set_prop_ne l l' key v s :
  l <> l' -> heap (set_prop l key v s) !! l' = heap s !! l'.
Proof. intros. by apply list_lookup_alter_ne. Qed.

Lemma lookup_del_prop_ne l l' key s :
  l <> l' -> heap (del_prop l key s) !! l' = heap s !! l'.
Proof. intros. by apply list_lookup_alter_ne. Qed.

Lemma get_set_prop_eq l key v s :
  l < length (heap s) -> get l key (set_prop l key v s) = v.
Proof.
  intros Hl. unfold get, set_prop. simpl.
  rewrite list_lookup_alter_eq.
  destruct (lookup_lt_is_Some_2 _ _ Hl) as [o ->]. simpl.
  by rewrite lookup_insert_eq.
Qed.

Lemma has_set_prop_eq l key v s :
  l < length (heap s) -> has l key (set_prop l key v s) = true.
Proof.
  intros Hl. unfold has, set_prop. simpl.
  rewrite list_lookup_alter_eq.
  destruct (lookup_lt_is_Some_2 _ _ Hl) as [o ->]. simpl.
  rewrite lookup_insert_eq. by apply bool_decide_eq_true.
Qed.

Lemma get_set_prop_ne l l' key key' v s :
  l <> l' \/ key <> key' -> get l' key' (set_prop l key v s) = get l' key' s.
Proof.
  intros Hne. unfold get, set_prop. simpl.
  destruct (decide (l = l')) as [<-|Hl].
  - rewrite list_lookup_alter_eq. destruct (heap s !! l) as [o|]; [|done]. simpl.
    rewrite lookup_insert_ne; [done|]. by destruct Hne.
  - by rewrite list_lookup_alter_ne.
Qed.

Lemma has_set_prop_ne l l' key key' v s :
  l <> l' \/ key <> key' -> has l' key' (set_prop l key v s) = has l' key' s.
Proof.
  intros Hne. unfold has, set_prop. simpl.
  destruct (decide (l = l')) as [<-|Hl].
  - rewrite list_lookup_alter_eq. destruct (heap s !! l) as [o|]; [|done]. simpl.
    rewrite lookup_insert_ne; [done|]. by destruct Hne.
  - by rewrite list_lookup_alter_ne.
Qed.

Lemma has_del_prop_eq l key s : has l key (del_prop l key s) = false.
Proof.
  unfold has, del_prop. simpl. rewrite list_lookup_alter_eq.
  destruct (heap s !! l) as [o|]; [|done]. simpl.
  rewrite lookup_delete_eq. apply bool_decide_eq_false. by intros [? ?].
Qed.

Lemma get_del_prop_ne l l' key key' s :
  l <> l' \/ key <> key' -> get l' key' (del_prop l key s) = get l' key' s.
Proof.
  intros Hne. unfold get, del_prop. simpl.
  destruct (decide (l = l')) as [<-|Hl].
  - rewrite list_lookup_alter_eq. destruct (heap s !! l) as [o|]; [|done]. simpl.
    rewrite lookup_delete_ne; [done|]. by destruct Hne.
  - by rewrite list_lookup_alter_ne.
Qed.

Lemma has_del_prop_ne l l' key key' s :
  l <> l' \/ key <> key' -> has l' key' (del_prop l key s) = has l' key' s.
Proof.
  intros Hne. unfold has, del_prop. simpl.
  destruct (decide (l = l')) as [<-|Hl].
  - rewrite list_lookup_alter_eq. destruct (heap s !! l) as [o|]; [|done]. simpl.
    rewrite lookup_delete_ne; [done|]. by destruct Hne.
  - by rewrite list_lookup_alter_ne.
Qed.

Lemma has_get_truthy l key s : truthy (get l key s) = true -> has l key s = true.
Proof.
  unfold get, has. destruct (heap s !! l) as [o|]; [|done].
  destruct (props o !! key) as [v|] eqn:E; [|done].
  intros _. apply bool_decide_eq_true. by exists v.
Qed.

Lemma lookup_alloc_old o s l :
  l < length (heap s) -> heap (alloc o s).2 !! l = heap s !! l.
Proof. intros. simpl. by apply lookup_app_l. Qed.

Lemma lookup_alloc_new o s : heap (alloc o s).2 !! (alloc o s).1 = Some o.
Proof. simpl. by rewrite list_lookup_middle. Qed.

(** ** States of one run *)

Lemma evolves_refl s : evolves s s.
Proof. by split. Qed.

Lemma evolves_trans s1 s2 s3 : evolves s1 s2 -> evolves s2 s3 -> evolves s1 s3.
Proof.
  intros [L1 C1 P1] [L2 C2 P2]. split.
  - lia.
  - intros l Hl. rewrite C2 by lia. by apply C1.
  - by etrans.
Qed.

Lemma evolves_set_prop l key v s : evolves s (set_prop l key v s).
Proof.
  split; simpl.
  - by rewrite length_alter.
  - intros l' _. destruct (decide (l = l')) as [<-|Hne].
    + rewrite list_lookup_alter_eq. by destruct (heap s !! l).
    + by rewrite list_lookup_alter_ne.
  - done.
Qed.

Lemma evolves_del_prop l key s : evolves s (del_prop l key s).
Proof.
  split; simpl.
  - by rewrite length_alter.
  - intros l' _. destruct (decide (l = l')) as [<-|Hne].
    + rewrite list_lookup_alter_eq. by destruct (heap s !! l).
    + by rewrite list_lookup_alter_ne.
  - done.
Qed.

Lemma evolves_alloc o s : evolves s (alloc o s).2.
Proof.
  split; simpl.
  - rewrite length_app. lia.
  - intros l Hl. by rewrite lookup_app_l.
  - done.
Qed.

Lemma evolves_log e s : evolves s (log e s).
Proof. split; simpl; [done|done|]. by apply prefix_app_r. Qed.

Lemma evolves_set_endCalled b s : evolves s (set_endCalled b s).
Proof. by split. Qed.

Lemma evolves_set_deferred d s : evolves s (set_deferred d s).
Proof. by split. Qed.

Lemma evolves_resolve v s : evolves s (resolve v s).
Proof. unfold resolve. destruct (deferred s); [apply evolves_refl|apply evolves_set_deferred]. Qed.

Lemma new_calls_refl s : new_calls s s = [].
Proof. unfold new_calls. apply drop_all. Qed.

Lemma evolves_calls s s' : evolves s s' -> calls s' = calls s ++ new_calls s s'.
Proof.
  intros [_ _ [t Ht]]. unfold new_calls. rewrite Ht. by rewrite drop_app_length.
Qed.

Lemma new_calls_trans s1 s2 s3 :
  evolves s1 s2 -> evolves s2 s3 ->
  new_calls s1 s3 = new_calls s1 s2 ++ new_calls s2 s3.
Proof.
  intros H12 H23. unfold new_calls at 1.
  rewrite (evolves_calls _ _ H23), (evolves_calls _ _ H12).
  rewrite <- (assoc_L (++)). by rewrite drop_app_length.
Qed.

Lemma new_calls_log e s : new_calls s (log e s) = [e].
Proof. unfold new_calls. simpl. by rewrite drop_app_length. Qed.

(** ** Computations *)

Ltac unfold_M :=
  unfold bind, ret, reads, modify, throw, new, try_catch in *; simpl in *.

Section Preserves.
Context (R : state -> state -> Prop).
Hypothesis R_refl : forall s, R s s.
Hypothesis R_trans : forall s1 s2 s3, R s1 s2 -> R s2 s3 -> R s1 s3.

Lemma preserves_ret {A} (a : A) : preserves R (ret a).
Proof. intros s. apply R_refl. Qed.

Lemma preserves_throw {A} v : preserves R (@throw A v).
Proof. intros s. apply R_refl. Qed.

Lemma preserves_reads {A} (f : state -> A) : preserves R (reads f).
Proof. intros s. apply R_refl. Qed.

Lemma preserves_pending {A} : preserves R (@Pending A).
Proof. intros s. apply R_refl. Qed.

Lemma preserves_bind {A B} (m : M A) (f : A -> M B) :
  preserves R m -> (forall a, preserves R (f a)) -> preserves R (bind m f).
Proof.
  intros Hm Hf s. unfold bind. specialize (Hm s).
  destruct (m s) as [a s'|v s'|s']; simpl in *; [|done|done].
  eapply R_trans; [exact Hm|apply Hf].
Qed.

Lemma preserves_try_catch {A} (m : M A) (h : value -> M A) :
  preserves R m -> (forall v, preserves R (h v)) -> preserves R (try_catch m h).
Proof.
  intros Hm Hh s. unfold try_catch. specialize (Hm s).
  destruct (m s) as [a s'|v s'|s']; simpl in *; [done| |done].
  eapply R_trans; [exact Hm|apply Hh].
Qed.

Lemma preserves_modify (f : state -> state) :
  (forall s, R s (f s)) -> preserves R (modify f).
Proof. intros Hf s. apply Hf. Qed.

Lemma preserves_new o :
  (forall s, R s (alloc o s).2) -> preserves R (new o).
Proof. intros Hf s. apply Hf. Qed.

Lemma preserves_if {A} (b : bool) (m1 m2 : M A) :
  preserves R m1 -> preserves R m2 -> preserves R (if b then m1 else m2).
Proof. by destruct b. Qed.

Hypothesis R_set_prop : forall l key v s, R s (set_prop l key v s).
Hypothesis R_del_prop : forall l key s, R s (del_prop l key s).
Hypothesis R_alloc : forall o s, R s (alloc o s).2.

Lemma preserves_exec {A} (end_ : value -> M unit) (p : script A) :
  (forall arg, preserves R (end_ arg)) -> preserves R (exec end_ p).
Proof.
  intros Hend. induction p as [r|v| |l k IH|l key v k IH|l key k IH|o k IH|arg k IH];
    simpl.
  - by apply preserves_ret.
  - by apply preserves_throw.
  - by apply preserves_pending.
  - intros s. apply IH.
  - apply preserves_bind; [by apply preserves_modify|done].
  - apply preserves_bind; [by apply preserves_modify|done].
  - apply preserves_bind; [by apply preserves_new|done].
  - intros s. specialize (Hend arg s).
    destruct (end_ arg s) as [[] s'|e s'|s']; simpl in *; [| |done].
    + eapply R_trans; [exact Hend|apply IH].
    + eapply R_trans; [exact Hend|apply IH].
Qed.

Lemma preserves_new_EthereumRpcError code message data :
  preserves R (new_EthereumRpcError code message data).
Proof.
  unfold new_EthereumRpcError.
  apply preserves_bind; [by apply preserves_new|intros d].
  apply preserves_if; [|apply preserves_if];
    (apply preserves_bind; [by apply preserves_new|intros e]);
    first [apply preserves_throw|apply preserves_ret].
Qed.
End Preserves.

(** ** The engine's own steps leave a later state of the same run *)

Ltac preserves_step :=
  lazymatch goal with
  | |- preserves _ (ret _) => apply (preserves_ret evolves evolves_refl)
  | |- preserves _ (throw _) => apply (preserves_throw evolves evolves_refl)
  | |- preserves _ (reads _) => apply (preserves_reads evolves evolves_refl)
  | |- preserves _ Pending => apply (preserves_pending evolves evolves_refl)
  | |- preserves _ (new_EthereumRpcError _ _ _) =>
      apply (preserves_new_EthereumRpcError evolves evolves_refl evolves_trans evolves_alloc)
  | |- preserves _ (modify _) =>
      apply preserves_modify;
      solve [auto using evolves_set_prop, evolves_del_prop, evolves_log,
             evolves_set_endCalled, evolves_set_deferred, evolves_resolve]
  | |- preserves _ (new _) => apply preserves_new; solve [auto using evolves_alloc]
  | |- preserves _ (bind _ _) => apply (preserves_bind evolves evolves_trans); [|intros ?]
  | |- preserves _ (try_catch _ _) =>
      apply (preserves_try_catch evolves evolves_trans); [|intros ?]
  | |- preserves _ (if ?b then _ else _) => destruct b
  | |- preserves _ (match ?r with RValue _ => _ | RFunction _ => _ end) => destruct r
  | |- preserves _ (match ?r with Some _ => _ | None => _ end) => destruct r
  | |- preserves _ (let '(_, _) := ?r in _) => destruct r
  end.

Ltac preserves_evolves := repeat preserves_step.

Section EngineEvolves.
Context {tbl : ErrorTable}.

Lemma evolves_serialize error : preserves evolves (serialize error).
Proof. unfold serialize. preserves_evolves. Qed.

Lemma evolves_processMiddlewareError req res error :
  preserves evolves (_processMiddlewareError req res error).
Proof. unfold _processMiddlewareError. preserves_evolves. Qed.

Lemma evolves_validateEndState req res arg :
  preserves evolves (_validateEndState req res arg).
Proof. unfold _validateEndState. preserves_evolves. Qed.


Lemma evolves_end_callback req res arg :
  preserves evolves (end_callback req res arg).
Proof.
  unfold end_callback. preserves_evolves. apply evolves_validateEndState.
Qed.

Lemma evolves_exec {A} req res (p : script A) :
  preserves evolves (exec (end_callback req res) p).
Proof.
  apply (preserves_exec evolves evolves_refl evolves_trans evolves_set_prop
           evolves_del_prop evolves_alloc).
  apply evolves_end_callback.
Qed.

Lemma evolves_closure req res c : closure_of req res c -> preserves evolves c.2.
Proof. intros [h ->]. apply evolves_exec. Qed.

Lemma evolves_runReturnHandlers req res hs :
  Forall (closure_of req res) hs -> preserves evolves (_runReturnHandlers hs).
Proof.
  induction 1 as [|[i c] hs Hc Hhs IH]; simpl.
  - preserves_evolves.
  - preserves_evolves; [by apply (evolves_closure _ _ _ Hc)|exact IH].
Qed.

Lemma evolves_runMiddleware req res m i hs :
  preserves evolves (_runMiddleware req res m i hs).
Proof.
  unfold _runMiddleware. preserves_evolves;
    auto using evolves_exec, evolves_processMiddlewareError.
Qed.

Lemma evolves_middleware_loop req res stack i e c hs :
  preserves evolves (middleware_loop req res stack i e c hs).
Proof.
  revert i e c hs. induction stack as [|m stack IH]; intros i e c hs; simpl.
  - preserves_evolves.
  - apply (preserves_bind evolves evolves_trans); [apply evolves_runMiddleware|].
    intros [[e' c'] hs']. destruct c'; [preserves_evolves|apply IH].
Qed.

End EngineEvolves.

(** ** [_runMiddleware], case by case *)

Section RunMiddleware.
Context {tbl : ErrorTable}.

(** The constructor returns the error it created or throws an [Error], at
    the same location. *)
Lemma new_EthereumRpcError_cases code message data s :
  new_EthereumRpcError code message data s
  = if accepts code message
    then Returned (error_in s) (erred code message data s)
    else Threw (error_in s) (erred code message data s).
Proof.
  unfold accepts, erred, error_in, new_EthereumRpcError. unfold_M.
  destruct (isInteger code), (truthy message), (String.eqb (typeof message) "string");
    simpl; by rewrite length_app, Nat.add_1_r.
Qed.

Lemma new_EthereumRpcError_eq code message data s :
  accepts code message = true ->
  new_EthereumRpcError code message data s
  = Returned (error_in s) (erred code message data s).
Proof. intros Ha. by rewrite new_EthereumRpcError_cases, Ha. Qed.

Lemma new_EthereumRpcError_refused code message data s :
  accepts code message = false ->
  new_EthereumRpcError code message data s
  = Threw (error_in s) (erred code message data s).
Proof. intros Ha. by rewrite new_EthereumRpcError_cases, Ha. Qed.

Lemma constructed_accepts code message d :
  accepts code message = true ->
  constructed code message d
  = Obj CEthereumRpcError
      (<["code" := code]> (<["message" := message]> {["data" := VRef d]})).
Proof.
  unfold accepts, constructed.
  by destruct (isInteger code), (truthy message), (String.eqb (typeof message) "string").
Qed.

Lemma constructed_refused code message d :
  accepts code message = false -> cls (constructed code message d) = CError.
Proof.
  unfold accepts, constructed.
  by destruct (isInteger code), (truthy message), (String.eqb (typeof message) "string").
Qed.

Lemma heap_erred code message data s :
  heap (erred code message data s)
  = heap s ++ [Obj CObject data; constructed code message (length (heap s))].
Proof.
  unfold erred, constructed, new_EthereumRpcError. unfold_M.
  destruct (isInteger code), (truthy message), (String.eqb (typeof message) "string");
    simpl; by rewrite <- (assoc_L (++)).
Qed.

Lemma calls_erred code message data s : calls (erred code message data s) = calls s.
Proof.
  unfold erred, new_EthereumRpcError. unfold_M.
  by destruct (isInteger code), (truthy message), (String.eqb (typeof message) "string").
Qed.

Lemma endCalled_erred code message data s :
  endCalled (erred code message data s) = endCalled s.
Proof.
  unfold erred, new_EthereumRpcError. unfold_M.
  by destruct (isInteger code), (truthy message), (String.eqb (typeof message) "string").
Qed.

Lemma deferred_erred code message data s :
  deferred (erred code message data s) = deferred s.
Proof.
  unfold erred, new_EthereumRpcError. unfold_M.
  by destruct (isInteger code), (truthy message), (String.eqb (typeof message) "string").
Qed.

Lemma instanceof_erred code message data s :
  accepts code message = true ->
  instanceof_EthereumRpcError (error_in s) (erred code message data s) = true.
Proof.
  intros Ha. unfold instanceof_EthereumRpcError, class_of, error_in. rewrite heap_erred.
  rewrite lookup_app_r by lia. replace (S (length (heap s)) - length (heap s)) with 1 by lia.
  simpl. rewrite constructed_accepts by done. by apply bool_decide_eq_true.
Qed.

(** An error of the engine's own, or any other [EthereumRpcError], is stored
    as it is; so is a value that is not an [Error], wrapped. *)
Lemma converts_rpc v s : instanceof_EthereumRpcError v s = true -> converts v s = true.
Proof. intros H. unfold converts. by rewrite H, orb_true_r. Qed.

Lemma converts_non_error v s : instanceof_Error v s = false -> converts v s = true.
Proof. intros H. unfold converts. by rewrite H. Qed.

Lemma converts_erred code message data s :
  accepts code message = true ->
  converts (error_in s) (erred code message data s) = true.
Proof. intros Ha. by apply converts_rpc, instanceof_erred. Qed.

Lemma _processMiddlewareError_cases req res v s :
  _processMiddlewareError req res v s
  = if converts v s
    then Returned tt (set_prop res "error" (coerced req v s).1 (coerced req v s).2)
    else Threw ((coerced req v s).1) ((coerced req v s).2).
Proof.
  unfold _processMiddlewareError, coerced, converts.
  unfold bind at 1, reads at 1.
  destruct (instanceof_Error v s); cbn [negb orb].
  - unfold bind at 1, reads at 1.
    destruct (instanceof_EthereumRpcError v s); [done|]. cbn [orb].
    unfold bind at 1 2 3, reads. rewrite new_EthereumRpcError_cases.
    by destruct (accepts _ _).
  - unfold bind at 1. by rewrite new_EthereumRpcError_eq.
Qed.

Lemma _processMiddlewareError_eq req res v s :
  converts v s = true ->
  _processMiddlewareError req res v s
  = Returned tt (set_prop res "error" (coerced req v s).1 (coerced req v s).2).
Proof. intros Hc. by rewrite _processMiddlewareError_cases, Hc. Qed.

Lemma _processMiddlewareError_refused req res v s :
  converts v s = false ->
  _processMiddlewareError req res v s = Threw ((coerced req v s).1) ((coerced req v s).2).
Proof. intros Hc. by rewrite _processMiddlewareError_cases, Hc. Qed.

Lemma caught_coerced req res v s :
  converts v s = true ->
  caught req res v s
  = let s' := set_prop res "error" (coerced req v s).1 (coerced req v s).2 in
    resolve (get res "error" s', true) s'.
Proof. intros Hc. unfold caught, bind. by rewrite _processMiddlewareError_eq. Qed.

Lemma caught_refused req res v s :
  converts v s = false -> caught req res v s = (coerced req v s).2.
Proof. intros Hc. unfold caught, bind. by rewrite _processMiddlewareError_refused. Qed.

(** What the constructor throws when [_processMiddlewareError] calls it for
    a value that does not convert. *)
Lemma coerced_refused req v s :
  converts v s = false -> (coerced req v s).1 = error_in s.
Proof.
  unfold converts, coerced. destruct (instanceof_Error v s); [|done].
  by destruct (instanceof_EthereumRpcError v s).
Qed.

Lemma _runMiddleware_pending req res m i hs s s1 :
  exec (end_callback req res) (m req res) (entered i s) = Pending s1 ->
  _runMiddleware req res m i hs s = Pending s1.
Proof.
  intros He. unfold _runMiddleware, bind, try_catch, modify. simpl.
  fold (entered i s). unfold bind. by rewrite He.
Qed.

Lemma catch_block req res v s hs :
  converts v s = true ->
  bind (bind (_processMiddlewareError req res v)
          (fun _ => bind (reads (get res "error"))
             (fun resError => bind (modify (resolve (resError, true)))
                (fun _ => ret hs))))
       (fun returnHandlers' =>
          bind (reads deferred)
            (fun promised =>
               match promised with
               | Some settled => ret (settled, returnHandlers')
               | None => Pending
               end)) s
  = awaited hs (caught req res v s).
Proof.
  intros Hc. rewrite caught_coerced by done. unfold bind at 1 2.
  rewrite _processMiddlewareError_eq by done. reflexivity.
Qed.

Lemma catch_block_refused req res v s (hs : list collected) :
  converts v s = false ->
  bind (bind (_processMiddlewareError req res v)
          (fun _ => bind (reads (get res "error"))
             (fun resError => bind (modify (resolve (resError, true)))
                (fun _ => ret hs))))
       (fun returnHandlers' =>
          bind (reads deferred)
            (fun promised =>
               match promised with
               | Some settled => ret (settled, returnHandlers')
               | None => Pending
               end)) s
  = Threw (error_in s) (caught req res v s).
Proof.
  intros Hc. rewrite caught_refused by done. unfold bind at 1 2.
  rewrite _processMiddlewareError_refused by done. by rewrite coerced_refused.
Qed.

(** The middleware threw a value that converts: the [catch] block stores
    the error and resolves the promise. *)
Lemma _runMiddleware_threw req res m i hs s v s1 :
  exec (end_callback req res) (m req res) (entered i s) = Threw v s1 ->
  converts v s1 = true ->
  _runMiddleware req res m i hs s = awaited hs (caught req res v s1).
Proof.
  intros He Hc. rewrite <- catch_block by done.
  unfold _runMiddleware, bind at 1 2 3 4, try_catch, modify. simpl.
  fold (entered i s). unfold bind at 1. rewrite He. reflexivity.
Qed.

(** The middleware threw an [Error] whose message the constructor refuses:
    the [catch] block throws, and so does [_runMiddleware]. *)
Lemma _runMiddleware_refused req res m i hs s v s1 :
  exec (end_callback req res) (m req res) (entered i s) = Threw v s1 ->
  converts v s1 = false ->
  _runMiddleware req res m i hs s = Threw (error_in s1) (caught req res v s1).
Proof.
  intros He Hc. rewrite <- (catch_block_refused _ _ _ _ hs) by done.
  unfold _runMiddleware, bind at 1 2 3 4, try_catch, modify. simpl.
  fold (entered i s). unfold bind at 1. rewrite He. reflexivity.
Qed.

Lemma _runMiddleware_returned req res m i hs s r s1 :
  exec (end_callback req res) (m req res) (entered i s) = Returned r s1 ->
  _runMiddleware req res m i hs s
  = if endCalled s1 then awaited hs s1
    else if truthy (get res "error" s1) then
      awaited hs
        (caught req res (error_in s1)
           (erred (VNum internal) (VStr errorMessages.noAssignmentToResponse)
              (<["request" := VRef req]> {["responseError" := get res "error" s1]}) s1))
    else
      match r with
      | RValue v =>
          if truthy v then
            awaited hs
              (caught req res (error_in s1)
                 (erred (VNum internal) (VStr (errorMessages.invalidReturnHandler v))
                    {["request" := VRef req]} s1))
          else awaited hs (resolve (VNull, false) s1)
      | RFunction h =>
          awaited (hs ++ [(i, exec (end_callback req res) h)])
            (resolve (VNull, false) (log (ECollect i) s1))
      end.
Proof.
  intros He.
  unfold _runMiddleware, bind at 1 2 3 4, try_catch, modify. simpl.
  fold (entered i s). unfold bind at 1. rewrite He.
  unfold bind at 1, reads at 1.
  destruct (endCalled s1); simpl; [reflexivity|].
  unfold bind at 1, reads at 1.
  destruct (truthy (get res "error" s1)).
  - unfold bind at 1. rewrite new_EthereumRpcError_eq by done. unfold throw.
    by apply catch_block, converts_erred.
  - destruct r as [v|h].
    + destruct (truthy v).
      * unfold bind at 1. rewrite new_EthereumRpcError_eq by done. unfold throw.
        by apply catch_block, converts_erred.
      * reflexivity.
    + reflexivity.
Qed.

End RunMiddleware.

(** ** What the engine's error handling does to the state *)

Section ErrorStates.
Context {tbl : ErrorTable}.

Lemma evolves_erred code message data s : evolves s (erred code message data s).
Proof.
  apply (preserves_new_EthereumRpcError evolves evolves_refl evolves_trans evolves_alloc).
Qed.

Lemma lookup_erred_old code message data s l :
  l < length (heap s) -> heap (erred code message data s) !! l = heap s !! l.
Proof. intros. rewrite heap_erred. by apply lookup_app_l. Qed.

Lemma get_erred_old code message data s l key :
  l < length (heap s) -> get l key (erred code message data s) = get l key s.
Proof. intros. unfold get. by rewrite lookup_erred_old. Qed.

Lemma has_erred_old code message data s l key :
  l < length (heap s) -> has l key (erred code message data s) = has l key s.
Proof. intros. unfold has. by rewrite lookup_erred_old. Qed.

Lemma read_error_erred code message data s :
  accepts code message = true ->
  read_error (error_in s) (erred code message data s) = Some (code, message, data).
Proof.
  intros Ha. unfold read_error, error_in, deref. rewrite heap_erred.
  rewrite lookup_app_r by lia. replace (S (length (heap s)) - length (heap s)) with 1 by lia.
  simpl. rewrite constructed_accepts by done.
  replace (({["code" := code; "message" := message;
              "data" := VRef (length (heap s))]} : gmap string value) !! "data")
    with (Some (VRef (length (heap s)))) by reflexivity.
  simpl. rewrite lookup_app_r by lia. rewrite Nat.sub_diag. reflexivity.
Qed.

Lemma evolves_coerced req v s : evolves s (coerced req v s).2.
Proof.
  unfold coerced.
  destruct (instanceof_Error v s); [destruct (instanceof_EthereumRpcError v s)|];
    simpl; first [apply evolves_refl|apply evolves_erred].
Qed.

Lemma calls_coerced req v s : calls (coerced req v s).2 = calls s.
Proof.
  unfold coerced.
  destruct (instanceof_Error v s); [destruct (instanceof_EthereumRpcError v s)|];
    simpl; by rewrite ?calls_erred.
Qed.

Lemma endCalled_coerced req v s : endCalled (coerced req v s).2 = endCalled s.
Proof.
  unfold coerced.
  destruct (instanceof_Error v s); [destruct (instanceof_EthereumRpcError v s)|];
    simpl; by rewrite ?endCalled_erred.
Qed.

Lemma deferred_coerced req v s : deferred (coerced req v s).2 = deferred s.
Proof.
  unfold coerced.
  destruct (instanceof_Error v s); [destruct (instanceof_EthereumRpcError v s)|];
    simpl; by rewrite ?deferred_erred.
Qed.

Lemma lookup_coerced_old req v s l :
  l < length (heap s) -> heap (coerced req v s).2 !! l = heap s !! l.
Proof.
  intros. unfold coerced.
  destruct (instanceof_Error v s); [destruct (instanceof_EthereumRpcError v s)|];
    cbn [snd]; try done; by apply lookup_erred_old.
Qed.

Lemma truthy_coerced req v s : truthy (coerced req v s).1 = true.
Proof.
  unfold coerced.
  destruct (instanceof_Error v s); [|done].
  destruct (instanceof_EthereumRpcError v s) eqn:E; [|done].
  simpl. unfold instanceof_EthereumRpcError in E. apply bool_decide_eq_true in E.
  by destruct v.
Qed.

(** What [_processMiddlewareError] stores is an instance of
    [EthereumRpcError]. *)
Lemma instanceof_coerced req v s :
  converts v s = true ->
  instanceof_EthereumRpcError (coerced req v s).1 (coerced req v s).2 = true.
Proof.
  unfold converts, coerced. destruct (instanceof_Error v s).
  - destruct (instanceof_EthereumRpcError v s) eqn:Hrpc; [done|]. cbn [negb orb fst snd].
    intros Ha. by apply instanceof_erred.
  - intros _. by apply instanceof_erred.
Qed.

Lemma heap_resolve d s : heap (resolve d s) = heap s.
Proof. unfold resolve. by destruct (deferred s). Qed.

Lemma calls_resolve d s : calls (resolve d s) = calls s.
Proof. unfold resolve. by destruct (deferred s). Qed.

Lemma endCalled_resolve d s : endCalled (resolve d s) = endCalled s.
Proof. unfold resolve. by destruct (deferred s). Qed.

Lemma deferred_resolve d s : deferred (resolve d s) = Some (default d (deferred s)).
Proof. unfold resolve. destruct (deferred s) eqn:E; simpl; by rewrite ?E. Qed.

Lemma get_resolve d s l key : get l key (resolve d s) = get l key s.
Proof. unfold get. by rewrite heap_resolve. Qed.

Lemma has_resolve d s l key : has l key (resolve d s) = has l key s.
Proof. unfold has. by rewrite heap_resolve. Qed.

Lemma heap_caught req res v s :
  converts v s = true ->
  heap (caught req res v s)
  = heap (set_prop res "error" (coerced req v s).1 (coerced req v s).2).
Proof. intros Hc. rewrite caught_coerced by done. simpl. by rewrite heap_resolve. Qed.

Lemma calls_caught req res v s : calls (caught req res v s) = calls s.
Proof.
  destruct (converts v s) eqn:Hc.
  - rewrite caught_coerced by done. simpl. rewrite calls_resolve. simpl.
    apply calls_coerced.
  - rewrite caught_refused by done. apply calls_coerced.
Qed.

Lemma evolves_caught req res v s : evolves s (caught req res v s).
Proof.
  destruct (converts v s) eqn:Hc.
  - rewrite caught_coerced by done. simpl.
    eapply evolves_trans; [apply evolves_coerced|].
    eapply evolves_trans; [apply evolves_set_prop|apply evolves_resolve].
  - rewrite caught_refused by done. apply evolves_coerced.
Qed.

Lemma get_error_caught req res v s :
  converts v s = true ->
  res < length (heap s) -> get res "error" (caught req res v s) = (coerced req v s).1.
Proof.
  intros Hc Hres. rewrite caught_coerced by done. simpl. rewrite get_resolve.
  apply get_set_prop_eq. pose proof (ev_length _ _ (evolves_coerced req v s)). lia.
Qed.

Lemma has_error_caught req res v s :
  converts v s = true ->
  res < length (heap s) -> has res "error" (caught req res v s) = true.
Proof.
  intros Hc Hres. rewrite caught_coerced by done. simpl. rewrite has_resolve.
  apply has_set_prop_eq. pose proof (ev_length _ _ (evolves_coerced req v s)). lia.
Qed.

Lemma deferred_caught req res v s :
  converts v s = true ->
  res < length (heap s) ->
  deferred (caught req res v s) = Some (default ((coerced req v s).1, true) (deferred s)).
Proof.
  intros Hc Hres. rewrite caught_coerced by done. simpl. rewrite deferred_resolve. simpl.
  rewrite deferred_coerced. f_equal. f_equal. f_equal.
  apply get_set_prop_eq. pose proof (ev_length _ _ (evolves_coerced req v s)). lia.
Qed.

Lemma lookup_caught_old req res v s l :
  l < length (heap s) -> l <> res -> heap (caught req res v s) !! l = heap s !! l.
Proof.
  intros Hl Hne. destruct (converts v s) eqn:Hc.
  - rewrite heap_caught by done. rewrite lookup_set_prop_ne by done.
    by apply lookup_coerced_old.
  - rewrite caught_refused by done. by apply lookup_coerced_old.
Qed.

End ErrorStates.

(** ** [_handle]: its three branches and its last step *)

Section Handle.
Context {tbl : ErrorTable}.

Lemma valid_request_ref callerReq s :
  valid_request callerReq s = true -> exists l, callerReq = VRef l.
Proof.
  unfold valid_request. intros Hv.
  destruct callerReq; simpl in Hv; try discriminate; eauto.
  - by rewrite andb_false_r in Hv.
  - by rewrite andb_false_r in Hv.
  - by rewrite andb_false_r in Hv.
Qed.

Lemma heap_begun callerReq s :
  heap (begun callerReq s)
  = heap s ++ [Obj CObject (spread callerReq s);
               Obj CObject
                 (<["id" := default VUndefined (spread callerReq s !! "id")]>
                    {["jsonrpc" := default VUndefined (spread callerReq s !! "jsonrpc")]})].
Proof.
  unfold begun. unfold_M. rewrite <- (assoc_L (++)). simpl.
  unfold get. simpl. by rewrite list_lookup_middle.
Qed.

Lemma calls_begun callerReq s : calls (begun callerReq s) = calls s.
Proof. reflexivity. Qed.

Lemma length_heap_begun callerReq s :
  length (heap (begun callerReq s)) = S (S (length (heap s))).
Proof. rewrite heap_begun, length_app. simpl. lia. Qed.

Lemma lookup_begun_old callerReq s l :
  l < length (heap s) -> heap (begun callerReq s) !! l = heap s !! l.
Proof. intros. rewrite heap_begun. by apply lookup_app_l. Qed.

Lemma evolves_begun callerReq s : evolves s (begun callerReq s).
Proof.
  split.
  - rewrite length_heap_begun. lia.
  - intros l Hl. by rewrite lookup_begun_old.
  - done.
Qed.

Lemma has_result_begun callerReq s : has (res_of s) "result" (begun callerReq s) = false.
Proof.
  unfold has, res_of. rewrite heap_begun.
  rewrite lookup_app_r by lia. replace (S (length (heap s)) - length (heap s)) with 1 by lia.
  reflexivity.
Qed.

Lemma has_error_begun callerReq s : has (res_of s) "error" (begun callerReq s) = false.
Proof.
  unfold has, res_of. rewrite heap_begun.
  rewrite lookup_app_r by lia. replace (S (length (heap s)) - length (heap s)) with 1 by lia.
  reflexivity.
Qed.

Lemma _handle_valid eng callerReq s :
  valid_request callerReq s = true ->
  _handle eng callerReq s
  = bind (try_catch (_processRequest eng (req_of s) (res_of s);;; ret VNull)
                    (fun _error => ret _error))
         (finish (res_of s)) (begun callerReq s).
Proof.
  unfold valid_request. intros Hv.
  apply andb_prop in Hv as [Hv Hmethod]. apply andb_prop in Hv as [Hv Hobject].
  apply andb_prop in Hv as [Htruthy Harray]. apply negb_true_iff in Harray.
  unfold _handle. unfold bind at 1, reads at 1.
  rewrite Htruthy, Harray, Hobject. simpl.
  unfold bind at 1, reads at 1. rewrite Hmethod. simpl.
  unfold begun, finish, req_of, res_of. unfold_M. by rewrite length_app, Nat.add_1_r.
Qed.

Lemma finish_falsy res error s :
  truthy error = false -> finish res error s = Returned (error, res) s.
Proof. intros He. unfold finish, bind. by rewrite He. Qed.

Lemma finish_attached res error s :
  truthy error = true -> truthy (get res "error" s) = true ->
  finish res error s = Returned (error, res) (del_prop res "result" s).
Proof.
  intros He Hr. unfold finish. unfold_M. rewrite He. simpl.
  rewrite get_del_prop_ne by (by right). by rewrite Hr.
Qed.

Lemma finish_serialized res error s :
  truthy error = true -> truthy (get res "error" s) = false ->
  finish res error s
  = Returned (error, res)
      (set_prop res "error" (VRef (length (heap s)))
         (alloc (serializeError (heap (del_prop res "result" s)) error)
            (del_prop res "result" s)).2).
Proof.
  intros He Hr. unfold finish, serialize. unfold_M. rewrite He. simpl.
  rewrite get_del_prop_ne by (by right). rewrite Hr. simpl.
  by rewrite length_alter.
Qed.

(** Whenever [finish] is given a truthy error, the response it hands over
    has an [error] and no [result]. *)
Lemma finish_truthy res error s :
  res < length (heap s) -> truthy error = true ->
  exists s', finish res error s = Returned (error, res) s'
             /\ has res "error" s' = true /\ has res "result" s' = false.
Proof.
  intros Hres He. destruct (truthy (get res "error" s)) eqn:Hr.
  - eexists. split; [by apply finish_attached|]. split.
    + rewrite has_del_prop_ne by (by right). by apply has_get_truthy.
    + apply has_del_prop_eq.
  - eexists. split; [by apply finish_serialized|]. split.
    + apply has_set_prop_eq. simpl. rewrite length_app, length_alter. lia.
    + rewrite has_set_prop_ne by (by right). unfold has. simpl.
      rewrite lookup_app_l by (by rewrite length_alter).
      apply (has_del_prop_eq res "result" s).
Qed.

Lemma evolves_finish res error : preserves evolves (finish res error).
Proof. unfold finish, serialize. preserves_evolves. Qed.

End Handle.

(** ** The claims on [handle] and on the empty stack *)

Section FirstClaims.
Context {tbl : ErrorTable}.


Lemma _runAllMiddleware_nil req res s :
  _runAllMiddleware req res [] s = Returned (VNull, false, []) s.
Proof. reflexivity. Qed.

Lemma read_error_erred_at code message data s0 s' :
  accepts code message = true ->
  heap s' !! length (heap s0) = heap (erred code message data s0) !! length (heap s0) ->
  heap s' !! S (length (heap s0))
  = heap (erred code message data s0) !! S (length (heap s0)) ->
  read_error (error_in s0) s' = Some (code, message, data).
Proof.
  intros Ha Hd He.
  rewrite <- (read_error_erred code message data s0 Ha).
  unfold read_error, error_in, deref. rewrite He.
  rewrite heap_erred in Hd |- *. rewrite lookup_app_r by lia.
  replace (S (length (heap s0)) - length (heap s0)) with 1 by lia.
  simpl. rewrite constructed_accepts by done.
  replace (({["code" := code; "message" := message;
              "data" := VRef (length (heap s0))]} : gmap string value) !! "data")
    with (Some (VRef (length (heap s0)))) by reflexivity.
  cbn [from_option id]. rewrite Hd. by rewrite constructed_accepts.
Qed.

Lemma read_error_erred_later code message data s0 s' res :
  accepts code message = true ->
  res < length (heap s0) ->
  (forall l, l < length (heap (erred code message data s0)) -> l <> res ->
             heap s' !! l = heap (erred code message data s0) !! l) ->
  read_error (error_in s0) s' = Some (code, message, data).
Proof.
  intros Ha Hres Hagree.
  assert (Hlen : length (heap (erred code message data s0)) = S (S (length (heap s0)))).
  { rewrite heap_erred, length_app. simpl. lia. }
  apply read_error_erred_at; [done| |]; apply Hagree; lia.
Qed.

Lemma finish_frame res error s :
  exists s',
    finish res error s = Returned (error, res) s'
    /\ (forall l, l < length (heap s) -> l <> res -> heap s' !! l = heap s !! l)
    /\ calls s' = calls s.
Proof.
  destruct (truthy error) eqn:He.
  - destruct (truthy (get res "error" s)) eqn:Hr.
    + eexists. split; [by apply finish_attached|]. split; [|done].
      intros l _ Hne. by rewrite lookup_del_prop_ne.
    + eexists. split; [by apply finish_serialized|]. split; [|done].
      intros l Hl Hne. rewrite lookup_set_prop_ne by done. simpl.
      rewrite lookup_app_l by (by rewrite length_alter).
      by rewrite list_lookup_alter_ne.
  - eexists. split; [by apply finish_falsy|]. done.
Qed.

Lemma _checkForCompletion_eq req res isComplete s :
  _checkForCompletion req res isComplete s
  = if negb (has res "result" s) && negb (has res "error" s) then
      Threw (error_in s)
        (erred (VNum internal) (VStr errorMessages.noErrorOrResult)
           {["request" := VRef req]} s)
    else if negb isComplete then
      Threw (error_in s)
        (erred (VNum internal) (VStr errorMessages.nothingEndedRequest)
           {["request" := VRef req]} s)
    else Returned tt s.
Proof.
  unfold _checkForCompletion, bind, reads, throw, ret.
  destruct (has res "result" s), (has res "error" s), isComplete; cbn [negb andb];
    rewrite ?new_EthereumRpcError_eq; reflexivity.
Qed.

(** C5 (as amended): for a valid request and an empty stack, processing
    fails with the internal-coded error "Response has no error or result"
    (the check for a result or an error comes before the check that something
    ended the request); [_handle] hands this error to the callback with a
    response that has an [error] and no [result], and calls no user code. *)
Theorem empty_stack_fails_without_error_or_result eng callerReq s :
  _middleware eng = [] ->
  valid_request callerReq s = true ->
  fails_with errorMessages.noErrorOrResult
    (_processRequest eng (req_of s) (res_of s) (begun callerReq s))
  /\ exists e s',
       _handle eng callerReq s = Returned (e, res_of s) s'
       /\ read_error e s'
          = Some (VNum internal, VStr errorMessages.noErrorOrResult,
                  {["request" := VRef (req_of s)]})
       /\ has (res_of s) "error" s' = true
       /\ has (res_of s) "result" s' = false
       /\ calls s' = calls s.
Proof.
  intros Hstack Hvalid.
  assert (Hproc : _processRequest eng (req_of s) (res_of s) (begun callerReq s)
                  = Threw (error_in (begun callerReq s))
                      (erred (VNum internal) (VStr errorMessages.noErrorOrResult)
                         {["request" := VRef (req_of s)]} (begun callerReq s))).
  { unfold _processRequest. rewrite Hstack. unfold bind at 1.
    rewrite _runAllMiddleware_nil. unfold bind at 1.
    rewrite _checkForCompletion_eq, has_result_begun, has_error_begun. reflexivity. }
  split.
  - do 4 eexists. split; [exact Hproc|]. by apply read_error_erred.
  - rewrite _handle_valid by done.
    unfold bind at 1, try_catch, bind at 1. rewrite Hproc. unfold ret at 1.
    set (s1 := erred _ _ _ _).
    assert (Hres : res_of s < length (heap (begun callerReq s))).
    { rewrite length_heap_begun. unfold res_of. lia. }
    assert (Hres1 : res_of s < length (heap s1)).
    { unfold s1. rewrite heap_erred, length_app. lia. }
    destruct (finish_truthy (res_of s) (error_in (begun callerReq s)) s1 Hres1 eq_refl)
      as (s' & Hfin & Herr & Hresult).
    destruct (finish_frame (res_of s) (error_in (begun callerReq s)) s1)
      as (s'' & Hfin' & Hframe & Hcalls).
    rewrite Hfin in Hfin'. injection Hfin' as <-.
    exists (error_in (begun callerReq s)), s'. split; [exact Hfin|].
    split; [|done].
    by apply (read_error_erred_later _ _ _ _ _ (res_of s)).
Qed.

End FirstClaims.



Lemma empty_stack_fails_without_error_or_result_witness :
  _middleware newEngine = []
  /\ valid_request (VRef 0) state0 = true
  /\ fails_with errorMessages.noErrorOrResult
       (_processRequest (tbl := sampleTable) newEngine 1 2 (begun (VRef 0) state0)).
Proof.
  split; [reflexivity|]. split; [reflexivity|].
  apply (empty_stack_fails_without_error_or_result (tbl := sampleTable)
           newEngine (VRef 0) state0); reflexivity.
Defined.

(** C5 as stated fails: with an empty stack the error is not the
    "Nothing ended request" one. *)
Lemma empty_stack_not_nothing_ended :
  ~ fails_with errorMessages.nothingEndedRequest
      (_processRequest (tbl := sampleTable) newEngine 1 2 (begun (VRef 0) state0)).
Proof.
  intros (e & s & code & data & Ho & Hread).
  vm_compute in Ho. injection Ho as <- <-.
  vm_compute in Hread. discriminate Hread.
Qed.

(** ** The [end] callback and the deferred promise *)

Section EndCallback.
Context {tbl : ErrorTable}.

Lemma _validateEndState_eq req res endArg s :
  _validateEndState req res endArg s
  = if instanceof_Error endArg s then
      Threw (error_in s)
        (erred (VNum internal) (VStr errorMessages.noErrorsToEnd)
           (<["request" := VRef req]> {["endCallbackCalledWith" := endArg]}) s)
    else if truthy endArg then
      Threw (error_in s)
        (erred (VNum internal) (VStr (errorMessages.noValuesToEnd endArg))
           (<["request" := VRef req]> {["endCallbackCalledWith" := endArg]}) s)
    else if truthy (get res "error" s) then
      Threw (error_in s)
        (erred (VNum internal) (VStr errorMessages.noAssignmentToResponse)
           (<["request" := VRef req]> {["responseError" := get res "error" s]}) s)
    else Returned tt s.
Proof.
  unfold _validateEndState, bind, reads, throw, ret.
  destruct (instanceof_Error endArg s); [by rewrite new_EthereumRpcError_eq|].
  destruct (truthy endArg); [by rewrite new_EthereumRpcError_eq|].
  destruct (truthy (get res "error" s)); [by rewrite new_EthereumRpcError_eq|done].
Qed.

Lemma end_callback_eq req res arg s :
  end_callback req res arg s
  = match _validateEndState req res arg (log (EEnd arg) s) with
    | Returned _ s' => Returned tt (resolve (VNull, true) (set_endCalled true s'))
    | Threw e s' => Threw e s'
    | Pending s' => Pending s'
    end.
Proof.
  unfold end_callback, bind, modify.
  by destruct (_validateEndState req res arg (log (EEnd arg) s)).
Qed.

(** A call of [end] returns only when its argument is falsy. *)
Lemma end_callback_returned req res arg s s' :
  end_callback req res arg s = Returned tt s' -> truthy arg = false.
Proof.
  rewrite end_callback_eq, _validateEndState_eq.
  destruct (instanceof_Error arg (log (EEnd arg) s)); [done|].
  destruct (truthy arg); [done|]. done.
Qed.

(** What it throws is a new internal-coded error. *)
Lemma end_callback_threw req res arg s e s' :
  end_callback req res arg s = Threw e s' ->
  exists message data,
    e = error_in (log (EEnd arg) s)
    /\ s' = erred (VNum internal) (VStr message) data (log (EEnd arg) s)
    /\ accepts (VNum internal) (VStr message) = true.
Proof.
  rewrite end_callback_eq, _validateEndState_eq.
  destruct (instanceof_Error arg (log (EEnd arg) s)).
  { intros [= <- <-]. do 2 eexists. by split_and!. }
  destruct (truthy arg).
  { intros [= <- <-]. do 2 eexists. by split_and!. }
  destruct (truthy (get res "error" (log (EEnd arg) s))).
  { intros [= <- <-]. do 2 eexists. by split_and!. }
  done.
Qed.

Lemma end_callback_not_pending req res arg s s' :
  end_callback req res arg s <> Pending s'.
Proof.
  rewrite end_callback_eq, _validateEndState_eq.
  by repeat (match goal with |- context [if ?b then _ else _] => destruct b end).
Qed.

Lemma cell_ok_end_callback req res arg :
  preserves (fun s s' => cell_ok s -> cell_ok s') (end_callback req res arg).
Proof.
  intros s Hs. rewrite end_callback_eq, _validateEndState_eq.
  repeat (match goal with |- context [if ?b then _ else _] => destruct b end);
    simpl; try exact Hs.
  unfold cell_ok in *. rewrite deferred_resolve, endCalled_resolve. simpl.
  right. split; [done|]. by destruct Hs as [[_ ->]|[_ ->]].
Qed.

Lemma cell_ok_exec {A} req res (p : script A) :
  preserves (fun s s' => cell_ok s -> cell_ok s') (exec (end_callback req res) p).
Proof.
  apply (preserves_exec (fun s s' => cell_ok s -> cell_ok s')); try done.
  - intros s1 s2 s3 H12 H23 H1. auto.
  - apply cell_ok_end_callback.
Qed.

Lemma cell_ok_entered i s : cell_ok (entered i s).
Proof. by left. Qed.

End EndCallback.

(** ** The loop over the stack *)

Section Loop.
Context {tbl : ErrorTable}.

Lemma awaited_eq hs s :
  awaited hs s
  = match deferred s with
    | Some d => Returned (d, hs) s
    | None => Pending s
    end.
Proof. unfold awaited, bind, reads. by destruct (deferred s). Qed.

Lemma middleware_loop_cons req res m rest i e c hs s :
  middleware_loop req res (m :: rest) i e c hs s
  = match _runMiddleware req res m i hs s with
    | Returned (e', c', hs') s' =>
        if c' then Returned (e', c', hs') s'
        else middleware_loop req res rest (S i) e' c' hs' s'
    | Threw v s' => Threw v s'
    | Pending s' => Pending s'
    end.
Proof.
  simpl. unfold bind.
  destruct (_runMiddleware req res m i hs s) as [[[e' c'] hs'] s'|v s'|s']; try done.
  by destruct c'.
Qed.

Lemma middleware_loop_app req res pre rest i e c hs s e' hs' s' :
  middleware_loop req res pre i e c hs s = Returned (e', false, hs') s' ->
  middleware_loop req res (pre ++ rest) i e c hs s
  = middleware_loop req res rest (i + length pre) e' false hs' s'.
Proof.
  revert i e c hs s. induction pre as [|m pre IH]; intros i e c hs s Hpre.
  - simpl in Hpre. injection Hpre as -> -> -> ->. simpl. by rewrite Nat.add_0_r.
  - rewrite <- app_comm_cons, middleware_loop_cons.
    rewrite middleware_loop_cons in Hpre.
    destruct (_runMiddleware req res m i hs s) as [[[e1 c1] hs1] s1|v s1|s1]; try done.
    destruct c1; [done|].
    rewrite (IH _ _ _ _ _ Hpre). simpl. f_equal. lia.
Qed.

(** A middleware that throws a value that converts ends the loop: the error
    of the response is the coerced value, and the request is complete. *)
Lemma _runMiddleware_of_throw req res m i hs s v s1 :
  res < length (heap s) ->
  exec (end_callback req res) (m req res) (entered i s) = Threw v s1 ->
  converts v s1 = true ->
  exists e,
    _runMiddleware req res m i hs s = Returned (e, true, hs) (caught req res v s1)
    /\ (e = VNull \/ e = (coerced req v s1).1).
Proof.
  intros Hres He Hcv.
  assert (Hres1 : res < length (heap s1)).
  { pose proof (ev_length _ _ (evolves_exec req res (m req res) (entered i s))) as Hl.
    rewrite He in Hl. simpl in Hl. lia. }
  pose proof (cell_ok_exec req res (m req res) (entered i s) (cell_ok_entered i s)) as Hc.
  rewrite He in Hc. simpl in Hc.
  rewrite (_runMiddleware_threw _ _ _ _ _ _ _ _ He Hcv), awaited_eq.
  rewrite deferred_caught by done.
  destruct Hc as [[_ ->]|[_ ->]]; simpl; eauto.
Qed.

End Loop.

(** ** A middleware throws: from the throw to the response *)

Section ThrowScenario.
Context {tbl : ErrorTable}.
Variables (eng : JsonRpcEngine) (callerReq : value) (s : state).
Variables (pre : list JsonRpcMiddleware) (m : JsonRpcMiddleware)
          (post : list JsonRpcMiddleware) (hs : list collected) (s3 : state).
Variables (v : value) (s4 : state).

Hypothesis Hreach : reaches eng callerReq s pre m post hs s3.
Hypothesis Hthrow : run_of callerReq s pre m s3 = Threw v s4.
Hypothesis Hconv : converts v s4 = true.

Lemma reached_length : res_of s < length (heap s3).
Proof.
  destruct Hreach as (_ & _ & Hloop).
  pose proof (ev_length _ _
    (evolves_middleware_loop (req_of s) (res_of s) pre 0 VNull false []
       (begun callerReq s))) as Hl.
  rewrite Hloop in Hl. cbn [state_of] in Hl. rewrite length_heap_begun in Hl.
  unfold res_of. lia.
Qed.

Lemma thrown_length : res_of s < length (heap s4).
Proof.
  pose proof reached_length as H3.
  pose proof (ev_length _ _
    (evolves_exec (req_of s) (res_of s) (m (req_of s) (res_of s))
       (entered (length pre) s3))) as Hl.
  unfold run_of in Hthrow. rewrite Hthrow in Hl. cbn [state_of] in Hl.
  change (length (heap (entered (length pre) s3))) with (length (heap s3)) in Hl. lia.
Qed.

(** The middleware phase ends with the request complete, and the response
    holds the coerced value as its error. *)
Lemma phase_of_throw :
  exists e,
    _runAllMiddleware (req_of s) (res_of s) (_middleware eng) (begun callerReq s)
    = Returned (e, true, reverse hs) (caught (req_of s) (res_of s) v s4)
    /\ (e = VNull \/ e = (coerced (req_of s) v s4).1).
Proof.
  destruct Hreach as (_ & Hstack & Hloop).
  destruct (_runMiddleware_of_throw (req_of s) (res_of s) m (length pre) hs s3 v s4
              reached_length Hthrow Hconv) as (e & Hrun & He).
  exists e. split; [|exact He].
  unfold _runAllMiddleware, bind. rewrite Hstack.
  rewrite (middleware_loop_app _ _ _ _ _ _ _ _ _ _ _ _ Hloop).
  rewrite middleware_loop_cons. simpl. by rewrite Hrun.
Qed.

Lemma processRequest_of_throw :
  exists e,
    (e = VNull \/ e = (coerced (req_of s) v s4).1)
    /\ _processRequest eng (req_of s) (res_of s) (begun callerReq s)
       = match _runReturnHandlers (reverse hs) (caught (req_of s) (res_of s) v s4) with
         | Returned _ sU => if truthy e then Threw e sU else Returned tt sU
         | Threw x sU => Threw x sU
         | Pending sU => Pending sU
         end.
Proof.
  destruct phase_of_throw as (e & Hphase & He). exists e. split; [exact He|].
  unfold _processRequest. unfold bind at 1. rewrite Hphase.
  unfold bind at 1. rewrite _checkForCompletion_eq.
  rewrite (has_error_caught _ _ _ _ Hconv thrown_length).
  rewrite andb_false_r. cbn [negb].
  unfold bind.
  destruct (_runReturnHandlers (reverse hs) (caught (req_of s) (res_of s) v s4))
    as [[] sU|x sU|sU]; try done.
  by destruct (truthy e).
Qed.

(** If the unwind settles and leaves the error property alone, the response
    handed to the callback holds the coerced value as its error; apart from
    the response object, the store is as the unwind left it. *)
Lemma response_of_throw L :
  unwind_keeps (res_of s) L (reverse hs) (caught (req_of s) (res_of s) v s4) ->
  exists err s',
    _handle eng callerReq s = Returned (err, res_of s) s'
    /\ get (res_of s) "error" s' = (coerced (req_of s) v s4).1
    /\ (forall l, l <> res_of s ->
          heap s' !! l
          = heap (state_of (_runReturnHandlers (reverse hs)
                              (caught (req_of s) (res_of s) v s4))) !! l).
Proof.
  intros (Hsettles & Hkeeps & _).
  destruct Hreach as (Hvalid & _ & _).
  destruct processRequest_of_throw as (e & He & Hproc).
  rewrite (get_error_caught _ _ _ _ Hconv thrown_length) in Hkeeps.
  rewrite (_handle_valid _ _ _ Hvalid). unfold bind at 1, try_catch, bind at 1.
  rewrite Hproc. clear Hproc.
  set (o := _runReturnHandlers _ _) in *.
  assert (Hfin : forall err sU, state_of o = sU ->
            exists s', finish (res_of s) err sU = Returned (err, res_of s) s'
              /\ get (res_of s) "error" s' = (coerced (req_of s) v s4).1
              /\ (forall l, l <> res_of s -> heap s' !! l = heap sU !! l)).
  { intros err sU <-. destruct (truthy err) eqn:Herr.
    - eexists. split.
      + apply finish_attached; [done|]. rewrite Hkeeps. apply truthy_coerced.
      + split.
        * rewrite get_del_prop_ne by (by right). exact Hkeeps.
        * intros l Hl. by rewrite lookup_del_prop_ne.
    - eexists. split; [by apply finish_falsy|]. by split. }
  destruct o as [[] sU|x sU|sU] eqn:Ho.
  - destruct (truthy e) eqn:Hte.
    + destruct (Hfin e sU eq_refl) as (s' & ? & ? & ?). unfold ret. eauto.
    + destruct (Hfin VNull sU eq_refl) as (s' & ? & ? & ?). unfold ret. eauto.
  - destruct (Hfin x sU eq_refl) as (s' & ? & ? & ?). unfold ret. eauto.
  - by destruct (Hsettles sU).
Qed.

End ThrowScenario.

(** ** The claims on thrown values *)

Section ThrownValues.
Context {tbl : ErrorTable}.

(** C7 (as amended): when a middleware throws a value that is not an
    [Error] instance (such as the string "oops"), and the unwind of the
    handlers collected before it settles without touching the response's
    error, the response handed over has as its error a standardized error
    with the internal code, the message "JsonRpcEngine: Middleware threw
    non-Error value." and the data [{request, thrownValue}], where
    [thrownValue] is the thrown value. *)
Theorem non_error_thrown_is_wrapped eng callerReq s pre m post hs s3 v s4 :
  reaches eng callerReq s pre m post hs s3 ->
  run_of callerReq s pre m s3 = Threw v s4 ->
  instanceof_Error v s4 = false ->
  unwind_keeps (res_of s) [length (heap s4); S (length (heap s4))] (reverse hs)
    (caught (req_of s) (res_of s) v s4) ->
  exists err s',
    _handle eng callerReq s = Returned (err, res_of s) s'
    /\ read_error (get (res_of s) "error" s') s'
       = Some (VNum internal, VStr errorMessages.threwNonError,
               <["request" := VRef (req_of s)]> {["thrownValue" := v]}).
Proof.
  intros Hreach Hthrow Hnot Hkeeps.
  pose proof (thrown_length _ _ _ _ _ _ _ _ _ _ Hreach Hthrow) as Hres.
  pose proof (converts_non_error _ _ Hnot) as Hcv.
  destruct (response_of_throw _ _ _ _ _ _ _ _ _ _ Hreach Hthrow Hcv _ Hkeeps)
    as (err & s' & Hhandle & Herror & Hframe).
  exists err, s'. split; [exact Hhandle|].
  destruct Hkeeps as (_ & _ & HL).
  assert (Hco : coerced (req_of s) v s4
                = (error_in s4,
                   erred (VNum internal) (VStr errorMessages.threwNonError)
                     (<["request" := VRef (req_of s)]> {["thrownValue" := v]}) s4)).
  { unfold coerced. by rewrite Hnot. }
  rewrite Herror, Hco. cbn [fst].
  assert (Hat : forall l, l ∈ [length (heap s4); S (length (heap s4))] ->
            heap s' !! l
            = heap (erred (VNum internal) (VStr errorMessages.threwNonError)
                      (<["request" := VRef (req_of s)]> {["thrownValue" := v]}) s4) !! l).
  { intros l Hl.
    assert (l <> res_of s).
    { apply elem_of_cons in Hl as [->|Hl]; [lia|].
      apply elem_of_cons in Hl as [->|Hl]; [lia|]. by apply elem_of_nil in Hl. }
    rewrite Hframe by done. rewrite (HL l Hl).
    rewrite heap_caught, lookup_set_prop_ne by done. by rewrite Hco. }
  apply read_error_erred_at; [done| |]; apply Hat; set_solver.
Qed.

(** A thrown [EthereumRpcError] is stored as it is in [res.error], and what
    follows leaves it there. *)
Lemma rpc_error_kept eng callerReq s pre m post hs s3 l s4 :
  reaches eng callerReq s pre m post hs s3 ->
  run_of callerReq s pre m s3 = Threw (VRef l) s4 ->
  instanceof_EthereumRpcError (VRef l) s4 = true ->
  unwind_keeps (res_of s) [l] (reverse hs) (caught (req_of s) (res_of s) (VRef l) s4) ->
  exists err s',
    _handle eng callerReq s = Returned (err, res_of s) s'
    /\ get (res_of s) "error" s' = VRef l
    /\ heap s' !! l = heap s4 !! l.
Proof.
  intros Hreach Hthrow Hrpc Hkeeps.
  pose proof (thrown_length _ _ _ _ _ _ _ _ _ _ Hreach Hthrow) as Hres.
  pose proof (converts_rpc _ _ Hrpc) as Hcv.
  destruct (response_of_throw _ _ _ _ _ _ _ _ _ _ Hreach Hthrow Hcv _ Hkeeps)
    as (err & s' & Hhandle & Herror & Hframe).
  exists err, s'. split; [exact Hhandle|].
  destruct Hkeeps as (_ & _ & HL).
  assert (Hco : coerced (req_of s) (VRef l) s4 = (VRef l, s4)).
  { unfold coerced, instanceof_Error. by rewrite Hrpc, orb_true_r. }
  rewrite Hco in Herror. split; [exact Herror|].
  (* the response is a plain object, the thrown value is not *)
  assert (Hcls : cls <$> heap s4 !! res_of s = Some CObject).
  { destruct Hreach as (_ & _ & Hloop).
    pose proof (evolves_middleware_loop (req_of s) (res_of s) pre 0 VNull false []
                  (begun callerReq s)) as E1.
    rewrite Hloop in E1. cbn [state_of] in E1.
    pose proof (evolves_exec (req_of s) (res_of s) (m (req_of s) (res_of s))
                  (entered (length pre) s3)) as E2.
    unfold run_of in Hthrow. rewrite Hthrow in E2. cbn [state_of] in E2.
    assert (Hb : res_of s < length (heap (begun callerReq s))).
    { rewrite length_heap_begun. unfold res_of. lia. }
    rewrite (ev_class _ _ E2).
    - change (heap (entered (length pre) s3)) with (heap s3).
      rewrite (ev_class _ _ E1) by done.
      rewrite heap_begun. unfold res_of. rewrite lookup_app_r by lia.
      by replace (S (length (heap s)) - length (heap s)) with 1 by lia.
    - change (heap (entered (length pre) s3)) with (heap s3).
      pose proof (ev_length _ _ E1). lia. }
  assert (Hne : l <> res_of s).
  { intros ->. unfold instanceof_EthereumRpcError, class_of in Hrpc.
    apply bool_decide_eq_true in Hrpc. congruence. }
  assert (Hl : l < length (heap s4)).
  { unfold instanceof_EthereumRpcError, class_of in Hrpc.
    apply bool_decide_eq_true in Hrpc.
    destruct (heap s4 !! l) eqn:E; [|done]. by apply lookup_lt_Some in E. }
  rewrite Hframe by done. rewrite (HL l) by set_solver.
  by apply lookup_caught_old.
Qed.


(** C4 (as amended): when a middleware throws an instance of the
    standardized error class [EthereumRpcError], and the unwind of the
    handlers collected before it settles without touching the response's
    error or that object, the error of the response handed over is the thrown
    value itself, and the object is as it was thrown. *)
Theorem rpc_error_thrown_passes_through eng callerReq s pre m post hs s3 l s4 :
  reaches eng callerReq s pre m post hs s3 ->
  run_of callerReq s pre m s3 = Threw (VRef l) s4 ->
  instanceof_EthereumRpcError (VRef l) s4 = true ->
  unwind_keeps (res_of s) [l] (reverse hs) (caught (req_of s) (res_of s) (VRef l) s4) ->
  exists err s',
    _handle eng callerReq s = Returned (err, res_of s) s'
    /\ get (res_of s) "error" s' = VRef l
    /\ heap s' !! l = heap s4 !! l.
Proof. apply rpc_error_kept. Qed.

End ThrownValues.

Lemma non_error_thrown_is_wrapped_witness :
  exists err s',
    _handle (tbl := sampleTable) (engineOf [mwCleanup; mwThrowOops]) (VRef 0) state0
    = Returned (err, 2) s'
    /\ read_error (get 2 "error" s') s'
       = Some (VNum (-32603), VStr "JsonRpcEngine: Middleware threw non-Error value.",
               <["request" := VRef 1]> {["thrownValue" := VStr "oops"]}).
Proof.
  pose (s3 := state_of (middleware_loop (tbl := sampleTable) 1 2 [mwCleanup] 0
                          VNull false [] (begun (VRef 0) state0))).
  pose (s4 := state_of (run_of (tbl := sampleTable) (VRef 0) state0
                          [mwCleanup] mwThrowOops s3)).
  apply (non_error_thrown_is_wrapped (tbl := sampleTable)
           (engineOf [mwCleanup; mwThrowOops]) (VRef 0) state0
           [mwCleanup] mwThrowOops [] (cleanupHandlers (tbl := sampleTable)) s3
           (VStr "oops") s4).
  - split; [reflexivity|]. split; [reflexivity|]. vm_compute. reflexivity.
  - vm_compute. reflexivity.
  - reflexivity.
  - split; [|split].
    + intros sP HP. vm_compute in HP. discriminate HP.
    + vm_compute. reflexivity.
    + intros l Hl.
      apply elem_of_cons in Hl as [->|Hl]; [vm_compute; reflexivity|].
      apply elem_of_cons in Hl as [->|Hl]; [vm_compute; reflexivity|].
      by apply elem_of_nil in Hl.
Defined.

(** C7 as stated fails on the message: the error of the response does not
    carry "non-error value thrown". *)
Lemma non_error_thrown_message_differs :
  ~ exists err s' code data,
      _handle (tbl := sampleTable) (engineOf [mwThrowOops]) (VRef 0) state0
      = Returned (err, 2) s'
      /\ read_error (get 2 "error" s') s' = Some (code, VStr "non-error value thrown", data).
Proof.
  intros (err & s' & code & data & Hh & Hread).
  vm_compute in Hh. injection Hh as <- <-.
  vm_compute in Hread. discriminate Hread.
Qed.

Lemma rpc_error_thrown_passes_through_witness :
  exists err s',
    _handle (tbl := sampleTable) (engineOf [mwCleanup; mwThrowRpc]) (VRef 0) state0
    = Returned (err, 2) s'
    /\ get 2 "error" s' = VRef 3
    /\ heap s' !! 3
       = Some (Obj CEthereumRpcError
                 (<["code" := VNum (-32000)]> {["message" := VStr "boom"]})).
Proof.
  pose (s3 := state_of (middleware_loop (tbl := sampleTable) 1 2 [mwCleanup] 0
                          VNull false [] (begun (VRef 0) state0))).
  pose (s4 := state_of (run_of (tbl := sampleTable) (VRef 0) state0
                          [mwCleanup] mwThrowRpc s3)).
  destruct (rpc_error_thrown_passes_through (tbl := sampleTable)
              (engineOf [mwCleanup; mwThrowRpc]) (VRef 0) state0
              [mwCleanup] mwThrowRpc [] (cleanupHandlers (tbl := sampleTable)) s3 3 s4)
    as (err & s' & Hhandle & Hget & Hobj).
  - split; [reflexivity|]. split; [reflexivity|]. vm_compute. reflexivity.
  - vm_compute. reflexivity.
  - reflexivity.
  - split; [|split].
    + intros sP HP. vm_compute in HP. discriminate HP.
    + vm_compute. reflexivity.
    + intros l Hl.
      apply elem_of_cons in Hl as [->|Hl]; [vm_compute; reflexivity|].
      by apply elem_of_nil in Hl.
  - exists err, s'. split; [exact Hhandle|]. split; [exact Hget|].
    rewrite Hobj. reflexivity.
Defined.

(** C4 as stated fails: a thrown plain object that carries a valid code and
    a message is not passed through; the error of the response is another
    object, with the internal code. *)
Lemma plain_object_thrown_is_not_passed_through :
  (exists s4,
     run_of (tbl := sampleTable) (VRef 0) state0 [] mwThrowPlain (begun (VRef 0) state0)
     = Threw (VRef 3) s4
     /\ isValidCode (ErrorTable := sampleTable) (prop_of (VRef 3) "code" s4) = true
     /\ prop_of (VRef 3) "message" s4 = VStr "boom")
  /\ ~ exists err s',
         _handle (tbl := sampleTable) (engineOf [mwThrowPlain]) (VRef 0) state0
         = Returned (err, 2) s'
         /\ get 2 "error" s' = VRef 3.
Proof.
  split.
  - eexists. split; [vm_compute; reflexivity|]. split; reflexivity.
  - intros (err & s' & Hh & Hget).
    vm_compute in Hh. injection Hh as <- <-.
    vm_compute in Hget. discriminate Hget.
Qed.

(** ** Calling [end] with an argument *)

Section EndArgument.
Context {tbl : ErrorTable}.

Lemma end_callback_returned_state req res arg s s' :
  end_callback req res arg s = Returned tt s' ->
  s' = resolve (VNull, true) (set_endCalled true (log (EEnd arg) s)).
Proof.
  rewrite end_callback_eq, _validateEndState_eq.
  repeat (match goal with |- context [if ?b then _ else _] => destruct b end); try done.
  by intros [= <-].
Qed.

Lemma new_calls_same s1 s2 s' : calls s1 = calls s2 -> new_calls s1 s' = new_calls s2 s'.
Proof. unfold new_calls. by intros ->. Qed.

(** If [end] was called with a truthy argument by a script that does not
    catch what [end] throws, the script has thrown a new internal-coded
    error. *)
Lemma exec_end_uncaught {A} req res (p : script A) s arg :
  end_uncaught p ->
  arg ∈ ends (new_calls s (state_of (exec (end_callback req res) p s))) ->
  truthy arg = true ->
  exists s1 message data,
    exec (end_callback req res) p s
    = Threw (error_in s1) (erred (VNum internal) (VStr message) data s1)
    /\ accepts (VNum internal) (VStr message) = true.
Proof.
  revert s.
  induction p as [r|v| |l k IH|l key v k IH|l key k IH|o k IH|arg0 k IH];
    intros s Hun Hin Harg; simpl in *.
  - rewrite new_calls_refl in Hin. by apply elem_of_nil in Hin.
  - rewrite new_calls_refl in Hin. by apply elem_of_nil in Hin.
  - rewrite new_calls_refl in Hin. by apply elem_of_nil in Hin.
  - by apply IH.
  - unfold bind, modify in *. by apply IH.
  - unfold bind, modify in *. by apply IH.
  - unfold bind, new in *. simpl in *. by apply IH.
  - destruct Hun as [Hthrow Hnone].
    pose proof (evolves_end_callback req res arg0 s) as Hev.
    destruct (end_callback req res arg0 s) as [[] s1|e s1|s1] eqn:Hend.
    + pose proof (end_callback_returned _ _ _ _ _ Hend) as Hfalsy.
      pose proof (end_callback_returned_state _ _ _ _ _ Hend) as Hs1.
      cbn [state_of] in Hev.
      rewrite (new_calls_trans s s1) in Hin;
        [|exact Hev|apply (evolves_exec req res (k None) s1)].
      unfold ends in Hin. rewrite omap_app in Hin. apply elem_of_app in Hin as [Hin|Hin].
      * exfalso. unfold new_calls in Hin. rewrite Hs1, calls_resolve in Hin. simpl in Hin.
        rewrite drop_app_length in Hin. simpl in Hin.
        apply elem_of_cons in Hin as [->|Hin]; [congruence|]. by apply elem_of_nil in Hin.
      * by apply IH.
    + rewrite Hthrow. simpl.
      destruct (end_callback_threw _ _ _ _ _ _ Hend) as (message & data & -> & -> & Ha).
      eauto.
    + by destruct (end_callback_not_pending _ _ _ _ _ Hend).
Qed.

Lemma lookup_error_in code message data s :
  accepts code message = true ->
  heap (erred code message data s) !! S (length (heap s))
  = Some (Obj CEthereumRpcError
            (<["code" := code]>
               (<["message" := message]> {["data" := VRef (length (heap s))]}))).
Proof.
  intros Ha. rewrite heap_erred. rewrite lookup_app_r by lia.
  replace (S (length (heap s)) - length (heap s)) with 1 by lia.
  simpl. by rewrite constructed_accepts.
Qed.

(** C8 (as amended): when a middleware calls [end] with a truthy argument
    and lets what [end] throws escape (no [try]/[catch] around the call), and
    the unwind of the handlers collected before it settles without touching
    the response's error or the error thrown, the response handed over holds
    an internal-coded standardized error. *)
Theorem truthy_end_argument_gives_internal_error
    eng callerReq s pre m post hs s3 arg :
  reaches eng callerReq s pre m post hs s3 ->
  end_uncaught (m (req_of s) (res_of s)) ->
  arg ∈ ends (new_calls (entered (length pre) s3)
                (state_of (run_of callerReq s pre m s3))) ->
  truthy arg = true ->
  (forall l s4,
     run_of callerReq s pre m s3 = Threw (VRef l) s4 ->
     unwind_keeps (res_of s) [l] (reverse hs)
       (caught (req_of s) (res_of s) (VRef l) s4)) ->
  exists err s' e ps,
    _handle eng callerReq s = Returned (err, res_of s) s'
    /\ get (res_of s) "error" s' = VRef e
    /\ heap s' !! e = Some (Obj CEthereumRpcError ps)
    /\ ps !! "code" = Some (VNum internal).
Proof.
  intros Hreach Hun Hin Harg Hkeeps.
  destruct (exec_end_uncaught _ _ _ _ _ Hun Hin Harg)
    as (s1 & message & data & Hrun & Ha).
  fold (run_of callerReq s pre m s3) in Hrun.
  destruct (rpc_error_kept _ _ _ _ _ _ _ _ _ _ Hreach Hrun
              (instanceof_erred _ _ _ _ Ha) (Hkeeps _ _ Hrun))
    as (err & s' & Hhandle & Hget & Hobj).
  rewrite lookup_error_in in Hobj by done.
  eexists err, s', (S (length (heap s1))), _.
  split; [exact Hhandle|]. split; [exact Hget|]. split; [exact Hobj|reflexivity].
Qed.

End EndArgument.

Lemma truthy_end_argument_gives_internal_error_witness :
  exists err s',
    _handle (tbl := sampleTable) (engineOf [mwCleanup; mwEndTruthy]) (VRef 0) state0
    = Returned (err, 2) s'
    /\ prop_of (get 2 "error" s') "code" s' = VNum (-32603).
Proof.
  pose (s3 := state_of (middleware_loop (tbl := sampleTable) 1 2 [mwCleanup] 0
                          VNull false [] (begun (VRef 0) state0))).
  pose (o := run_of (tbl := sampleTable) (VRef 0) state0 [mwCleanup] mwEndTruthy s3).
  destruct (truthy_end_argument_gives_internal_error (tbl := sampleTable)
              (engineOf [mwCleanup; mwEndTruthy]) (VRef 0) state0
              [mwCleanup] mwEndTruthy [] (cleanupHandlers (tbl := sampleTable)) s3 (VNum 1))
    as (err & s' & e & ps & Hhandle & Hget & Hobj & Hcode).
  - split; [reflexivity|]. split; [reflexivity|]. vm_compute. reflexivity.
  - split; [reflexivity|exact I].
  - vm_compute. apply list_elem_of_here.
  - reflexivity.
  - intros l s4 Hrun.
    assert (Ho : o = Threw (VRef 4) (state_of o)) by (vm_compute; reflexivity).
    fold o in Hrun. rewrite Ho in Hrun. injection Hrun as <- <-.
    split; [|split].
    + intros sP HP. vm_compute in HP. discriminate HP.
    + vm_compute. reflexivity.
    + intros l Hl.
      apply elem_of_cons in Hl as [->|Hl]; [vm_compute; reflexivity|].
      by apply elem_of_nil in Hl.
  - exists err, s'. split; [exact Hhandle|].
    change (res_of state0) with 2 in Hget.
    rewrite Hget. unfold prop_of, get. rewrite Hobj. simpl. by rewrite Hcode.
Defined.

(** C8 as stated fails: the middleware calls [end(1)], catches what
    [end] throws, sets a result and calls [end()]; the response has the
    result and no error. *)
Lemma truthy_end_argument_caught_leaves_no_error :
  exists s',
    _handle (tbl := sampleTable) (engineOf [mwEndCaught]) (VRef 0) state0
    = Returned (VNull, 2) s'
    /\ VNum 1 ∈ ends (new_calls state0 s')
    /\ has 2 "error" s' = false
    /\ get 2 "result" s' = VNum 42.
Proof.
  eexists. split; [vm_compute; reflexivity|].
  split; [vm_compute; apply list_elem_of_here|]. split; reflexivity.
Qed.

(** ** The trace: what is collected, what is run *)

Section Trace.
Context {tbl : ErrorTable}.

Lemma new_calls_same_calls s s' : calls s' = calls s -> new_calls s s' = [].
Proof. unfold new_calls. intros ->. apply drop_all. Qed.

Lemma quiet_refl s : quiet s s.
Proof. split; [apply evolves_refl|]. by rewrite new_calls_refl. Qed.

Lemma quiet_trans s1 s2 s3 : quiet s1 s2 -> quiet s2 s3 -> quiet s1 s3.
Proof.
  intros (E1 & C1 & R1) (E2 & C2 & R2). split; [by eapply evolves_trans|].
  rewrite (new_calls_trans _ _ _ E1 E2). unfold collects, runs in *.
  rewrite !omap_app. by rewrite C1, C2, R1, R2.
Qed.

Lemma quiet_same_calls s s' : evolves s s' -> calls s' = calls s -> quiet s s'.
Proof. intros E Hc. split; [done|]. by rewrite (new_calls_same_calls _ _ Hc). Qed.

Lemma quiet_set_prop l key v s : quiet s (set_prop l key v s).
Proof. apply quiet_same_calls; [apply evolves_set_prop|done]. Qed.

Lemma quiet_del_prop l key s : quiet s (del_prop l key s).
Proof. apply quiet_same_calls; [apply evolves_del_prop|done]. Qed.

Lemma quiet_alloc o s : quiet s (alloc o s).2.
Proof. apply quiet_same_calls; [apply evolves_alloc|done]. Qed.

Lemma quiet_erred code message data s : quiet s (erred code message data s).
Proof. apply quiet_same_calls; [apply evolves_erred|apply calls_erred]. Qed.

Lemma quiet_resolve d s : quiet s (resolve d s).
Proof. apply quiet_same_calls; [apply evolves_resolve|apply calls_resolve]. Qed.

Lemma quiet_caught req res v s : quiet s (caught req res v s).
Proof. apply quiet_same_calls; [apply evolves_caught|apply calls_caught]. Qed.

Lemma quiet_end_callback req res arg : preserves quiet (end_callback req res arg).
Proof.
  intros s. rewrite end_callback_eq, _validateEndState_eq.
  assert (Hlog : quiet s (log (EEnd arg) s)).
  { split; [apply evolves_log|]. by rewrite new_calls_log. }
  repeat (match goal with |- context [if ?b then _ else _] => destruct b end);
    cbn [state_of].
  - eapply quiet_trans; [exact Hlog|apply quiet_erred].
  - eapply quiet_trans; [exact Hlog|apply quiet_erred].
  - eapply quiet_trans; [exact Hlog|apply quiet_erred].
  - eapply quiet_trans; [exact Hlog|]. eapply quiet_trans; [|apply quiet_resolve].
    by apply quiet_same_calls.
Qed.

Lemma quiet_exec {A} req res (p : script A) :
  preserves quiet (exec (end_callback req res) p).
Proof.
  apply (preserves_exec quiet quiet_refl quiet_trans quiet_set_prop quiet_del_prop
           quiet_alloc).
  apply quiet_end_callback.
Qed.

Lemma quiet_closure req res c : closure_of req res c -> preserves quiet c.2.
Proof. intros [h ->]. apply quiet_exec. Qed.

Lemma quiet_entered i s :
  evolves s (entered i s) /\ new_calls s (entered i s) = [ECall i].
Proof.
  split.
  - unfold entered. eapply evolves_trans; [apply evolves_set_deferred|].
    eapply evolves_trans; [apply evolves_set_endCalled|apply evolves_log].
  - unfold new_calls, entered. simpl. by rewrite drop_app_length.
Qed.

(** What one run of [_runMiddleware] does to the list of handlers and to
    the trace: at most the handler of the middleware is added. *)
Lemma _runMiddleware_trace req res m i hs s :
  Forall (closure_of req res) hs ->
  match _runMiddleware req res m i hs s with
  | Returned (e, c, hs') s' =>
      Forall (closure_of req res) hs'
      /\ evolves s s'
      /\ runs (new_calls s s') = []
      /\ hs'.*1 = hs.*1 ++ collects (new_calls s s')
      /\ collects (new_calls s s') `sublist_of` [i]
  | _ => True
  end.
Proof.
  intros Hhs.
  destruct (quiet_entered i s) as [Een Hen].
  pose proof (quiet_exec req res (m req res) (entered i s)) as Hq.
  assert (Hdone : forall s1 s',
            state_of (exec (end_callback req res) (m req res) (entered i s)) = s1 ->
            quiet s1 s' ->
            match awaited hs s' with
            | Returned (e, c, hs') s'' =>
                Forall (closure_of req res) hs'
                /\ evolves s s''
                /\ runs (new_calls s s'') = []
                /\ hs'.*1 = hs.*1 ++ collects (new_calls s s'')
                /\ collects (new_calls s s'') `sublist_of` [i]
            | _ => True
            end).
  { intros s1 s' <- Hq'. rewrite awaited_eq. destruct (deferred s') as [[e c]|]; [|done].
    destruct (quiet_trans _ _ _ Hq Hq') as (E & C & R).
    split; [done|]. split; [by eapply evolves_trans|].
    rewrite (new_calls_trans _ _ _ Een E), Hen. unfold runs, collects in *.
    rewrite !omap_app. simpl. rewrite C, R, app_nil_r. split_and!; try done.
    apply sublist_nil_l. }
  destruct (exec (end_callback req res) (m req res) (entered i s))
    as [r s1|v s1|s1] eqn:He.
  - rewrite (_runMiddleware_returned _ _ _ _ _ _ _ _ He).
    destruct (endCalled s1).
    { apply (Hdone s1); [done|apply quiet_refl]. }
    destruct (truthy (get res "error" s1)).
    { apply (Hdone s1); [done|].
      eapply quiet_trans; [apply quiet_erred|apply quiet_caught]. }
    destruct r as [v|h].
    + destruct (truthy v).
      * apply (Hdone s1); [done|].
        eapply quiet_trans; [apply quiet_erred|apply quiet_caught].
      * apply (Hdone s1); [done|apply quiet_resolve].
    + rewrite awaited_eq, deferred_resolve. cbn [state_of] in Hq.
      destruct Hq as (E & C & R).
      assert (E' : evolves s1 (resolve (VNull, false) (log (ECollect i) s1))).
      { eapply evolves_trans; [apply evolves_log|apply evolves_resolve]. }
      assert (N' : new_calls s1 (resolve (VNull, false) (log (ECollect i) s1))
                   = [ECollect i]).
      { unfold new_calls. rewrite calls_resolve. simpl. by rewrite drop_app_length. }
      destruct (default (VNull, false) (deferred (log (ECollect i) s1))) as [e' c'].
      split.
      { apply Forall_app. split; [done|]. apply Forall_singleton. by exists h. }
      split; [eapply evolves_trans; [exact Een|by eapply evolves_trans]|].
      rewrite (new_calls_trans s (entered i s)), Hen;
        [|exact Een|by eapply evolves_trans].
      rewrite (new_calls_trans _ _ _ E E'), N'. unfold runs, collects in *.
      rewrite !omap_app. simpl. rewrite C, R. simpl.
      rewrite fmap_app. by split_and!.
  - destruct (converts v s1) eqn:Hcv.
    + rewrite (_runMiddleware_threw _ _ _ _ _ _ _ _ He Hcv).
      apply (Hdone s1); [done|apply quiet_caught].
    + by rewrite (_runMiddleware_refused _ _ _ _ _ _ _ _ He Hcv).
  - by rewrite (_runMiddleware_pending _ _ _ _ _ _ _ He).
Qed.

Lemma middleware_loop_trace req res stack i e c hs s :
  Forall (closure_of req res) hs ->
  match middleware_loop req res stack i e c hs s with
  | Returned (e', c', hs') s' =>
      Forall (closure_of req res) hs'
      /\ evolves s s'
      /\ runs (new_calls s s') = []
      /\ hs'.*1 = hs.*1 ++ collects (new_calls s s')
      /\ collects (new_calls s s') `sublist_of` seq i (length stack)
  | _ => True
  end.
Proof.
  revert i e c hs s. induction stack as [|m stack IH]; intros i e c hs s Hhs.
  - simpl. rewrite new_calls_refl. simpl. rewrite app_nil_r.
    split_and!; done.
  - rewrite middleware_loop_cons.
    pose proof (_runMiddleware_trace req res m i hs s Hhs) as Hm.
    destruct (_runMiddleware req res m i hs s) as [[[e1 c1] hs1] s1|v s1|s1]; try done.
    destruct Hm as (F1 & E1 & R1 & M1 & S1).
    destruct c1.
    + split_and!; try done. simpl.
      change (i :: seq (S i) (length stack)) with ([i] ++ seq (S i) (length stack)).
      by apply sublist_inserts_r.
    + specialize (IH (S i) e1 false hs1 s1 F1).
      destruct (middleware_loop req res stack (S i) e1 false hs1 s1)
        as [[[e2 c2] hs2] s2|v s2|s2]; try done.
      destruct IH as (F2 & E2 & R2 & M2 & S2).
      split; [done|]. split; [by eapply evolves_trans|].
      rewrite (new_calls_trans _ _ _ E1 E2). unfold runs, collects in *.
      rewrite !omap_app. rewrite R1, R2, M2, M1. rewrite <- (assoc_L (++)).
      split_and!; try done. simpl.
      change (i :: seq (S i) (length stack)) with ([i] ++ seq (S i) (length stack)).
      by apply sublist_app.
Qed.




End Trace.

(** ** The unwind *)

Section Unwind.
Context {tbl : ErrorTable}.

Lemma collects_app t1 t2 : collects (t1 ++ t2) = collects t1 ++ collects t2.
Proof. apply omap_app. Qed.

Lemma runs_app t1 t2 : runs (t1 ++ t2) = runs t1 ++ runs t2.
Proof. apply omap_app. Qed.

Lemma collects_cons_run i t : collects (ERun i :: t) = collects t.
Proof. reflexivity. Qed.

Lemma runs_cons_run i t : runs (ERun i :: t) = i :: runs t.
Proof. reflexivity. Qed.

Lemma _runReturnHandlers_cons i c rest s :
  _runReturnHandlers ((i, c) :: rest) s
  = match c (log (ERun i) s) with
    | Returned _ s' => _runReturnHandlers rest s'
    | Threw v s' => Threw v s'
    | Pending s' => Pending s'
    end.
Proof. reflexivity. Qed.

Lemma _runReturnHandlers_app before after s :
  _runReturnHandlers (before ++ after) s
  = match _runReturnHandlers before s with
    | Returned _ s' => _runReturnHandlers after s'
    | Threw v s' => Threw v s'
    | Pending s' => Pending s'
    end.
Proof.
  revert s. induction before as [|[i c] before IH]; intros s; [done|].
  rewrite <- app_comm_cons, !_runReturnHandlers_cons.
  by destruct (c (log (ERun i) s)).
Qed.


(** The handlers are invoked in the order of the list, one after the other,
    up to the first that does not return. *)
Lemma _runReturnHandlers_trace req res hs s :
  Forall (closure_of req res) hs ->
  evolves s (state_of (_runReturnHandlers hs s))
  /\ collects (new_calls s (state_of (_runReturnHandlers hs s))) = []
  /\ runs (new_calls s (state_of (_runReturnHandlers hs s))) `prefix_of` hs.*1
  /\ (forall sU, _runReturnHandlers hs s = Returned tt sU ->
                 runs (new_calls s sU) = hs.*1).
Proof.
  intros Hhs. revert s. induction Hhs as [|[i c] hs Hc Hhs IH]; intros s.
  - simpl. rewrite new_calls_refl. split; [apply evolves_refl|]. split; [done|].
    split; [apply prefix_nil|]. intros sU [= <-]. by rewrite new_calls_refl.
  - rewrite _runReturnHandlers_cons.
    pose proof (quiet_closure _ _ _ Hc (log (ERun i) s)) as (E & C & R).
    cbn [snd] in E, C, R.
    assert (E0 : evolves s (log (ERun i) s)) by apply evolves_log.
    assert (N0 : new_calls s (log (ERun i) s) = [ERun i]) by apply new_calls_log.
    destruct (c (log (ERun i) s)) as [[] s1|v s1|s1] eqn:Hrun; cbn [state_of] in *.
    + destruct (IH s1) as (E1 & C1 & P1 & A1).
      assert (E' : evolves s s1) by (by eapply evolves_trans).
      assert (N' : new_calls s (state_of (_runReturnHandlers hs s1))
                   = ERun i :: new_calls (log (ERun i) s) s1
                     ++ new_calls s1 (state_of (_runReturnHandlers hs s1))).
      { rewrite (new_calls_trans s s1) by done.
        by rewrite (new_calls_trans s (log (ERun i) s) s1), N0 by done. }
      split_and!.
      * by eapply evolves_trans.
      * by rewrite N', collects_cons_run, collects_app, C, C1.
      * rewrite N', runs_cons_run, runs_app, R. simpl. by apply prefix_cons.
      * intros sU HsU. rewrite HsU in N'. cbn [state_of] in N'.
        rewrite N', runs_cons_run, runs_app, R. simpl. f_equal. by apply A1.
    + assert (N' : new_calls s s1 = ERun i :: new_calls (log (ERun i) s) s1).
      { by rewrite (new_calls_trans s (log (ERun i) s) s1), N0 by done. }
      split_and!; try done.
      * by eapply evolves_trans.
      * by rewrite N', collects_cons_run, C.
      * rewrite N', runs_cons_run, R. apply prefix_cons, prefix_nil.
    + assert (N' : new_calls s s1 = ERun i :: new_calls (log (ERun i) s) s1).
      { by rewrite (new_calls_trans s (log (ERun i) s) s1), N0 by done. }
      split_and!; try done.
      * by eapply evolves_trans.
      * by rewrite N', collects_cons_run, C.
      * rewrite N', runs_cons_run, R. apply prefix_cons, prefix_nil.
Qed.

(** A handler that throws ends the unwind with what it threw. *)
Lemma _runReturnHandlers_threw req res before i c after s sB v sT :
  Forall (closure_of req res) (before ++ (i, c) :: after) ->
  _runReturnHandlers before s = Returned tt sB ->
  c (log (ERun i) sB) = Threw v sT ->
  _runReturnHandlers (before ++ (i, c) :: after) s = Threw v sT
  /\ evolves s sT
  /\ collects (new_calls s sT) = []
  /\ runs (new_calls s sT) = before.*1 ++ [i].
Proof.
  intros Hhs Hbefore Hthrow.
  apply Forall_app in Hhs as [Hb Hrest]. apply Forall_cons in Hrest as [Hc _].
  rewrite _runReturnHandlers_app, Hbefore, _runReturnHandlers_cons, Hthrow.
  split; [done|].
  destruct (_runReturnHandlers_trace req res before s Hb) as (E1 & C1 & _ & A1).
  rewrite Hbefore in E1, C1. cbn [state_of] in E1, C1. specialize (A1 sB Hbefore).
  pose proof (quiet_closure _ _ _ Hc (log (ERun i) sB)) as (E2 & C2 & R2).
  cbn [snd] in E2, C2, R2. rewrite Hthrow in E2, C2, R2. cbn [state_of] in E2, C2, R2.
  assert (E' : evolves sB sT).
  { eapply evolves_trans; [apply evolves_log|exact E2]. }
  assert (N' : new_calls sB sT = ERun i :: new_calls (log (ERun i) sB) sT).
  { rewrite (new_calls_trans sB (log (ERun i) sB) sT), new_calls_log;
      [done|apply evolves_log|done]. }
  split; [by eapply evolves_trans|].
  rewrite (new_calls_trans s sB sT), N' by done.
  by rewrite collects_app, runs_app, collects_cons_run, runs_cons_run, C1, C2, R2, A1.
Qed.

End Unwind.

(** ** From the middleware phase to the callback *)

Section Phase.
Context {tbl : ErrorTable}.
Variables (eng : JsonRpcEngine) (callerReq : value) (s : state).
Variables (err : value) (hs : list collected) (sC : state).

Hypothesis Hvalid : valid_request callerReq s = true.
Hypothesis Hphase :
  _runAllMiddleware (req_of s) (res_of s) (_middleware eng) (begun callerReq s)
  = Returned (err, true, hs) sC.
Hypothesis Hcheck : has (res_of s) "result" sC || has (res_of s) "error" sC = true.

Lemma _processRequest_of_phase :
  _processRequest eng (req_of s) (res_of s) (begun callerReq s)
  = match _runReturnHandlers hs sC with
    | Returned _ sU => if truthy err then Threw err sU else Returned tt sU
    | Threw x sU => Threw x sU
    | Pending sU => Pending sU
    end.
Proof.
  unfold _processRequest. unfold bind at 1. rewrite Hphase.
  unfold bind at 1. rewrite _checkForCompletion_eq.
  apply orb_true_iff in Hcheck.
  replace (negb (has (res_of s) "result" sC) && negb (has (res_of s) "error" sC))
    with false by (destruct Hcheck as [-> | ->]; by rewrite ?andb_false_r).
  cbn [negb]. unfold bind.
  destruct (_runReturnHandlers hs sC) as [[] sU|x sU|sU]; try done.
  by destruct (truthy err).
Qed.

Lemma _handle_of_phase :
  _handle eng callerReq s
  = match _runReturnHandlers hs sC with
    | Returned _ sU => finish (res_of s) (if truthy err then err else VNull) sU
    | Threw x sU => finish (res_of s) x sU
    | Pending sU => Pending sU
    end.
Proof.
  rewrite (_handle_valid _ _ _ Hvalid). unfold bind at 1, try_catch, bind at 1.
  rewrite _processRequest_of_phase.
  destruct (_runReturnHandlers hs sC) as [[] sU|x sU|sU]; try done.
  by destruct (truthy err).
Qed.

(** The handlers on the list are the handlers collected, last first, each
    from a different middleware. *)
Lemma phase_trace :
  Forall (closure_of (req_of s) (res_of s)) hs
  /\ evolves (begun callerReq s) sC
  /\ runs (new_calls (begun callerReq s) sC) = []
  /\ hs.*1 = reverse (collects (new_calls (begun callerReq s) sC))
  /\ NoDup (collects (new_calls (begun callerReq s) sC)).
Proof.
  unfold _runAllMiddleware, bind in Hphase.
  pose proof (middleware_loop_trace (req_of s) (res_of s) (_middleware eng) 0 VNull false []
                (begun callerReq s) (Forall_nil_2 _)) as Hloop.
  destruct (middleware_loop (req_of s) (res_of s) (_middleware eng) 0 VNull false []
              (begun callerReq s)) as [[[e c] hs0] s0|v s0|s0]; try done.
  injection Hphase as -> -> <- ->.
  destruct Hloop as (F & E & R & M & S). simpl in M.
  split_and!; try done.
  - by apply Forall_reverse.
  - by rewrite fmap_reverse, M.
  - eapply sublist_NoDup; [apply NoDup_seq|exact S].
Qed.

Lemma calls_finish res error s0 s' a :
  finish res error s0 = Returned a s' -> calls s' = calls s0.
Proof.
  destruct (finish_frame res error s0) as (s'' & Hfin & _ & Hcalls).
  rewrite Hfin. by intros [= _ <-].
Qed.

Lemma new_calls_handle :
  new_calls s (state_of (_handle eng callerReq s))
  = new_calls (begun callerReq s) sC
    ++ new_calls sC (state_of (_runReturnHandlers hs sC)).
Proof.
  destruct phase_trace as (F & E & _).
  destruct (_runReturnHandlers_trace _ _ hs sC F) as (EU & _).
  rewrite <- (new_calls_trans _ _ _ E EU).
  rewrite <- (new_calls_same (begun callerReq s) s) by apply calls_begun.
  unfold new_calls at 1 2. f_equal.
  rewrite _handle_of_phase.
  destruct (_runReturnHandlers hs sC) as [[] sU|x sU|sU]; cbn [state_of]; try done.
  - destruct (finish_frame (res_of s) (if truthy err then err else VNull) sU)
      as (s' & -> & _ & Hc). done.
  - destruct (finish_frame (res_of s) x sU) as (s' & -> & _ & Hc). done.
Qed.

End Phase.

(** ** The claims on the unwind *)

Section UnwindClaims.
Context {tbl : ErrorTable}.


(** C6 (as amended): when a cleanup handler throws during the unwind, the
    handlers after it on the list (registered earlier) are not invoked; what
    it threw leaves [_runReturnHandlers] and [_processRequest] as it is, not
    coerced.  [_handle] catches it and passes it to the callback; if it is
    truthy, the response loses its result and, when it has no error yet,
    gets the serialized value as its error. *)
Theorem handler_throw_aborts_unwind
    eng callerReq s err hs sC before i h after sB v sT :
  valid_request callerReq s = true ->
  _runAllMiddleware (req_of s) (res_of s) (_middleware eng) (begun callerReq s)
  = Returned (err, true, hs) sC ->
  has (res_of s) "result" sC || has (res_of s) "error" sC = true ->
  hs = before ++ (i, h) :: after ->
  _runReturnHandlers before sC = Returned tt sB ->
  h (log (ERun i) sB) = Threw v sT ->
  _runReturnHandlers hs sC = Threw v sT
  /\ _processRequest eng (req_of s) (res_of s) (begun callerReq s) = Threw v sT
  /\ exists s',
       _handle eng callerReq s = Returned (v, res_of s) s'
       /\ runs (new_calls s s') = before.*1 ++ [i]
       /\ (forall j, j ∈ after.*1 -> j ∉ runs (new_calls s s'))
       /\ (truthy v = true ->
           has (res_of s) "result" s' = false
           /\ has (res_of s) "error" s' = true
           /\ (truthy (get (res_of s) "error" sT) = false ->
               deref (get (res_of s) "error" s') s'
               = Some (serializeError (heap (del_prop (res_of s) "result" sT)) v))).
Proof.
  intros Hvalid Hphase Hcheck Hhs Hbefore Hthrow.
  destruct (phase_trace _ _ _ _ _ _ Hphase) as (F & E & R & M & N).
  rewrite Hhs in F.
  destruct (_runReturnHandlers_threw _ _ _ _ _ _ _ _ _ _ F Hbefore Hthrow)
    as (Hunwind & EU & CU & RU).
  rewrite <- Hhs in Hunwind.
  split; [exact Hunwind|].
  split.
  { rewrite (_processRequest_of_phase _ _ _ _ _ _ Hphase Hcheck). by rewrite Hunwind. }
  pose proof (new_calls_handle _ _ _ _ _ _ Hvalid Hphase Hcheck) as Hcalls.
  rewrite (_handle_of_phase _ _ _ _ _ _ Hvalid Hphase Hcheck) in Hcalls |- *.
  rewrite Hunwind in Hcalls |- *. cbn [state_of] in Hcalls.
  assert (HresT : res_of s < length (heap sT)).
  { pose proof (ev_length _ _ E). pose proof (ev_length _ _ EU).
    rewrite length_heap_begun in *. unfold res_of. lia. }
  assert (Hruns : forall s', finish (res_of s) v sT = Returned (v, res_of s) s' ->
            runs (new_calls s s') = before.*1 ++ [i]).
  { intros s' Hfin. rewrite Hfin in Hcalls. cbn [state_of] in Hcalls.
    by rewrite Hcalls, runs_app, R, RU. }
  assert (Hafter : forall j, j ∈ after.*1 -> j ∉ before.*1 ++ [i]).
  { intros j Hj Hin.
    assert (Hnd : NoDup hs.*1) by (by rewrite M, reverse_Permutation).
    rewrite Hhs, fmap_app, fmap_cons in Hnd. cbn [fst] in Hnd.
    apply NoDup_app in Hnd as (_ & Hdisj & Hnd2).
    apply NoDup_cons in Hnd2 as (Hi & _).
    apply elem_of_app in Hin as [Hin|Hin].
    - apply (Hdisj j Hin). by apply list_elem_of_further.
    - apply list_elem_of_singleton in Hin as ->. done. }
  destruct (truthy v) eqn:Hv.
  - destruct (truthy (get (res_of s) "error" sT)) eqn:Hr.
    + eexists. split; [by apply finish_attached|].
      split; [apply Hruns; by apply finish_attached|].
      split; [intros j Hj; rewrite Hruns by (by apply finish_attached); by apply Hafter|].
      intros _. split; [apply has_del_prop_eq|]. split; [|done].
      rewrite has_del_prop_ne by (by right). by apply has_get_truthy.
    + eexists. split; [by apply finish_serialized|].
      split; [apply Hruns; by apply finish_serialized|].
      split; [intros j Hj; rewrite Hruns by (by apply finish_serialized); by apply Hafter|].
      intros _. split; [|split].
      * rewrite has_set_prop_ne by (by right). unfold has. simpl.
        rewrite lookup_app_l by (by rewrite length_alter).
        apply (has_del_prop_eq (res_of s) "result" sT).
      * apply has_set_prop_eq. simpl. rewrite length_app, length_alter. lia.
      * intros _. rewrite get_set_prop_eq
          by (simpl; rewrite length_app, length_alter; lia).
        unfold deref. simpl. rewrite list_lookup_alter_ne by lia.
        rewrite <- (length_alter
                      (fun o => Obj (cls o) (delete "result" (props o))) (heap sT) (res_of s)).
        by rewrite list_lookup_middle.
  - eexists. split; [by apply finish_falsy|].
    split; [apply Hruns; by apply finish_falsy|].
    split; [intros j Hj; rewrite Hruns by (by apply finish_falsy); by apply Hafter|].
    done.
Qed.

End UnwindClaims.



Lemma handler_throw_aborts_unwind_witness :
  exists s',
    _handle (tbl := sampleTable)
      (engineOf [mwCleanup; mwFailingCleanup; mwOk]) (VRef 0) state0
    = Returned (VStr "cleanup failed", 2) s'
    /\ runs (new_calls state0 s') = [1]
    /\ 0 ∉ runs (new_calls state0 s').
Proof.
  pose (sC := state_of (_runAllMiddleware (tbl := sampleTable) 1 2
                          [mwCleanup; mwFailingCleanup; mwOk] (begun (VRef 0) state0))).
  pose (sT := state_of (failingHandler (tbl := sampleTable) (log (ERun 1) sC))).
  destruct (handler_throw_aborts_unwind (tbl := sampleTable)
              (engineOf [mwCleanup; mwFailingCleanup; mwOk]) (VRef 0) state0 VNull
              [(1, failingHandler (tbl := sampleTable));
               (0, cleanupHandler (tbl := sampleTable))]
              sC [] 1 (failingHandler (tbl := sampleTable))
              [(0, cleanupHandler (tbl := sampleTable))] sC (VStr "cleanup failed") sT)
    as (_ & _ & s' & Hhandle & Hruns & Hafter & _).
  - reflexivity.
  - vm_compute. reflexivity.
  - reflexivity.
  - reflexivity.
  - reflexivity.
  - vm_compute. reflexivity.
  - exists s'. split; [exact Hhandle|]. split; [exact Hruns|].
    apply Hafter. apply list_elem_of_here.
Defined.

(** C6 as stated fails on its last part: what the handler threw does not
    escape [_handle], and the engine does turn it into a standardized error:
    the response loses its result and gets the serialized value as error. *)
Lemma handler_error_is_serialized :
  exists s',
    _handle (tbl := sampleTable) (engineOf [mwFailingCleanup; mwOk]) (VRef 0) state0
    = Returned (VStr "cleanup failed", 2) s'
    /\ has 2 "result" s' = false
    /\ deref (get 2 "error" s') s'
       = Some (serializeError (ErrorTable := sampleTable) [] (VStr "cleanup failed")).
Proof.
  eexists. split; [vm_compute; reflexivity|]. split; reflexivity.
Qed.

(** ** Settling *)

Section Settling.
Context {tbl : ErrorTable}.



Lemma awaited_resolved hs s :
  is_Some (deferred s) -> exists d, awaited hs s = Returned (d, hs) s.
Proof. intros [d Hd]. exists d. by rewrite awaited_eq, Hd. Qed.

Lemma deferred_caught_some req res v s :
  converts v s = true -> is_Some (deferred (caught req res v s)).
Proof. intros Hc. rewrite caught_coerced by done. simpl. rewrite deferred_resolve. eauto. Qed.

(** What the [catch] block throws is the [Error] of the constructor. *)
Lemma refused_class req res v s :
  converts v s = false -> class_of (error_in s) (caught req res v s) = Some CError.
Proof.
  intros Hc. rewrite caught_refused by done. unfold converts in Hc. unfold coerced.
  destruct (instanceof_Error v s); [|done].
  destruct (instanceof_EthereumRpcError v s); [done|].
  cbn [negb orb snd] in *. unfold class_of, error_in. rewrite heap_erred.
  rewrite lookup_app_r by lia. replace (S (length (heap s)) - length (heap s)) with 1 by lia.
  simpl. by rewrite constructed_refused.
Qed.

(** [_runMiddleware] throws nothing but the [Error] of the constructor; it
    settles when the middleware does. *)
Lemma _runMiddleware_outcome req res m i hs s :
  match _runMiddleware req res m i hs s with
  | Returned (e, c, hs') s' => True
  | Threw v s' => class_of v s' = Some CError
  | Pending _ => ~ no_pending (exec (end_callback req res) (m req res) (entered i s))
  end.
Proof.
  pose proof (cell_ok_exec req res (m req res) (entered i s) (cell_ok_entered i s)) as Hc.
  assert (Hok : forall hs' s',
            is_Some (deferred s') ->
            match awaited hs' s' with
            | Returned (e, c, hs'') s'' => True
            | Threw v s'' => class_of v s'' = Some CError
            | Pending _ =>
                ~ no_pending (exec (end_callback req res) (m req res) (entered i s))
            end).
  { intros hs' s' Hd. destruct (awaited_resolved hs' s' Hd) as [[e c] ->]. done. }
  destruct (exec (end_callback req res) (m req res) (entered i s))
    as [r s1|v s1|s1] eqn:He; cbn [state_of] in Hc.
  - rewrite (_runMiddleware_returned _ _ _ _ _ _ _ _ He).
    destruct (endCalled s1) eqn:Hcalled.
    { apply Hok. destruct Hc as [[? _]|[_ ->]]; [congruence|eauto]. }
    destruct (truthy (get res "error" s1));
      [by apply Hok, deferred_caught_some, converts_erred|].
    destruct r as [v|h].
    + destruct (truthy v); [by apply Hok, deferred_caught_some, converts_erred|].
      apply Hok. rewrite deferred_resolve. eauto.
    + apply Hok. rewrite deferred_resolve. eauto.
  - destruct (converts v s1) eqn:Hcv.
    + rewrite (_runMiddleware_threw _ _ _ _ _ _ _ _ He Hcv).
      by apply Hok, deferred_caught_some.
    + rewrite (_runMiddleware_refused _ _ _ _ _ _ _ _ He Hcv). by apply refused_class.
  - rewrite (_runMiddleware_pending _ _ _ _ _ _ _ He). by intros [].
Qed.


Lemma middleware_loop_outcome req res stack i e c hs s :
  match middleware_loop req res stack i e c hs s with
  | Threw v s' => class_of v s' = Some CError
  | _ => True
  end.
Proof.
  revert i e c hs s. induction stack as [|m stack IH]; intros i e c hs s; [done|].
  rewrite middleware_loop_cons.
  pose proof (_runMiddleware_outcome req res m i hs s) as Ho.
  destruct (_runMiddleware req res m i hs s) as [[[e1 c1] hs1] s1|v s1|s1]; try done.
  destruct c1; [done|apply IH].
Qed.





End Settling.

(** ** What [_handle] hands to the callback *)

Section Callback.
Context {tbl : ErrorTable}.

Lemma evolves_runAllMiddleware req res stack s :
  match _runAllMiddleware req res stack s with
  | Returned (e, c, hs) s' => Forall (closure_of req res) hs /\ evolves s s'
  | Threw v s' => class_of v s' = Some CError
  | Pending _ => True
  end.
Proof.
  unfold _runAllMiddleware, bind.
  pose proof (middleware_loop_trace req res stack 0 VNull false [] s (Forall_nil_2 _)) as Ht.
  pose proof (middleware_loop_outcome req res stack 0 VNull false [] s) as Ho.
  destruct (middleware_loop req res stack 0 VNull false [] s)
    as [[[e c] hs] s1|v s1|s1]; try done.
  destruct Ht as (F & E & _). split; [by apply Forall_reverse|done].
Qed.


(** An invalid request is answered at once, with an error. *)
Lemma _handle_invalid eng callerReq s :
  valid_request callerReq s = false ->
  exists e res s',
    _handle eng callerReq s = Returned (e, res) s'
    /\ truthy e = true
    /\ has res "error" s' = true
    /\ has res "result" s' = false
    /\ calls s' = calls s.
Proof.
  intros Hinvalid. unfold _handle. unfold bind at 1, reads at 1.
  destruct (negb (truthy callerReq) || isArray callerReq s
            || negb (String.eqb (typeof callerReq) "object")) eqn:Hfirst.
  - unfold bind at 1. rewrite new_EthereumRpcError_eq by done. unfold bind, new, ret. simpl.
    do 3 eexists. split; [reflexivity|]. split; [done|].
    unfold has. simpl. rewrite list_lookup_middle by done. simpl. by split.
  - unfold bind at 1, reads at 1.
    assert (Hmethod : String.eqb (typeof (prop_of callerReq "method" s)) "string" = false).
    { unfold valid_request in Hinvalid.
      apply orb_false_iff in Hfirst as [Hfirst Hobj].
      apply orb_false_iff in Hfirst as [Htruthy Harr].
      apply negb_false_iff in Htruthy, Hobj. rewrite Htruthy, Harr, Hobj in Hinvalid.
      exact Hinvalid. }
    rewrite Hmethod. cbn [negb].
    unfold bind at 1. rewrite new_EthereumRpcError_eq by done.
    unfold bind, new, ret, reads. simpl.
    do 3 eexists. split; [reflexivity|]. split; [done|].
    unfold has. simpl. rewrite list_lookup_middle by done. simpl. by split.
Qed.

(** For a valid request, [finish] is reached unless the processing never
    settles. *)
Lemma _handle_valid_outcome eng callerReq s :
  valid_request callerReq s = true ->
  match _processRequest eng (req_of s) (res_of s) (begun callerReq s) with
  | Returned _ s1 => _handle eng callerReq s = finish (res_of s) VNull s1
  | Threw e s1 => _handle eng callerReq s = finish (res_of s) e s1
  | Pending s1 => _handle eng callerReq s = Pending s1
  end.
Proof.
  intros Hvalid. rewrite (_handle_valid _ _ _ Hvalid).
  unfold bind, try_catch. cbv beta.
  by destruct (_processRequest eng (req_of s) (res_of s) (begun callerReq s)).
Qed.






End Callback.

Section Fields.
Context {tbl : ErrorTable}.

Lemma truthy_error_in s : truthy (error_in s) = true.
Proof. reflexivity. Qed.




End Fields.





(** A middleware that throws after it has called [end]: the deferred
    promise already holds [[null, true]], so the error is stored on the
    response but not reported; the response keeps its result. *)
Remark throw_after_end :
  exists s',
    _handle (tbl := sampleTable) (engineOf [mwEndThenThrow]) (VRef 0) state0
    = Returned (VNull, 2) s'
    /\ has 2 "result" s' = true
    /\ read_error (get 2 "error" s') s'
       = Some (VNum (-32603), VStr errorMessages.threwNonError,
               <["request" := VRef 1]> {["thrownValue" := VStr "late"]}).
Proof. eexists. split; [vm_compute; reflexivity|]. split; reflexivity. Qed.

(** ** The caller's objects *)

Section Frame.
Context {tbl : ErrorTable}.

Lemma frame_below_refl n s : frame_below n s s.
Proof. by intros Hn. Qed.

Lemma frame_below_trans n s1 s2 s3 :
  frame_below n s1 s2 -> frame_below n s2 s3 -> frame_below n s1 s3.
Proof.
  intros H12 H23 Hn. destruct (H12 Hn) as [Hn2 H2]. destruct (H23 Hn2) as [Hn3 H3].
  split; [done|]. intros l Hl. rewrite H3 by done. by apply H2.
Qed.

Lemma frame_below_same_heap n s s' : heap s' = heap s -> frame_below n s s'.
Proof. intros Hh Hn. rewrite Hh. by split. Qed.

Lemma frame_below_set_prop n l key v s : n <= l -> frame_below n s (set_prop l key v s).
Proof.
  intros Hl Hn. split; [by rewrite length_heap_set_prop|].
  intros l' Hl'. apply lookup_set_prop_ne. lia.
Qed.

Lemma frame_below_del_prop n l key s : n <= l -> frame_below n s (del_prop l key s).
Proof.
  intros Hl Hn. split; [by rewrite length_heap_del_prop|].
  intros l' Hl'. apply lookup_del_prop_ne. lia.
Qed.

Lemma frame_below_alloc n o s : frame_below n s (alloc o s).2.
Proof.
  intros Hn. split; [simpl; rewrite length_app; lia|].
  intros l Hl. apply lookup_alloc_old. lia.
Qed.

Lemma frame_below_erred n code message data s :
  frame_below n s (erred code message data s).
Proof.
  intros Hn. split; [rewrite heap_erred, length_app; lia|].
  intros l Hl. apply lookup_erred_old. lia.
Qed.

Lemma frame_below_caught n req res v s : n <= res -> frame_below n s (caught req res v s).
Proof.
  intros Hres Hn. split.
  - pose proof (ev_length _ _ (evolves_caught req res v s)). lia.
  - intros l Hl. apply lookup_caught_old; lia.
Qed.

Lemma frame_below_end_callback n req res arg s :
  frame_below n s (state_of (end_callback req res arg s)).
Proof.
  rewrite end_callback_eq, _validateEndState_eq.
  assert (Hlog : frame_below n s (log (EEnd arg) s)) by (by apply frame_below_same_heap).
  repeat (match goal with |- context [if ?b then _ else _] => destruct b end);
    cbn [state_of].
  - eapply frame_below_trans; [exact Hlog|apply frame_below_erred].
  - eapply frame_below_trans; [exact Hlog|apply frame_below_erred].
  - eapply frame_below_trans; [exact Hlog|apply frame_below_erred].
  - apply frame_below_same_heap. by rewrite heap_resolve.
Qed.

(** A script that writes within [L], where no location of [L] is below
    [n], leaves the objects below [n] alone; so does what it returns. *)
Lemma exec_frame {A} n req res (P : list nat -> A -> Prop) L (p : script A) s :
  writes_within P L p ->
  Forall (fun l => n <= l) L ->
  frame_below n s (state_of (exec (end_callback req res) p s))
  /\ (n <= length (heap s) ->
      match exec (end_callback req res) p s with
      | Returned r _ => exists L', Forall (fun l => n <= l) L' /\ P L' r
      | _ => True
      end).
Proof.
  revert L s.
  induction p as [r|v| |l k IH|l key v k IH|l key k IH|o k IH|arg k IH];
    intros L s Hp HL; simpl in *.
  - split; [apply frame_below_refl|eauto].
  - split; [apply frame_below_refl|done].
  - split; [apply frame_below_refl|done].
  - by apply (IH _ L).
  - destruct Hp as [Hl Hp]. unfold bind, modify.
    assert (Hnl : n <= l) by (by apply (proj1 (Forall_forall _ _) HL)).
    destruct (IH L (set_prop l key v s) Hp HL) as [Hf Hr]. split.
    + eapply frame_below_trans; [by apply frame_below_set_prop|exact Hf].
    + intros Hn. apply Hr. by rewrite length_heap_set_prop.
  - destruct Hp as [Hl Hp]. unfold bind, modify.
    assert (Hnl : n <= l) by (by apply (proj1 (Forall_forall _ _) HL)).
    destruct (IH L (del_prop l key s) Hp HL) as [Hf Hr]. split.
    + eapply frame_below_trans; [by apply frame_below_del_prop|exact Hf].
    + intros Hn. apply Hr. by rewrite length_heap_del_prop.
  - unfold bind, new. simpl.
    split.
    + intros Hn.
      assert (HL' : Forall (fun l => n <= l) (length (heap s) :: L)) by (by constructor).
      destruct (IH (length (heap s)) _ (alloc o s).2 (Hp _) HL') as [Hf _].
      by apply (frame_below_trans n s (alloc o s).2); [apply frame_below_alloc| |].
    + intros Hn.
      assert (HL' : Forall (fun l => n <= l) (length (heap s) :: L)) by (by constructor).
      destruct (IH (length (heap s)) _ (alloc o s).2 (Hp _) HL') as [_ Hr].
      apply Hr. simpl. rewrite length_app. lia.
  - pose proof (frame_below_end_callback n req res arg s) as Hend.
    destruct (end_callback req res arg s) as [[] s1|e s1|s1]; cbn [state_of] in Hend.
    + destruct (IH None L s1 (Hp _) HL) as [Hf Hr]. split.
      * by eapply frame_below_trans.
      * intros Hn. apply Hr. by apply Hend.
    + destruct (IH (Some e) L s1 (Hp _) HL) as [Hf Hr]. split.
      * by eapply frame_below_trans.
      * intros Hn. apply Hr. by apply Hend.
    + by split.
Qed.

Lemma awaited_state hs s :
  state_of (awaited hs s) = s.
Proof. rewrite awaited_eq. by destruct (deferred s). Qed.

Lemma _runMiddleware_frame n req res m i hs s :
  writes_received m ->
  n <= req -> n <= res ->
  Forall (closure_frame n) hs ->
  frame_below n s (state_of (_runMiddleware req res m i hs s))
  /\ (n <= length (heap s) ->
      match _runMiddleware req res m i hs s with
      | Returned (e, c, hs') s' => Forall (closure_frame n) hs'
      | _ => True
      end).
Proof.
  intros Hm Hreq Hres Hhs.
  assert (HL : Forall (fun l => n <= l) [req; res]) by (by repeat constructor).
  destruct (exec_frame n req res _ _ (m req res) (entered i s) (Hm req res) HL)
    as [Hf Hr].
  assert (Hen : frame_below n s (entered i s)) by (by apply frame_below_same_heap).
  assert (Hkeep : forall s',
            match awaited hs s' with
            | Returned (e, c, hs') s'' => Forall (closure_frame n) hs'
            | _ => True
            end).
  { intros s'. rewrite awaited_eq. by destruct (deferred s') as [[? ?]|]. }
  destruct (exec (end_callback req res) (m req res) (entered i s))
    as [r s1|v s1|s1] eqn:He; cbn [state_of] in Hf.
  - rewrite (_runMiddleware_returned _ _ _ _ _ _ _ _ He).
    destruct (endCalled s1).
    { rewrite awaited_state. split; [by eapply frame_below_trans|intros; apply Hkeep]. }
    destruct (truthy (get res "error" s1)).
    { rewrite awaited_state. split; [|intros; apply Hkeep].
      eapply frame_below_trans; [exact Hen|]. eapply frame_below_trans; [exact Hf|].
      eapply frame_below_trans; [apply frame_below_erred|by apply frame_below_caught]. }
    destruct r as [v|h].
    + destruct (truthy v); rewrite awaited_state; (split; [|intros; apply Hkeep]).
      * eapply frame_below_trans; [exact Hen|]. eapply frame_below_trans; [exact Hf|].
        eapply frame_below_trans; [apply frame_below_erred|by apply frame_below_caught].
      * eapply frame_below_trans; [exact Hen|]. eapply frame_below_trans; [exact Hf|].
        apply frame_below_same_heap. by rewrite heap_resolve.
    + rewrite awaited_state. split.
      * eapply frame_below_trans; [exact Hen|]. eapply frame_below_trans; [exact Hf|].
        apply frame_below_same_heap. by rewrite heap_resolve.
      * intros Hn. rewrite awaited_eq, deferred_resolve.
        destruct (default (VNull, false) (deferred (log (ECollect i) s1))) as [e c].
        apply Forall_app. split; [done|]. apply Forall_singleton.
        destruct (Hr Hn) as (L' & HL' & Hh).
        intros s2. simpl. by apply (exec_frame n req res _ L' h s2 Hh HL').
  - assert (Hfc : frame_below n s (caught req res v s1)).
    { eapply frame_below_trans; [exact Hen|]. eapply frame_below_trans; [exact Hf|].
      by apply frame_below_caught. }
    destruct (converts v s1) eqn:Hcv.
    + rewrite (_runMiddleware_threw _ _ _ _ _ _ _ _ He Hcv), awaited_state.
      split; [exact Hfc|intros; apply Hkeep].
    + rewrite (_runMiddleware_refused _ _ _ _ _ _ _ _ He Hcv). by split.
  - rewrite (_runMiddleware_pending _ _ _ _ _ _ _ He). split; [|done].
    by eapply frame_below_trans.
Qed.

Lemma middleware_loop_frame n req res stack i e c hs s :
  Forall writes_received stack ->
  n <= req -> n <= res ->
  Forall (closure_frame n) hs ->
  frame_below n s (state_of (middleware_loop req res stack i e c hs s))
  /\ (n <= length (heap s) ->
      match middleware_loop req res stack i e c hs s with
      | Returned (e', c', hs') s' => Forall (closure_frame n) hs'
      | _ => True
      end).
Proof.
  intros Hstack Hreq Hres. revert i e c hs s.
  induction Hstack as [|m stack Hm Hstack IH]; intros i e c hs s Hhs.
  - simpl. split; [apply frame_below_refl|done].
  - rewrite middleware_loop_cons.
    destruct (_runMiddleware_frame n req res m i hs s Hm Hreq Hres Hhs) as [Hf Hr].
    destruct (_runMiddleware req res m i hs s) as [[[e1 c1] hs1] s1|v s1|s1];
      cbn [state_of] in Hf; try done.
    destruct c1; [done|].
    split.
    + intros Hn. destruct (Hf Hn) as [Hn1 H1].
      destruct (IH (S i) e1 false hs1 s1 (Hr Hn)) as [Hf2 _].
      by apply (frame_below_trans n s s1); [| |].
    + intros Hn. destruct (Hf Hn) as [Hn1 H1].
      destruct (IH (S i) e1 false hs1 s1 (Hr Hn)) as [_ Hr2]. by apply Hr2.
Qed.

Lemma _runReturnHandlers_frame n hs s :
  Forall (closure_frame n) hs ->
  frame_below n s (state_of (_runReturnHandlers hs s)).
Proof.
  intros Hhs. revert s. induction Hhs as [|[i c] hs Hc Hhs IH]; intros s.
  - apply frame_below_refl.
  - rewrite _runReturnHandlers_cons. specialize (Hc (log (ERun i) s)). simpl in Hc.
    assert (Hlog : frame_below n s (log (ERun i) s)) by (by apply frame_below_same_heap).
    destruct (c (log (ERun i) s)) as [[] s1|v s1|s1]; cbn [state_of] in *.
    + eapply frame_below_trans; [exact Hlog|]. eapply frame_below_trans; [exact Hc|apply IH].
    + by eapply frame_below_trans.
    + by eapply frame_below_trans.
Qed.

Lemma _checkForCompletion_frame n req res c s :
  frame_below n s (state_of (_checkForCompletion req res c s)).
Proof.
  rewrite _checkForCompletion_eq.
  repeat (match goal with |- context [if ?b then _ else _] => destruct b end);
    cbn [state_of]; first [apply frame_below_erred|apply frame_below_refl].
Qed.

Lemma _processRequest_frame n eng req res s :
  Forall writes_received (_middleware eng) ->
  n <= req -> n <= res ->
  n <= length (heap s) ->
  frame_below n s (state_of (_processRequest eng req res s)).
Proof.
  intros Hstack Hreq Hres Hn.
  unfold _processRequest, _runAllMiddleware. unfold bind at 1 2.
  destruct (middleware_loop_frame n req res (_middleware eng) 0 VNull false [] s
              Hstack Hreq Hres (Forall_nil_2 _)) as [Hf Hr].
  specialize (Hr Hn).
  destruct (middleware_loop req res (_middleware eng) 0 VNull false [] s)
    as [[[e c] hs] s1|v s1|s1]; cbn [state_of] in Hf; try done.
  unfold ret at 1. unfold bind at 1.
  pose proof (_checkForCompletion_frame n req res c s1) as Hcheck.
  destruct (_checkForCompletion req res c s1) as [[] s2|v s2|s2]; cbn [state_of] in Hcheck;
    try (by apply (frame_below_trans n s s1 s2)).
  unfold bind.
  pose proof (_runReturnHandlers_frame n (reverse hs) s2
                (proj2 (Forall_reverse _ _) Hr)) as Hunwind.
  assert (H2 : frame_below n s s2) by (by apply (frame_below_trans n s s1 s2)).
  destruct (_runReturnHandlers (reverse hs) s2) as [[] s3|v s3|s3]; cbn [state_of] in Hunwind;
    try (by apply (frame_below_trans n s s2 s3)).
  destruct (truthy e); by apply (frame_below_trans n s s2 s3).
Qed.

Lemma _handle_invalid_frame eng callerReq s l :
  valid_request callerReq s = false ->
  l < length (heap s) ->
  heap (state_of (_handle eng callerReq s)) !! l = heap s !! l.
Proof.
  intros Hinvalid Hl. unfold _handle. unfold bind at 1, reads at 1.
  destruct (negb (truthy callerReq) || isArray callerReq s
            || negb (String.eqb (typeof callerReq) "object")) eqn:Hfirst.
  - unfold bind at 1. rewrite new_EthereumRpcError_eq by done.
    unfold bind, new, ret, alloc, set_heap. cbn [state_of heap].
    rewrite lookup_app_l by (rewrite heap_erred, length_app; lia).
    by apply lookup_erred_old.
  - unfold bind at 1, reads at 1.
    assert (Hmethod : String.eqb (typeof (prop_of callerReq "method" s)) "string" = false).
    { unfold valid_request in Hinvalid.
      apply orb_false_iff in Hfirst as [Hfirst Hobj].
      apply orb_false_iff in Hfirst as [Htruthy Harr].
      apply negb_false_iff in Htruthy, Hobj. rewrite Htruthy, Harr, Hobj in Hinvalid.
      exact Hinvalid. }
    rewrite Hmethod. cbn [negb].
    unfold bind at 1. rewrite new_EthereumRpcError_eq by done.
    unfold bind, new, ret, reads, alloc, set_heap. cbn [state_of heap].
    rewrite lookup_app_l by (rewrite heap_erred, length_app; lia).
    by apply lookup_erred_old.
Qed.

(** C9 (as amended): whatever properties the middleware, and the handlers
    they return, set or delete on the request and on the response they
    receive (or on objects they create), every object that was in the store
    when [_handle] was called, the caller's request object among them, is the
    same when [_handle] has finished, or wherever it is left pending. *)
Theorem caller_request_not_mutated eng callerReq s l :
  Forall writes_received (_middleware eng) ->
  l < length (heap s) ->
  heap (state_of (_handle eng callerReq s)) !! l = heap s !! l.
Proof.
  intros Hstack Hl.
  destruct (valid_request callerReq s) eqn:Hvalid;
    [|by apply _handle_invalid_frame].
  pose proof (_handle_valid_outcome eng callerReq s Hvalid) as Ho.
  assert (Hn : length (heap s) <= length (heap (begun callerReq s))).
  { rewrite length_heap_begun. lia. }
  destruct (_processRequest_frame (length (heap s)) eng (req_of s) (res_of s)
              (begun callerReq s) Hstack) as [Hlen Hsame];
    [done|unfold res_of; lia|done|done|].
  rewrite <- (lookup_begun_old callerReq s l Hl).
  destruct (_processRequest eng (req_of s) (res_of s) (begun callerReq s))
    as [[] s1|e s1|s1]; cbn [state_of] in Hlen, Hsame; rewrite Ho.
  - destruct (finish_frame (res_of s) VNull s1) as (s2 & -> & Hframe & _).
    cbn [state_of]. rewrite Hframe by (unfold res_of; lia). by apply Hsame.
  - destruct (finish_frame (res_of s) e s1) as (s2 & -> & Hframe & _).
    cbn [state_of]. rewrite Hframe by (unfold res_of; lia). by apply Hsame.
  - by apply Hsame.
Qed.

End Frame.

Lemma caller_request_not_mutated_witness :
  Forall writes_received [mwMutateRequest]
  /\ heap (state_of (_handle (tbl := sampleTable)
                       (engineOf [mwMutateRequest]) (VRef 0) state0)) !! 0
     = Some request0
  /\ get 1 "method" (state_of (_handle (tbl := sampleTable)
                                 (engineOf [mwMutateRequest]) (VRef 0) state0))
     = VStr "other".
Proof.
  assert (Hw : Forall writes_received [mwMutateRequest]).
  { repeat constructor; set_solver. }
  split; [exact Hw|]. split.
  - apply (caller_request_not_mutated (tbl := sampleTable)
             (engineOf [mwMutateRequest]) (VRef 0) state0 0 Hw).
    simpl. lia.
  - vm_compute. reflexivity.
Defined.

(** C9 as stated fails for what the request refers to: the copy is
    shallow, so the [params] object of the copy is the caller's; after a
    middleware has run [req.params.a = 2], the caller reads [2] in
    [callerReq.params.a]. *)
Lemma nested_params_mutated :
  prop_of (prop_of (VRef 1) "params" state1) "a" state1 = VNum 1
  /\ exists s',
       _handle (tbl := sampleTable) (engineOf [mwMutateParams]) (VRef 1) state1
       = Returned (VNull, 3) s'
       /\ prop_of (prop_of (VRef 1) "params" s') "a" s' = VNum 2.
Proof.
  split; [reflexivity|].
  eexists. split; [vm_compute; reflexivity|reflexivity].
Qed.

(** * More of the engine *)

(** ** Requests that are turned down before any middleware runs *)

Section Rejected.
Context {tbl : ErrorTable}.

(** What the first check of [_handle] creates: the error, then the
    response that holds it. *)
Lemma _handle_non_object eng callerReq s :
  negb (truthy callerReq) || isArray callerReq s
  || negb (String.eqb (typeof callerReq) "object") = true ->
  _handle eng callerReq s
  = Returned (error_in s, S (S (length (heap s))))
      (alloc (Obj CObject
                (<["id" := VUndefined]>
                   (<["jsonrpc" := VStr "2.0"]> {["error" := error_in s]})))
         (erred (VNum invalidRequest) (VStr (errorMessages.nonObjectRequest callerReq))
            {["request" := callerReq]} s)).2.
Proof.
  intros Hfirst. unfold _handle. unfold bind at 1, reads at 1. rewrite Hfirst.
  unfold bind at 1. rewrite new_EthereumRpcError_eq by done.
  unfold bind, new, ret, alloc. cbn [fst snd]. rewrite heap_erred, length_app.
  cbn [length]. by rewrite Nat.add_comm.
Qed.

(** The request passed the first check: it is a reference. *)
Lemma object_request_ref callerReq s :
  negb (truthy callerReq) || isArray callerReq s
  || negb (String.eqb (typeof callerReq) "object") = false ->
  exists l, callerReq = VRef l.
Proof.
  intros H. destruct callerReq; eauto; simpl in H; by rewrite ?orb_true_r in H.
Qed.

(** Reading a property of the caller's request after an error was created
    gives what it gave before. *)
Lemma prop_of_erred code message data s l key :
  accepts code message = true ->
  key <> "request" -> key <> "code" -> key <> "message" -> key <> "data" ->
  (forall k, data !! k <> None -> k = "request") ->
  prop_of (VRef l) key (erred code message data s) = prop_of (VRef l) key s.
Proof.
  intros Ha H1 H2 H3 H4 Hdata. unfold prop_of, get. rewrite heap_erred.
  rewrite constructed_accepts by done.
  destruct (decide (l < length (heap s))) as [Hl|Hl].
  { by rewrite lookup_app_l. }
  rewrite (lookup_ge_None_2 (heap s)) by lia.
  rewrite lookup_app_r by lia.
  destruct (l - length (heap s)) as [|[|n]] eqn:E; simpl.
  - destruct (data !! key) eqn:Hk; [|done].
    exfalso. apply H1, Hdata. by rewrite Hk.
  - rewrite !lookup_insert_ne by done. by rewrite lookup_singleton_ne.
  - done.
Qed.

End Rejected.

Section RejectedRequests.
Context {tbl : ErrorTable}.

(** A request that is falsy, an array, or not of type object is answered
    without running any middleware: the callback gets a new standardized
    error with the invalid-request code, the message "Requests must be
    plain objects. Received: <typeof request>" and the request as data, and
    the new response [{id: undefined, jsonrpc: '2.0', error}] that holds this
    very error. *)
Theorem non_object_request_is_rejected eng callerReq s :
  negb (truthy callerReq) || isArray callerReq s
  || negb (String.eqb (typeof callerReq) "object") = true ->
  exists e res s',
    _handle eng callerReq s = Returned (e, res) s'
    /\ read_error e s'
       = Some (VNum invalidRequest, VStr (errorMessages.nonObjectRequest callerReq),
               {["request" := callerReq]})
    /\ heap s' !! res
       = Some (Obj CObject
                 (<["id" := VUndefined]> (<["jsonrpc" := VStr "2.0"]> {["error" := e]})))
    /\ calls s' = calls s.
Proof.
  intros Hfirst. rewrite (_handle_non_object _ _ _ Hfirst).
  do 3 eexists. split; [reflexivity|].
  set (s1 := erred _ _ _ s).
  assert (Hlen : length (heap s1) = S (S (length (heap s)))).
  { unfold s1. rewrite heap_erred, length_app. simpl. lia. }
  split; [|split].
  - apply read_error_erred_at; [done| |]; unfold alloc, set_heap; cbn [heap snd]; fold s1;
      by rewrite lookup_app_l by lia.
  - unfold alloc, set_heap. cbn [heap snd fst]. rewrite <- Hlen.
    by rewrite list_lookup_middle.
  - reflexivity.
Qed.

(** What the second check of [_handle] creates. *)
Lemma _handle_non_string_method eng callerReq s :
  negb (truthy callerReq) || isArray callerReq s
  || negb (String.eqb (typeof callerReq) "object") = false ->
  String.eqb (typeof (prop_of callerReq "method" s)) "string" = false ->
  _handle eng callerReq s
  = Returned (error_in s, S (S (length (heap s))))
      (alloc (Obj CObject
                (<["id" := prop_of callerReq "id" s]>
                   (<["jsonrpc" := VStr "2.0"]> {["error" := error_in s]})))
         (erred (VNum invalidRequest)
            (VStr (errorMessages.nonStringMethod (prop_of callerReq "method" s)))
            {["request" := callerReq]} s)).2.
Proof.
  intros Hfirst Hmethod. unfold _handle. unfold bind at 1, reads at 1. rewrite Hfirst.
  unfold bind at 1, reads at 1. rewrite Hmethod. cbn [negb].
  unfold bind at 1. rewrite new_EthereumRpcError_eq by done.
  unfold bind at 1, reads at 1.
  destruct (object_request_ref _ _ Hfirst) as [l ->].
  rewrite prop_of_erred; try done.
  2:{ intros k Hk. destruct (decide (k = "request")) as [->|Hne]; [done|].
      by rewrite lookup_singleton_ne in Hk. }
  unfold bind, new, ret, alloc. cbn [fst snd]. rewrite heap_erred, length_app.
  cbn [length]. by rewrite Nat.add_comm.
Qed.

(** A request object whose [method] is not a string is answered without
    running any middleware: the callback gets a new standardized error with
    the invalid-request code, the message "Must specify a string method.
    Received: <typeof method>" and the request as data, and the new response
    [{id: <the request's id>, jsonrpc: '2.0', error}] that holds this very
    error. *)
Theorem non_string_method_is_rejected eng callerReq s :
  negb (truthy callerReq) || isArray callerReq s
  || negb (String.eqb (typeof callerReq) "object") = false ->
  String.eqb (typeof (prop_of callerReq "method" s)) "string" = false ->
  exists e res s',
    _handle eng callerReq s = Returned (e, res) s'
    /\ read_error e s'
       = Some (VNum invalidRequest,
               VStr (errorMessages.nonStringMethod (prop_of callerReq "method" s)),
               {["request" := callerReq]})
    /\ heap s' !! res
       = Some (Obj CObject
                 (<["id" := prop_of callerReq "id" s]>
                    (<["jsonrpc" := VStr "2.0"]> {["error" := e]})))
    /\ calls s' = calls s.
Proof.
  intros Hfirst Hmethod. rewrite (_handle_non_string_method _ _ _ Hfirst Hmethod).
  do 3 eexists. split; [reflexivity|].
  set (s1 := erred _ _ _ s).
  assert (Hlen : length (heap s1) = S (S (length (heap s)))).
  { unfold s1. rewrite heap_erred, length_app. simpl. lia. }
  split; [|split].
  - apply read_error_erred_at; [done| |]; unfold alloc, set_heap; cbn [heap snd]; fold s1;
      by rewrite lookup_app_l by lia.
  - unfold alloc, set_heap. cbn [heap snd fst]. rewrite <- Hlen.
    by rewrite list_lookup_middle.
  - reflexivity.
Qed.

End RejectedRequests.

Lemma non_object_request_is_rejected_witness :
  exists e res s',
    _handle (tbl := sampleTable) (engineOf [mwOk]) (VStr "m") state0 = Returned (e, res) s'
    /\ read_error e s'
       = Some (VNum (-32600), VStr "Requests must be plain objects. Received: string",
               {["request" := VStr "m"]})
    /\ heap s' !! res
       = Some (Obj CObject
                 (<["id" := VUndefined]> (<["jsonrpc" := VStr "2.0"]> {["error" := e]})))
    /\ calls s' = calls state0.
Proof.
  apply (non_object_request_is_rejected (tbl := sampleTable)
           (engineOf [mwOk]) (VStr "m") state0).
  reflexivity.
Defined.

Lemma non_string_method_is_rejected_witness :
  exists e res s',
    _handle (tbl := sampleTable) (engineOf [mwOk]) (VRef 0) stateNoMethod
    = Returned (e, res) s'
    /\ read_error e s'
       = Some (VNum (-32600), VStr "Must specify a string method. Received: undefined",
               {["request" := VRef 0]})
    /\ heap s' !! res
       = Some (Obj CObject
                 (<["id" := VNum 7]> (<["jsonrpc" := VStr "2.0"]> {["error" := e]})))
    /\ calls s' = calls stateNoMethod.
Proof.
  apply (non_string_method_is_rejected (tbl := sampleTable)
           (engineOf [mwOk]) (VRef 0) stateNoMethod); reflexivity.
Defined.

(** ** The stack *)

(** [push] adds at the end of the stack: after pushing [m1], ..., [mn] in
    this order, the stack is the one before followed by [m1; ...; mn]; a new
    engine has an empty stack. *)
Theorem push_appends_in_order eng stack :
  _middleware (foldl push eng stack) = _middleware eng ++ stack
  /\ _middleware (foldl push newEngine stack) = stack.
Proof.
  assert (H : forall e, _middleware (foldl push e stack) = _middleware e ++ stack).
  { induction stack as [|m stack IH]; intros e; simpl.
    - by rewrite app_nil_r.
    - rewrite IH. simpl. by rewrite <- (assoc_L (++)). }
  split; [apply H|]. by rewrite H.
Qed.

(** ** Who calls whom, and when *)

Section Adds.
Context (P : event -> Prop).

Lemma adds_refl s : adds P s s.
Proof. split; [apply evolves_refl|]. by rewrite new_calls_refl. Qed.

Lemma adds_trans s1 s2 s3 : adds P s1 s2 -> adds P s2 s3 -> adds P s1 s3.
Proof.
  intros [E1 F1] [E2 F2]. split; [by eapply evolves_trans|].
  rewrite (new_calls_trans _ _ _ E1 E2). by apply Forall_app.
Qed.

Lemma adds_same_calls s s' : evolves s s' -> calls s' = calls s -> adds P s s'.
Proof.
  intros E Hc. split; [done|]. unfold new_calls. rewrite Hc, drop_all. constructor.
Qed.

Lemma adds_log e s : P e -> adds P s (log e s).
Proof.
  intros He. split; [apply evolves_log|]. rewrite new_calls_log. by constructor.
Qed.

Lemma adds_set_prop l key v s : adds P s (set_prop l key v s).
Proof. apply adds_same_calls; [apply evolves_set_prop|done]. Qed.

Lemma adds_del_prop l key s : adds P s (del_prop l key s).
Proof. apply adds_same_calls; [apply evolves_del_prop|done]. Qed.

Lemma adds_alloc o s : adds P s (alloc o s).2.
Proof. apply adds_same_calls; [apply evolves_alloc|done]. Qed.

Lemma adds_resolve d s : adds P s (resolve d s).
Proof. apply adds_same_calls; [apply evolves_resolve|apply calls_resolve]. Qed.

End Adds.

Lemma adds_weaken (P Q : event -> Prop) s s' :
  (forall e, P e -> Q e) -> adds P s s' -> adds Q s s'.
Proof. intros HPQ [E F]. split; [done|]. eapply Forall_impl; eauto. Qed.

Lemma invoked_app t1 t2 : invoked (t1 ++ t2) = invoked t1 ++ invoked t2.
Proof. apply omap_app. Qed.

Lemma invoked_none t :
  Forall (fun e => forall i, e <> ECall i) t -> invoked t = [].
Proof.
  induction 1 as [|e t He _ IH]; [done|].
  destruct e as [i| | |]; simpl; try exact IH. by destruct (He i).
Qed.

Lemma collects_none t :
  Forall (fun e => forall i, e <> ECollect i) t -> collects t = [].
Proof.
  induction 1 as [|e t He _ IH]; [done|].
  destruct e as [| |i|]; simpl; try exact IH. by destruct (He i).
Qed.

Lemma runs_none t :
  Forall (fun e => forall i, e <> ERun i) t -> runs t = [].
Proof.
  induction 1 as [|e t He _ IH]; [done|].
  destruct e as [| | |i]; simpl; try exact IH. by destruct (He i).
Qed.

Section Calls.
Context {tbl : ErrorTable}.

Lemma adds_erred P code message data s : adds P s (erred code message data s).
Proof. apply adds_same_calls; [apply evolves_erred|apply calls_erred]. Qed.

Lemma adds_caught P req res v s : adds P s (caught req res v s).
Proof. apply adds_same_calls; [apply evolves_caught|apply calls_caught]. Qed.

(** A call of [end] adds itself to the trace, nothing else. *)
Lemma adds_end_callback req res arg : preserves (adds is_end) (end_callback req res arg).
Proof.
  intros s. rewrite end_callback_eq, _validateEndState_eq.
  assert (Hlog : adds is_end s (log (EEnd arg) s)) by (by apply adds_log).
  repeat (match goal with |- context [if ?b then _ else _] => destruct b end);
    cbn [state_of].
  - eapply adds_trans; [exact Hlog|apply adds_erred].
  - eapply adds_trans; [exact Hlog|apply adds_erred].
  - eapply adds_trans; [exact Hlog|apply adds_erred].
  - eapply adds_trans; [exact Hlog|]. eapply adds_trans; [|apply adds_resolve].
    by apply adds_same_calls.
Qed.

(** User code adds calls of [end] to the trace, nothing else. *)
Lemma adds_exec {A} req res (p : script A) :
  preserves (adds is_end) (exec (end_callback req res) p).
Proof.
  apply (preserves_exec (adds is_end) (adds_refl _) (adds_trans _) (adds_set_prop _)
           (adds_del_prop _) (adds_alloc _)).
  apply adds_end_callback.
Qed.

Lemma adds_closure req res c :
  closure_of req res c -> preserves (adds is_end) c.2.
Proof. intros [h ->]. apply adds_exec. Qed.

(** One run of [_runMiddleware], however it ends: the middleware is invoked
    once; its handler is collected or not; the other calls are calls of
    [end]. *)
Lemma _runMiddleware_calls req res m i hs s :
  exists t,
    new_calls s (state_of (_runMiddleware req res m i hs s)) = ECall i :: t
    /\ Forall (fun e => is_end e \/ e = ECollect i) t.
Proof.
  destruct (quiet_entered i s) as [Een Hen].
  pose proof (adds_exec req res (m req res) (entered i s)) as Hx.
  apply (adds_weaken _ (fun e => is_end e \/ e = ECollect i)) in Hx; [|by left].
  assert (Hdone : forall s',
            adds (fun e => is_end e \/ e = ECollect i)
              (state_of (exec (end_callback req res) (m req res) (entered i s))) s' ->
            exists t, new_calls s s' = ECall i :: t
                      /\ Forall (fun e => is_end e \/ e = ECollect i) t).
  { intros s' Hs'. destruct (adds_trans _ _ _ _ Hx Hs') as [E F].
    exists (new_calls (entered i s) s'). split; [|exact F].
    by rewrite (new_calls_trans _ _ _ Een E), Hen. }
  destruct (exec (end_callback req res) (m req res) (entered i s))
    as [r s1|v s1|s1] eqn:He; cbn [state_of] in Hdone.
  - rewrite (_runMiddleware_returned _ _ _ _ _ _ _ _ He).
    destruct (endCalled s1).
    { rewrite awaited_state. apply Hdone, adds_refl. }
    destruct (truthy (get res "error" s1)).
    { rewrite awaited_state. apply Hdone.
      eapply adds_trans; [apply adds_erred|apply adds_caught]. }
    destruct r as [v|h].
    + destruct (truthy v); rewrite awaited_state; apply Hdone.
      * eapply adds_trans; [apply adds_erred|apply adds_caught].
      * apply adds_resolve.
    + rewrite awaited_state. apply Hdone.
      eapply adds_trans; [apply adds_log; by right|apply adds_resolve].
  - destruct (converts v s1) eqn:Hcv.
    + rewrite (_runMiddleware_threw _ _ _ _ _ _ _ _ He Hcv), awaited_state.
      apply Hdone, adds_caught.
    + rewrite (_runMiddleware_refused _ _ _ _ _ _ _ _ He Hcv). apply Hdone, adds_caught.
  - rewrite (_runMiddleware_pending _ _ _ _ _ _ _ He). apply Hdone, adds_refl.
Qed.

Lemma _runMiddleware_invoked req res m i hs s :
  invoked (new_calls s (state_of (_runMiddleware req res m i hs s))) = [i]
  /\ runs (new_calls s (state_of (_runMiddleware req res m i hs s))) = [].
Proof.
  destruct (_runMiddleware_calls req res m i hs s) as (t & -> & Ht). split.
  - simpl. f_equal. apply invoked_none. eapply Forall_impl; [exact Ht|].
    intros e [He| ->] j; [by destruct e|done].
  - simpl. apply runs_none. eapply Forall_impl; [exact Ht|].
    intros e [He| ->] j; [by destruct e|done].
Qed.

(** The loop invokes the middleware of the stack in order, from the first
    on, and stops where the request is complete or where a middleware does
    not settle; it invokes no handler. *)
Lemma middleware_loop_invoked req res stack i e c hs s :
  exists k,
    k <= length stack
    /\ invoked (new_calls s (state_of (middleware_loop req res stack i e c hs s)))
       = seq i k
    /\ runs (new_calls s (state_of (middleware_loop req res stack i e c hs s))) = []
    /\ match middleware_loop req res stack i e c hs s with
       | Returned (_, false, _) _ => k = length stack
       | _ => True
       end.
Proof.
  revert i e c hs s. induction stack as [|m stack IH]; intros i e c hs s.
  - exists 0. simpl. rewrite new_calls_refl. split_and!; try done. by destruct c.
  - rewrite middleware_loop_cons.
    destruct (_runMiddleware_invoked req res m i hs s) as [Hi Hr].
    pose proof (evolves_runMiddleware req res m i hs s) as E1.
    destruct (_runMiddleware req res m i hs s) as [[[e1 c1] hs1] s1|v s1|s1];
      cbn [state_of] in *.
    + destruct c1.
      * exists 1. cbn [state_of]. split_and!; simpl; try done. lia.
      * destruct (IH (S i) e1 false hs1 s1) as (k & Hk & Hinv & Hruns & Hlast).
        pose proof (evolves_middleware_loop req res stack (S i) e1 false hs1 s1) as E2.
        exists (S k). rewrite (new_calls_trans _ _ _ E1 E2), invoked_app, runs_app.
        rewrite Hi, Hr, Hinv, Hruns. split_and!; simpl; try done; [lia|].
        destruct (middleware_loop req res stack (S i) e1 false hs1 s1)
          as [[[e2 c2] hs2] s2|v s2|s2]; try done.
        destruct c2; [done|]. by rewrite Hlast.
    + exists 1. split_and!; simpl; try done. lia.
    + exists 1. split_and!; simpl; try done. lia.
Qed.

(** The handlers add their own invocations and calls of [end]. *)
Lemma _runReturnHandlers_calls req res hs s :
  Forall (closure_of req res) hs ->
  adds (fun e => is_end e \/ is_run e) s (state_of (_runReturnHandlers hs s)).
Proof.
  intros Hhs. revert s. induction Hhs as [|[i c] hs Hc Hhs IH]; intros s.
  - apply adds_refl.
  - rewrite _runReturnHandlers_cons.
    pose proof (adds_closure _ _ _ Hc (log (ERun i) s)) as Hx. cbn [snd] in Hx.
    apply (adds_weaken _ (fun e => is_end e \/ is_run e)) in Hx; [|by left].
    assert (Hlog : adds (fun e => is_end e \/ is_run e) s (log (ERun i) s)).
    { apply adds_log. by right. }
    destruct (c (log (ERun i) s)) as [[] s1|v s1|s1]; cbn [state_of] in *.
    + eapply adds_trans; [exact Hlog|]. eapply adds_trans; [exact Hx|apply IH].
    + by eapply adds_trans.
    + by eapply adds_trans.
Qed.

(** The calls of a whole run of [_handle] for a valid request: those of the
    middleware phase, then those of the unwind. *)
Lemma handle_calls eng callerReq s :
  valid_request callerReq s = true ->
  exists t2,
    new_calls s (state_of (_handle eng callerReq s))
    = new_calls (begun callerReq s)
        (state_of (_runAllMiddleware (req_of s) (res_of s) (_middleware eng)
                     (begun callerReq s)))
      ++ t2
    /\ Forall (fun e => is_end e \/ is_run e) t2.
Proof.
  intros Hvalid.
  assert (Hsame : forall s', new_calls s s' = new_calls (begun callerReq s) s').
  { intros s'. apply new_calls_same. by rewrite calls_begun. }
  assert (Hcalls : calls (state_of (_handle eng callerReq s))
                   = calls (state_of (_processRequest eng (req_of s) (res_of s)
                                        (begun callerReq s)))).
  { pose proof (_handle_valid_outcome eng callerReq s Hvalid) as Ho.
    destruct (_processRequest eng (req_of s) (res_of s) (begun callerReq s))
      as [[] s1|e s1|s1]; rewrite Ho; cbn [state_of].
    - destruct (finish_frame (res_of s) VNull s1) as (s2 & Hfin & _ & Hc).
      by rewrite Hfin.
    - destruct (finish_frame (res_of s) e s1) as (s2 & Hfin & _ & Hc).
      by rewrite Hfin.
    - done. }
  unfold new_calls at 1. rewrite Hcalls.
  fold (new_calls s (state_of (_processRequest eng (req_of s) (res_of s)
                                 (begun callerReq s)))).
  rewrite Hsame. clear Hcalls Hsame.
  unfold _processRequest. unfold bind at 1.
  pose proof (evolves_runAllMiddleware (req_of s) (res_of s) (_middleware eng)
                (begun callerReq s)) as Hphase.
  destruct (_runAllMiddleware (req_of s) (res_of s) (_middleware eng) (begun callerReq s))
    as [[[e c] hs] sC|v sC|sC]; cbn [state_of].
  - destruct Hphase as [F E]. unfold bind at 1. rewrite _checkForCompletion_eq.
    assert (Herr : forall message,
              exists t2,
                new_calls (begun callerReq s)
                  (erred (VNum internal) (VStr message)
                     {["request" := VRef (req_of s)]} sC)
                = new_calls (begun callerReq s) sC ++ t2
                /\ Forall (fun e => is_end e \/ is_run e) t2).
    { intros message. exists [].
      rewrite app_nil_r. split; [|constructor].
      unfold new_calls. by rewrite calls_erred. }
    destruct (negb (has (res_of s) "result" sC) && negb (has (res_of s) "error" sC));
      [apply Herr|].
    destruct (negb c); [apply Herr|].
    destruct (_runReturnHandlers_calls _ _ hs sC F) as [EU FU].
    exists (new_calls sC (state_of (_runReturnHandlers hs sC))).
    split; [|exact FU].
    rewrite <- (new_calls_trans _ _ _ E EU). f_equal. unfold bind.
    destruct (_runReturnHandlers hs sC) as [[] sU|x sU|sU]; try done.
    by destruct (truthy e).
  - exists []. by rewrite app_nil_r.
  - exists []. by rewrite app_nil_r.
Qed.

(** The calls of the middleware phase. *)
Lemma phase_invoked req res stack s :
  exists k,
    k <= length stack
    /\ invoked (new_calls s (state_of (_runAllMiddleware req res stack s))) = seq 0 k
    /\ runs (new_calls s (state_of (_runAllMiddleware req res stack s))) = [].
Proof.
  destruct (middleware_loop_invoked req res stack 0 VNull false [] s)
    as (k & Hk & Hinv & Hruns & _).
  exists k. split; [done|].
  assert (Hst : state_of (_runAllMiddleware req res stack s)
                = state_of (middleware_loop req res stack 0 VNull false [] s)).
  { unfold _runAllMiddleware, bind.
    by destruct (middleware_loop req res stack 0 VNull false [] s) as [[[? ?] ?] ?| |]. }
  by rewrite Hst.
Qed.

Lemma invoked_unwind t :
  Forall (fun e => is_end e \/ is_run e) t -> invoked t = [] /\ collects t = [].
Proof.
  intros Ht. split.
  - apply invoked_none. eapply Forall_impl; [exact Ht|].
    intros e [He|He] j; by destruct e.
  - apply collects_none. eapply Forall_impl; [exact Ht|].
    intros e [He|He] j; by destruct e.
Qed.

(** Whatever the request and the stack: the middleware are invoked in the
    order of the stack, starting with the first, each at most once and none
    skipped: the indices of the middleware invoked during [_handle], in the
    order of invocation, are [0; 1; ...; k - 1] for some [k] up to the length
    of the stack. *)
Theorem middleware_invoked_in_stack_order eng callerReq s :
  exists k,
    k <= length (_middleware eng)
    /\ invoked (new_calls s (state_of (_handle eng callerReq s))) = seq 0 k.
Proof.
  destruct (valid_request callerReq s) eqn:Hvalid.
  - destruct (handle_calls eng callerReq s Hvalid) as (t2 & -> & Ht2).
    destruct (phase_invoked (req_of s) (res_of s) (_middleware eng) (begun callerReq s))
      as (k & Hk & Hinv & _).
    exists k. split; [done|].
    rewrite invoked_app, Hinv, (proj1 (invoked_unwind _ Ht2)). apply app_nil_r.
  - destruct (_handle_invalid eng callerReq s Hvalid) as (e & r & s' & -> & _ & _ & _ & Hc).
    exists 0. split; [lia|]. cbn [state_of]. unfold new_calls. by rewrite Hc, drop_all.
Qed.

(** Whatever the request and the stack: the calls of a run of [_handle]
    split in two; no handler is invoked in the first part (the middleware
    phase), and in the second (the unwind) no middleware is invoked and no
    handler is collected. *)
Theorem unwind_follows_middleware_phase eng callerReq s :
  exists t1 t2,
    new_calls s (state_of (_handle eng callerReq s)) = t1 ++ t2
    /\ runs t1 = []
    /\ invoked t2 = []
    /\ collects t2 = [].
Proof.
  destruct (valid_request callerReq s) eqn:Hvalid.
  - destruct (handle_calls eng callerReq s Hvalid) as (t2 & Heq & Ht2).
    destruct (phase_invoked (req_of s) (res_of s) (_middleware eng) (begun callerReq s))
      as (k & _ & _ & Hruns).
    eexists _, t2. split; [exact Heq|]. split; [exact Hruns|]. by apply invoked_unwind.
  - destruct (_handle_invalid eng callerReq s Hvalid) as (e & r & s' & -> & _ & _ & _ & Hc).
    exists [], []. cbn [state_of]. unfold new_calls. by rewrite Hc, drop_all.
Qed.

(** Once a middleware has completed the request, by calling [end] or by
    failing, the middleware after it on the stack are not invoked: when the
    middleware at index [length pre] is reached and [_runMiddleware] reports
    the request complete, the middleware invoked during [_handle] are those
    at the indices [0; ...; length pre]. *)
Theorem no_middleware_after_completion eng callerReq s pre m post hs s3 e hs' s4 :
  reaches eng callerReq s pre m post hs s3 ->
  _runMiddleware (req_of s) (res_of s) m (length pre) hs s3 = Returned (e, true, hs') s4 ->
  invoked (new_calls s (state_of (_handle eng callerReq s))) = seq 0 (S (length pre)).
Proof.
  intros (Hvalid & Hstack & Hloop) Hrun.
  destruct (handle_calls eng callerReq s Hvalid) as (t2 & -> & Ht2).
  rewrite invoked_app, (proj1 (invoked_unwind _ Ht2)), app_nil_r.
  assert (Hst : state_of (_runAllMiddleware (req_of s) (res_of s) (_middleware eng)
                            (begun callerReq s)) = s4).
  { unfold _runAllMiddleware, bind. rewrite Hstack.
    rewrite (middleware_loop_app _ _ _ _ _ _ _ _ _ _ _ _ Hloop).
    rewrite middleware_loop_cons. simpl. by rewrite Hrun. }
  rewrite Hst.
  destruct (middleware_loop_invoked (req_of s) (res_of s) pre 0 VNull false []
              (begun callerReq s)) as (k & _ & Hinv & _ & Hlast).
  rewrite Hloop in Hinv, Hlast. cbn [state_of] in Hinv. subst k.
  pose proof (evolves_middleware_loop (req_of s) (res_of s) pre 0 VNull false []
                (begun callerReq s)) as E1.
  rewrite Hloop in E1. cbn [state_of] in E1.
  pose proof (evolves_runMiddleware (req_of s) (res_of s) m (length pre) hs s3) as E2.
  destruct (_runMiddleware_invoked (req_of s) (res_of s) m (length pre) hs s3) as [Hi _].
  rewrite Hrun in E2, Hi. cbn [state_of] in E2, Hi.
  rewrite (new_calls_trans _ _ _ E1 E2), invoked_app, Hinv, Hi.
  by rewrite seq_S.
Qed.

End Calls.

Lemma no_middleware_after_completion_witness :
  invoked (new_calls state0
             (state_of (_handle (tbl := sampleTable)
                          (engineOf [mwCleanup; mwOk; mwThrowOops]) (VRef 0) state0)))
  = [0; 1].
Proof.
  pose (s3 := state_of (middleware_loop (tbl := sampleTable) 1 2 [mwCleanup] 0
                          VNull false [] (begun (VRef 0) state0))).
  pose (s4 := state_of (_runMiddleware (tbl := sampleTable) 1 2 mwOk 1
                          (cleanupHandlers (tbl := sampleTable)) s3)).
  apply (no_middleware_after_completion (tbl := sampleTable)
           (engineOf [mwCleanup; mwOk; mwThrowOops]) (VRef 0) state0
           [mwCleanup] mwOk [mwThrowOops] (cleanupHandlers (tbl := sampleTable)) s3
           VNull (cleanupHandlers (tbl := sampleTable)) s4).
  - split; [reflexivity|]. split; [reflexivity|]. vm_compute. reflexivity.
  - vm_compute. reflexivity.
Defined.

(** ** How one middleware ends its turn *)

Section Turn.
Context {tbl : ErrorTable}.
Variables (req res : nat) (m : JsonRpcMiddleware) (i : nat) (hs : list collected).
Variables (s s1 : state).

(** The middleware called [end], which returned, and then settled: the
    request is complete, and what the middleware settled with is ignored. *)
Lemma _runMiddleware_ended r :
  exec (end_callback req res) (m req res) (entered i s) = Returned r s1 ->
  endCalled s1 = true ->
  _runMiddleware req res m i hs s = Returned (VNull, true, hs) s1.
Proof.
  intros He Hcalled.
  pose proof (cell_ok_exec req res (m req res) (entered i s) (cell_ok_entered i s)) as Hc.
  rewrite He in Hc. cbn [state_of] in Hc.
  rewrite (_runMiddleware_returned _ _ _ _ _ _ _ _ He), Hcalled, awaited_eq.
  destruct Hc as [[? _]|[_ ->]]; [congruence|done].
Qed.

(** The middleware threw a value that converts before [end] had returned:
    the coerced value is reported. *)
Lemma _runMiddleware_threw_first v :
  res < length (heap s) ->
  exec (end_callback req res) (m req res) (entered i s) = Threw v s1 ->
  converts v s1 = true ->
  endCalled s1 = false ->
  _runMiddleware req res m i hs s
  = Returned ((coerced req v s1).1, true, hs) (caught req res v s1).
Proof.
  intros Hres He Hcv Hcalled.
  assert (Hres1 : res < length (heap s1)).
  { pose proof (ev_length _ _ (evolves_exec req res (m req res) (entered i s))) as Hl.
    rewrite He in Hl. simpl in Hl. lia. }
  pose proof (cell_ok_exec req res (m req res) (entered i s) (cell_ok_entered i s)) as Hc.
  rewrite He in Hc. cbn [state_of] in Hc.
  rewrite (_runMiddleware_threw _ _ _ _ _ _ _ _ He Hcv), awaited_eq.
  rewrite deferred_caught by done.
  destruct Hc as [[_ ->]|[? _]]; [done|congruence].
Qed.

(** The middleware threw a value that converts after [end] had returned:
    the promise is resolved already, and nothing is reported. *)
Lemma _runMiddleware_threw_late v :
  res < length (heap s) ->
  exec (end_callback req res) (m req res) (entered i s) = Threw v s1 ->
  converts v s1 = true ->
  endCalled s1 = true ->
  _runMiddleware req res m i hs s = Returned (VNull, true, hs) (caught req res v s1).
Proof.
  intros Hres He Hcv Hcalled.
  assert (Hres1 : res < length (heap s1)).
  { pose proof (ev_length _ _ (evolves_exec req res (m req res) (entered i s))) as Hl.
    rewrite He in Hl. simpl in Hl. lia. }
  pose proof (cell_ok_exec req res (m req res) (entered i s) (cell_ok_entered i s)) as Hc.
  rewrite He in Hc. cbn [state_of] in Hc.
  rewrite (_runMiddleware_threw _ _ _ _ _ _ _ _ He Hcv), awaited_eq.
  rewrite deferred_caught by done.
  destruct Hc as [[? _]|[_ ->]]; [congruence|done].
Qed.

(** An error of the engine's own is stored as it is. *)
Lemma coerced_erred code message data s0 :
  accepts code message = true ->
  coerced req (error_in s0) (erred code message data s0)
  = (error_in s0, erred code message data s0).
Proof.
  intros Ha. unfold coerced, instanceof_Error. by rewrite instanceof_erred, orb_true_r.
Qed.

(** The engine refuses what the middleware left or returned: the error it
    creates is reported. *)
Lemma awaited_refused code message data :
  accepts code message = true ->
  res < length (heap s1) ->
  deferred s1 = None ->
  awaited hs (caught req res (error_in s1) (erred code message data s1))
  = Returned (error_in s1, true, hs)
      (caught req res (error_in s1) (erred code message data s1)).
Proof.
  intros Ha Hres Hd. rewrite awaited_eq, deferred_caught.
  - by rewrite coerced_erred, deferred_erred, Hd.
  - by apply converts_erred.
  - rewrite heap_erred, length_app. lia.
Qed.

Lemma _runMiddleware_assigned r :
  res < length (heap s) ->
  exec (end_callback req res) (m req res) (entered i s) = Returned r s1 ->
  endCalled s1 = false ->
  truthy (get res "error" s1) = true ->
  _runMiddleware req res m i hs s
  = Returned (error_in s1, true, hs)
      (caught req res (error_in s1)
         (erred (VNum internal) (VStr errorMessages.noAssignmentToResponse)
            (<["request" := VRef req]> {["responseError" := get res "error" s1]}) s1)).
Proof.
  intros Hres He Hcalled Herr.
  assert (Hres1 : res < length (heap s1)).
  { pose proof (ev_length _ _ (evolves_exec req res (m req res) (entered i s))) as Hl.
    rewrite He in Hl. simpl in Hl. lia. }
  pose proof (cell_ok_exec req res (m req res) (entered i s) (cell_ok_entered i s)) as Hc.
  rewrite He in Hc. cbn [state_of] in Hc.
  rewrite (_runMiddleware_returned _ _ _ _ _ _ _ _ He), Hcalled, Herr.
  apply awaited_refused; [done|done|]. destruct Hc as [[_ ->]|[? _]]; [done|congruence].
Qed.

Lemma _runMiddleware_invalid_handler v :
  res < length (heap s) ->
  exec (end_callback req res) (m req res) (entered i s) = Returned (RValue v) s1 ->
  endCalled s1 = false ->
  truthy (get res "error" s1) = false ->
  truthy v = true ->
  _runMiddleware req res m i hs s
  = Returned (error_in s1, true, hs)
      (caught req res (error_in s1)
         (erred (VNum internal) (VStr (errorMessages.invalidReturnHandler v))
            {["request" := VRef req]} s1)).
Proof.
  intros Hres He Hcalled Herr Hv.
  assert (Hres1 : res < length (heap s1)).
  { pose proof (ev_length _ _ (evolves_exec req res (m req res) (entered i s))) as Hl.
    rewrite He in Hl. simpl in Hl. lia. }
  pose proof (cell_ok_exec req res (m req res) (entered i s) (cell_ok_entered i s)) as Hc.
  rewrite He in Hc. cbn [state_of] in Hc.
  rewrite (_runMiddleware_returned _ _ _ _ _ _ _ _ He), Hcalled, Herr, Hv.
  apply awaited_refused; [done|done|]. destruct Hc as [[_ ->]|[? _]]; [done|congruence].
Qed.

(** Whenever the [catch] block has run, the request is complete. *)
Lemma deferred_caught_complete v s0 :
  converts v s0 = true ->
  cell_ok s0 -> exists e, deferred (caught req res v s0) = Some (e, true).
Proof.
  intros Hcv Hc. rewrite caught_coerced by done. cbn zeta. rewrite deferred_resolve.
  change (deferred (set_prop res "error" (coerced req v s0).1 (coerced req v s0).2))
    with (deferred (coerced req v s0).2).
  rewrite deferred_coerced.
  destruct Hc as [[_ ->]|[_ ->]]; simpl; eauto.
Qed.

(** The middleware settled without calling [end], left no error on the
    response and returned no truthy value other than a function: the next
    middleware has its turn. *)
Lemma _runMiddleware_passed e hs' s' :
  _runMiddleware req res m i hs s = Returned (e, false, hs') s' ->
  e = VNull /\ truthy (get res "error" s') = false.
Proof.
  pose proof (cell_ok_exec req res (m req res) (entered i s) (cell_ok_entered i s)) as Hc.
  assert (Hcaught : forall v s0 hs0,
            converts v s0 = true ->
            cell_ok s0 ->
            awaited hs0 (caught req res v s0) = Returned (e, false, hs') s' -> False).
  { intros v s0 hs0 Hcv Hs0. rewrite awaited_eq.
    destruct (deferred_caught_complete v s0 Hcv Hs0) as [e0 ->]. by intros [= _ _ _]. }
  destruct (exec (end_callback req res) (m req res) (entered i s))
    as [r s2|v s2|s2] eqn:He; cbn [state_of] in Hc.
  - rewrite (_runMiddleware_returned _ _ _ _ _ _ _ _ He).
    destruct (endCalled s2) eqn:Hcalled.
    { rewrite awaited_eq. destruct Hc as [[? _]|[_ ->]]; [congruence|done]. }
    assert (Hd : deferred s2 = None) by (destruct Hc as [[_ ->]|[? _]]; [done|congruence]).
    destruct (truthy (get res "error" s2)) eqn:Herr.
    { intros Ha. exfalso. eapply Hcaught; [| |exact Ha]; [by apply converts_erred|].
      left. by rewrite endCalled_erred, deferred_erred. }
    destruct r as [v|h].
    + destruct (truthy v).
      { intros Ha. exfalso. eapply Hcaught; [| |exact Ha]; [by apply converts_erred|].
      left. by rewrite endCalled_erred, deferred_erred. }
      rewrite awaited_eq, deferred_resolve, Hd. simpl. intros [= <- <- <-].
      by rewrite get_resolve.
    + rewrite awaited_eq, deferred_resolve. simpl. rewrite Hd. simpl.
      intros [= <- <- <-]. by rewrite get_resolve.
  - destruct (converts v s2) eqn:Hcv.
    + rewrite (_runMiddleware_threw _ _ _ _ _ _ _ _ He Hcv). intros Ha.
      destruct (Hcaught _ _ _ Hcv Hc Ha).
    + by rewrite (_runMiddleware_refused _ _ _ _ _ _ _ _ He Hcv).
  - by rewrite (_runMiddleware_pending _ _ _ _ _ _ _ He).
Qed.

End Turn.

(** ** From one middleware's turn to the callback *)

Section Outcome.
Context {tbl : ErrorTable}.
Variables (eng : JsonRpcEngine) (callerReq : value) (s : state).
Variables (pre : list JsonRpcMiddleware) (m : JsonRpcMiddleware)
          (post : list JsonRpcMiddleware) (hs : list collected) (s3 : state).

Hypothesis Hreach : reaches eng callerReq s pre m post hs s3.

(** The loop ends with the middleware that completes the request. *)
Lemma phase_of_turn e hs' sC :
  _runMiddleware (req_of s) (res_of s) m (length pre) hs s3 = Returned (e, true, hs') sC ->
  _runAllMiddleware (req_of s) (res_of s) (_middleware eng) (begun callerReq s)
  = Returned (e, true, reverse hs') sC.
Proof.
  intros Hrun. destruct Hreach as (_ & Hstack & Hloop).
  unfold _runAllMiddleware, bind. rewrite Hstack.
  rewrite (middleware_loop_app _ _ _ _ _ _ _ _ _ _ _ _ Hloop).
  rewrite middleware_loop_cons. simpl. by rewrite Hrun.
Qed.

Lemma pending_of_turn sP :
  run_of callerReq s pre m s3 = Pending sP ->
  _handle eng callerReq s = Pending sP.
Proof.
  intros Hrun. destruct Hreach as (Hvalid & Hstack & Hloop).
  pose proof (_handle_valid_outcome eng callerReq s Hvalid) as Ho.
  assert (Hproc : _processRequest eng (req_of s) (res_of s) (begun callerReq s)
                  = Pending sP).
  { unfold _processRequest, _runAllMiddleware. unfold bind at 1 2. rewrite Hstack.
    rewrite (middleware_loop_app _ _ _ _ _ _ _ _ _ _ _ _ Hloop).
    rewrite middleware_loop_cons. simpl.
    by rewrite (_runMiddleware_pending _ _ _ _ _ _ _ Hrun). }
  by rewrite Hproc in Ho.
Qed.

Lemma turn_length r s4 :
  run_of callerReq s pre m s3 = r -> state_of r = s4 -> res_of s < length (heap s4).
Proof.
  intros <- <-.
  pose proof (reached_length _ _ _ _ _ _ _ _ Hreach) as H3.
  pose proof (ev_length _ _
    (evolves_exec (req_of s) (res_of s) (m (req_of s) (res_of s))
       (entered (length pre) s3))) as Hl.
  unfold run_of.
  change (length (heap (entered (length pre) s3))) with (length (heap s3)) in Hl. lia.
Qed.

End Outcome.

Section Reported.
Context {tbl : ErrorTable}.
Variables (eng : JsonRpcEngine) (callerReq : value) (s : state).
Variables (e : value) (hs : list collected) (sC : state).

Hypothesis Hvalid : valid_request callerReq s = true.
Hypothesis Hphase :
  _runAllMiddleware (req_of s) (res_of s) (_middleware eng) (begun callerReq s)
  = Returned (e, true, hs) sC.

Lemma phase_length : res_of s < length (heap sC).
Proof.
  pose proof (evolves_runAllMiddleware (req_of s) (res_of s) (_middleware eng)
                (begun callerReq s)) as Hev.
  rewrite Hphase in Hev. destruct Hev as [_ E].
  pose proof (ev_length _ _ E) as Hl. rewrite length_heap_begun in Hl.
  unfold res_of. lia.
Qed.

(** The phase left an error on the response; if the unwind settles and
    leaves the error property alone, the response handed to the callback
    holds this error; apart from the response object, the store is as the
    unwind left it. *)
Lemma response_of_error L :
  truthy (get (res_of s) "error" sC) = true ->
  unwind_keeps (res_of s) L hs sC ->
  exists err s',
    _handle eng callerReq s = Returned (err, res_of s) s'
    /\ get (res_of s) "error" s' = get (res_of s) "error" sC
    /\ (forall l, l <> res_of s ->
          heap s' !! l = heap (state_of (_runReturnHandlers hs sC)) !! l).
Proof.
  intros Herr (Hsettles & Hkeeps & _).
  assert (Hcheck : has (res_of s) "result" sC || has (res_of s) "error" sC = true).
  { rewrite (has_get_truthy _ _ _ Herr). apply orb_true_r. }
  rewrite (_handle_of_phase _ _ _ _ _ _ Hvalid Hphase Hcheck).
  set (o := _runReturnHandlers _ _) in *.
  assert (Hfin : forall err sU, state_of o = sU ->
            exists s', finish (res_of s) err sU = Returned (err, res_of s) s'
              /\ get (res_of s) "error" s' = get (res_of s) "error" sC
              /\ (forall l, l <> res_of s -> heap s' !! l = heap sU !! l)).
  { intros err sU <-. destruct (truthy err) eqn:Ht.
    - eexists. split.
      + apply finish_attached; [done|]. by rewrite Hkeeps.
      + split.
        * rewrite get_del_prop_ne by (by right). exact Hkeeps.
        * intros l Hl. by rewrite lookup_del_prop_ne.
    - eexists. split; [by apply finish_falsy|]. by split. }
  destruct o as [[] sU|x sU|sU] eqn:Ho.
  - destruct (Hfin (if truthy e then e else VNull) sU eq_refl) as (s' & ? & ? & ?). eauto.
  - destruct (Hfin x sU eq_refl) as (s' & ? & ? & ?). eauto.
  - by destruct (Hsettles sU).
Qed.

(** The [catch] block of [_runMiddleware] stored a new standardized error:
    the response handed to the callback holds it, with its code, message and
    data. *)
Lemma response_of_wrapped v s4 s0 code message data :
  sC = caught (req_of s) (res_of s) v s4 ->
  converts v s4 = true ->
  accepts code message = true ->
  res_of s < length (heap s4) ->
  coerced (req_of s) v s4 = (error_in s0, erred code message data s0) ->
  res_of s < length (heap s0) ->
  unwind_keeps (res_of s) [length (heap s0); S (length (heap s0))] hs sC ->
  exists err s',
    _handle eng callerReq s = Returned (err, res_of s) s'
    /\ read_error (get (res_of s) "error" s') s' = Some (code, message, data).
Proof.
  intros HsC Hcv Ha Hres4 Hco Hres0 Hkeeps.
  assert (Hget : get (res_of s) "error" sC = error_in s0).
  { rewrite HsC, get_error_caught by done. by rewrite Hco. }
  destruct (response_of_error _ (eq_trans (f_equal truthy Hget) eq_refl) Hkeeps)
    as (err & s' & Hhandle & Herror & Hframe).
  exists err, s'. split; [exact Hhandle|].
  destruct Hkeeps as (_ & _ & HL).
  rewrite Herror, Hget.
  assert (Hat : forall l, l ∈ [length (heap s0); S (length (heap s0))] ->
            heap s' !! l = heap (erred code message data s0) !! l).
  { intros l Hl.
    assert (l <> res_of s).
    { apply elem_of_cons in Hl as [->|Hl]; [lia|].
      apply elem_of_cons in Hl as [->|Hl]; [lia|]. by apply elem_of_nil in Hl. }
    rewrite Hframe by done. rewrite (HL l Hl).
    rewrite HsC, heap_caught, lookup_set_prop_ne by done. by rewrite Hco. }
  apply read_error_erred_at; [done| |]; apply Hat; set_solver.
Qed.

End Reported.

(** ** What the callback gets, by the way a middleware ended its turn *)

Section Turns.
Context {tbl : ErrorTable}.

(** When a middleware has called [end], which returned, and then settles,
    with a [result] or an [error] property on the response, and the handlers
    collected from the middleware before it all return: the callback gets
    [null] and the response as the last handler left it.  The engine changes
    nothing after the unwind, and it ignores what the middleware settled
    with: a function is not collected, another value is not refused. *)
Theorem ended_request_succeeds eng callerReq s pre m post hs s3 r s4 sU :
  reaches eng callerReq s pre m post hs s3 ->
  run_of callerReq s pre m s3 = Returned r s4 ->
  endCalled s4 = true ->
  has (res_of s) "result" s4 || has (res_of s) "error" s4 = true ->
  _runReturnHandlers (reverse hs) s4 = Returned tt sU ->
  _handle eng callerReq s = Returned (VNull, res_of s) sU.
Proof.
  intros Hreach Hrun Hcalled Hcheck Hunwind.
  pose proof (_runMiddleware_ended _ _ _ _ hs _ _ _ Hrun Hcalled) as Hturn.
  pose proof (phase_of_turn _ _ _ _ _ _ _ _ Hreach _ _ _ Hturn) as Hphase.
  destruct Hreach as (Hvalid & _).
  rewrite (_handle_of_phase _ _ _ _ _ _ Hvalid Hphase Hcheck), Hunwind.
  by apply finish_falsy.
Qed.

(** When a middleware throws, before [end] has returned, a value that
    [_processMiddlewareError] converts (any value but an [Error] with a
    message that the constructor of [EthereumRpcError] refuses), the handlers
    collected before it all return and the response still holds the coerced
    error after them: the callback gets that very error, the one the response
    holds, and the response has lost its [result]; the engine changes nothing
    else after the unwind. *)
Theorem thrown_error_is_handed_to_callback eng callerReq s pre m post hs s3 v s4 sU :
  reaches eng callerReq s pre m post hs s3 ->
  run_of callerReq s pre m s3 = Threw v s4 ->
  converts v s4 = true ->
  endCalled s4 = false ->
  _runReturnHandlers (reverse hs) (caught (req_of s) (res_of s) v s4) = Returned tt sU ->
  get (res_of s) "error" sU = (coerced (req_of s) v s4).1 ->
  _handle eng callerReq s
  = Returned ((coerced (req_of s) v s4).1, res_of s) (del_prop (res_of s) "result" sU).
Proof.
  intros Hreach Hrun Hcv Hcalled Hunwind Hkept.
  pose proof (reached_length _ _ _ _ _ _ _ _ Hreach) as Hres3.
  pose proof (thrown_length _ _ _ _ _ _ _ _ _ _ Hreach Hrun) as Hres4.
  pose proof (_runMiddleware_threw_first _ _ _ _ hs _ _ _ Hres3 Hrun Hcv Hcalled) as Hturn.
  pose proof (phase_of_turn _ _ _ _ _ _ _ _ Hreach _ _ _ Hturn) as Hphase.
  destruct Hreach as (Hvalid & _).
  assert (Hcheck : has (res_of s) "result" (caught (req_of s) (res_of s) v s4)
                   || has (res_of s) "error" (caught (req_of s) (res_of s) v s4) = true).
  { rewrite has_error_caught by done. apply orb_true_r. }
  rewrite (_handle_of_phase _ _ _ _ _ _ Hvalid Hphase Hcheck), Hunwind.
  rewrite truthy_coerced.
  apply finish_attached; [apply truthy_coerced|].
  rewrite Hkept. apply truthy_coerced.
Qed.

(** When a middleware throws, after its call of [end] has returned, a value
    that [_processMiddlewareError] converts (any value but an [Error] with a
    message that the constructor of [EthereumRpcError] refuses), and the
    handlers collected before it all return: the coerced error is stored on
    the response, which keeps its [result], and the callback gets [null] and
    the response as the last handler left it. *)
Theorem error_thrown_after_end_is_not_reported
    eng callerReq s pre m post hs s3 v s4 sU :
  reaches eng callerReq s pre m post hs s3 ->
  run_of callerReq s pre m s3 = Threw v s4 ->
  converts v s4 = true ->
  endCalled s4 = true ->
  _runReturnHandlers (reverse hs) (caught (req_of s) (res_of s) v s4) = Returned tt sU ->
  _handle eng callerReq s = Returned (VNull, res_of s) sU
  /\ get (res_of s) "error" (caught (req_of s) (res_of s) v s4)
     = (coerced (req_of s) v s4).1
  /\ get (res_of s) "result" (caught (req_of s) (res_of s) v s4)
     = get (res_of s) "result" s4.
Proof.
  intros Hreach Hrun Hcv Hcalled Hunwind.
  pose proof (reached_length _ _ _ _ _ _ _ _ Hreach) as Hres3.
  pose proof (thrown_length _ _ _ _ _ _ _ _ _ _ Hreach Hrun) as Hres4.
  pose proof (_runMiddleware_threw_late _ _ _ _ hs _ _ _ Hres3 Hrun Hcv Hcalled) as Hturn.
  pose proof (phase_of_turn _ _ _ _ _ _ _ _ Hreach _ _ _ Hturn) as Hphase.
  destruct Hreach as (Hvalid & _).
  assert (Hcheck : has (res_of s) "result" (caught (req_of s) (res_of s) v s4)
                   || has (res_of s) "error" (caught (req_of s) (res_of s) v s4) = true).
  { rewrite has_error_caught by done. apply orb_true_r. }
  split; [|split].
  - rewrite (_handle_of_phase _ _ _ _ _ _ Hvalid Hphase Hcheck), Hunwind.
    by apply finish_falsy.
  - by apply get_error_caught.
  - rewrite caught_coerced by done. cbn zeta. rewrite get_resolve.
    rewrite get_set_prop_ne by (by right).
    unfold get. by rewrite lookup_coerced_old.
Qed.

(** When a middleware never settles, neither does the processing of the
    request: [_handle] stays pending where the middleware left off, and the
    promise of [_promiseHandle] stays unsettled. *)
Theorem pending_middleware_leaves_request_pending eng callerReq s pre m post hs s3 sP :
  reaches eng callerReq s pre m post hs s3 ->
  run_of callerReq s pre m s3 = Pending sP ->
  _handle eng callerReq s = Pending sP
  /\ _promiseHandle eng callerReq s = Unsettled sP.
Proof.
  intros Hreach Hrun.
  pose proof (pending_of_turn _ _ _ _ _ _ _ _ Hreach _ Hrun) as Hh.
  split; [exact Hh|]. unfold _promiseHandle. by rewrite Hh.
Qed.

(** When a middleware settles with a truthy value that is not a function,
    without having called [end] and with no truthy [error] on the response,
    and the unwind of the handlers collected before it settles without
    touching the response's error: the response handed over has as its error
    a standardized error with the internal code, the message "JsonRpcEngine:
    Return handlers must be functions. Received: <typeof value>." and the
    request as data. *)
Theorem non_function_return_value_is_refused eng callerReq s pre m post hs s3 v s4 :
  reaches eng callerReq s pre m post hs s3 ->
  run_of callerReq s pre m s3 = Returned (RValue v) s4 ->
  endCalled s4 = false ->
  truthy (get (res_of s) "error" s4) = false ->
  truthy v = true ->
  unwind_keeps (res_of s) [length (heap s4); S (length (heap s4))] (reverse hs)
    (caught (req_of s) (res_of s) (error_in s4)
       (erred (VNum internal) (VStr (errorMessages.invalidReturnHandler v))
          {["request" := VRef (req_of s)]} s4)) ->
  exists err s',
    _handle eng callerReq s = Returned (err, res_of s) s'
    /\ read_error (get (res_of s) "error" s') s'
       = Some (VNum internal, VStr (errorMessages.invalidReturnHandler v),
               {["request" := VRef (req_of s)]}).
Proof.
  intros Hreach Hrun Hcalled Herr Hv Hkeeps.
  pose proof (reached_length _ _ _ _ _ _ _ _ Hreach) as Hres3.
  pose proof (turn_length _ _ _ _ _ _ _ _ Hreach _ s4 Hrun eq_refl) as Hres4.
  pose proof (_runMiddleware_invalid_handler _ _ _ _ hs _ _ _ Hres3 Hrun Hcalled Herr Hv)
    as Hturn.
  pose proof (phase_of_turn _ _ _ _ _ _ _ _ Hreach _ _ _ Hturn) as Hphase.
  destruct Hreach as (Hvalid & _).
  apply (response_of_wrapped _ _ _ _ _ _ Hvalid Hphase _ _ s4 _ _ _ eq_refl).
  - by apply converts_erred.
  - done.
  - rewrite heap_erred, length_app. simpl. lia.
  - by apply coerced_erred.
  - done.
  - exact Hkeeps.
Qed.

(** When a middleware settles without having called [end] and leaves a
    truthy [error] on the response, and the unwind of the handlers collected
    before it settles without touching the response's error: the response
    handed over has as its error not the value assigned but a standardized
    error with the internal code, the message "JsonRpcEngine: The response
    "error" property must not be directly assigned. Throw errors instead."
    and the data [{request, responseError}], where [responseError] is the
    value assigned. *)
Theorem assigned_error_is_replaced eng callerReq s pre m post hs s3 r s4 :
  reaches eng callerReq s pre m post hs s3 ->
  run_of callerReq s pre m s3 = Returned r s4 ->
  endCalled s4 = false ->
  truthy (get (res_of s) "error" s4) = true ->
  unwind_keeps (res_of s) [length (heap s4); S (length (heap s4))] (reverse hs)
    (caught (req_of s) (res_of s) (error_in s4)
       (erred (VNum internal) (VStr errorMessages.noAssignmentToResponse)
          (<["request" := VRef (req_of s)]>
             {["responseError" := get (res_of s) "error" s4]}) s4)) ->
  exists err s',
    _handle eng callerReq s = Returned (err, res_of s) s'
    /\ read_error (get (res_of s) "error" s') s'
       = Some (VNum internal, VStr errorMessages.noAssignmentToResponse,
               <["request" := VRef (req_of s)]>
                 {["responseError" := get (res_of s) "error" s4]}).
Proof.
  intros Hreach Hrun Hcalled Herr Hkeeps.
  pose proof (reached_length _ _ _ _ _ _ _ _ Hreach) as Hres3.
  pose proof (turn_length _ _ _ _ _ _ _ _ Hreach _ s4 Hrun eq_refl) as Hres4.
  pose proof (_runMiddleware_assigned _ _ _ _ hs _ _ _ Hres3 Hrun Hcalled Herr) as Hturn.
  pose proof (phase_of_turn _ _ _ _ _ _ _ _ Hreach _ _ _ Hturn) as Hphase.
  destruct Hreach as (Hvalid & _).
  apply (response_of_wrapped _ _ _ _ _ _ Hvalid Hphase _ _ s4 _ _ _ eq_refl).
  - by apply converts_erred.
  - done.
  - rewrite heap_erred, length_app. simpl. lia.
  - by apply coerced_erred.
  - done.
  - exact Hkeeps.
Qed.

(** When a middleware throws an instance of [Error] that is not an
    [EthereumRpcError] and whose message is a nonempty string (so that the
    constructor accepts it, with the code of the error if that is valid and
    the internal code if not), and the unwind of the handlers collected
    before it settles without touching the response's error: the response
    handed over has as its error a new standardized error with the code of
    the thrown error if that is a valid code and the internal code if it is
    not, the message of the thrown error, and the data
    [{request, originalError}], where [originalError] is the thrown error. *)
Theorem error_instance_thrown_is_converted eng callerReq s pre m post hs s3 v s4 :
  reaches eng callerReq s pre m post hs s3 ->
  run_of callerReq s pre m s3 = Threw v s4 ->
  instanceof_Error v s4 = true ->
  instanceof_EthereumRpcError v s4 = false ->
  accepts (if isValidCode (prop_of v "code" s4) then prop_of v "code" s4 else VNum internal)
          (prop_of v "message" s4) = true ->
  unwind_keeps (res_of s) [length (heap s4); S (length (heap s4))] (reverse hs)
    (caught (req_of s) (res_of s) v s4) ->
  exists err s',
    _handle eng callerReq s = Returned (err, res_of s) s'
    /\ read_error (get (res_of s) "error" s') s'
       = Some (if isValidCode (prop_of v "code" s4)
               then prop_of v "code" s4 else VNum internal,
               prop_of v "message" s4,
               <["request" := VRef (req_of s)]> {["originalError" := v]}).
Proof.
  intros Hreach Hrun Herror Hrpc Ha Hkeeps.
  pose proof (thrown_length _ _ _ _ _ _ _ _ _ _ Hreach Hrun) as Hres4.
  assert (Hcv : converts v s4 = true).
  { unfold converts. by rewrite Ha, orb_true_r. }
  destruct (phase_of_throw _ _ _ _ _ _ _ _ _ _ Hreach Hrun Hcv) as (e & Hphase & _).
  destruct Hreach as (Hvalid & _).
  apply (response_of_wrapped _ _ _ _ _ _ Hvalid Hphase v s4 s4 _ _ _ eq_refl Hcv Ha);
    try done.
  unfold coerced. by rewrite Herror, Hrpc.
Qed.

(** When a middleware throws an instance of [Error] that
    [_processMiddlewareError] cannot convert (it is not an
    [EthereumRpcError], and its message is empty or not a string), the
    constructor throws inside the [catch] block of [_runMiddleware]: the
    middleware phase throws the [Error] of the constructor, the completion
    check and the unwind are skipped, so that no handler is invoked, whatever
    was collected; [_handle] hands that [Error] to the callback, not a
    standardized error; the response loses its [result] and, when it holds no
    truthy [error], gets the serialized [Error] as its error. *)
Theorem unconvertible_error_skips_the_unwind eng callerReq s pre m post hs s3 v s4 :
  reaches eng callerReq s pre m post hs s3 ->
  run_of callerReq s pre m s3 = Threw v s4 ->
  converts v s4 = false ->
  _runAllMiddleware (req_of s) (res_of s) (_middleware eng) (begun callerReq s)
  = Threw (error_in s4) (caught (req_of s) (res_of s) v s4)
  /\ exists s',
       _handle eng callerReq s = Returned (error_in s4, res_of s) s'
       /\ class_of (error_in s4) s' = Some CError
       /\ runs (new_calls s s') = []
       /\ has (res_of s) "result" s' = false
       /\ has (res_of s) "error" s' = true
       /\ (truthy (get (res_of s) "error" s4) = false ->
           deref (get (res_of s) "error" s') s'
           = Some (serializeError
                     (heap (del_prop (res_of s) "result"
                              (caught (req_of s) (res_of s) v s4)))
                     (error_in s4))).
Proof.
  intros Hreach Hrun Hcv.
  pose proof (thrown_length _ _ _ _ _ _ _ _ _ _ Hreach Hrun) as Hres4.
  destruct Hreach as (Hvalid & Hstack & Hloop).
  set (sX := caught (req_of s) (res_of s) v s4).
  assert (Hphase : _runAllMiddleware (req_of s) (res_of s) (_middleware eng)
                     (begun callerReq s) = Threw (error_in s4) sX).
  { unfold _runAllMiddleware, bind. rewrite Hstack.
    rewrite (middleware_loop_app _ _ _ _ _ _ _ _ _ _ _ _ Hloop).
    rewrite middleware_loop_cons. simpl.
    by rewrite (_runMiddleware_refused _ _ _ _ _ _ _ _ Hrun Hcv). }
  split; [exact Hphase|].
  assert (HresX : res_of s < length (heap sX)).
  { pose proof (ev_length _ _ (evolves_caught (req_of s) (res_of s) v s4)). unfold sX. lia. }
  assert (Hruns : runs (new_calls s sX) = []).
  { destruct (phase_invoked (req_of s) (res_of s) (_middleware eng) (begun callerReq s))
      as (k & _ & _ & Hr).
    rewrite Hphase in Hr. cbn [state_of] in Hr.
    by rewrite (new_calls_same s (begun callerReq s)) by (by rewrite calls_begun). }
  assert (Hcls : class_of (error_in s4) sX = Some CError) by (by apply refused_class).
  assert (Hget : get (res_of s) "error" sX = get (res_of s) "error" s4).
  { unfold sX. rewrite caught_refused by done. unfold get. by rewrite lookup_coerced_old. }
  pose proof (_handle_valid_outcome eng callerReq s Hvalid) as Ho.
  unfold _processRequest in Ho. unfold bind at 1 in Ho. rewrite Hphase in Ho. rewrite Ho.
  destruct (finish_truthy (res_of s) (error_in s4) sX HresX eq_refl)
    as (s' & Hfin & Herror & Hresult).
  pose proof (evolves_finish (res_of s) (error_in s4) sX) as Hev.
  pose proof (calls_finish _ _ _ _ _ Hfin) as Hcalls.
  rewrite Hfin in Hev. cbn [state_of] in Hev.
  exists s'. split; [exact Hfin|]. split_and!; try done.
  - unfold class_of, error_in in *. rewrite (ev_class _ _ Hev); [done|].
    destruct (heap sX !! S (length (heap s4))) eqn:E; [|done].
    by apply lookup_lt_Some in E.
  - unfold new_calls in *. by rewrite Hcalls.
  - intros Hfalsy. rewrite <- Hget in Hfalsy.
    rewrite (finish_serialized (res_of s) (error_in s4) sX eq_refl Hfalsy) in Hfin.
    injection Hfin as <-.
    rewrite get_set_prop_eq by (simpl; rewrite length_app, length_alter; lia).
    unfold deref. simpl. rewrite list_lookup_alter_ne by lia.
    rewrite <- (length_alter
                  (fun o => Obj (cls o) (delete "result" (props o))) (heap sX) (res_of s)).
    by rewrite list_lookup_middle.
Qed.

End Turns.

Lemma ended_request_succeeds_witness :
  exists sU,
    _handle (tbl := sampleTable) (engineOf [mwCleanup; mwOk]) (VRef 0) state0
    = Returned (VNull, 2) sU
    /\ get 2 "result" sU = VNum 42
    /\ get 2 "cleaned" sU = VBool true.
Proof.
  pose (s3 := state_of (middleware_loop (tbl := sampleTable) 1 2 [mwCleanup] 0
                          VNull false [] (begun (VRef 0) state0))).
  pose (s4 := state_of (run_of (tbl := sampleTable) (VRef 0) state0 [mwCleanup] mwOk s3)).
  pose (sU := state_of (_runReturnHandlers
                          (reverse (cleanupHandlers (tbl := sampleTable))) s4)).
  exists sU. split; [|split; vm_compute; reflexivity].
  apply (ended_request_succeeds (tbl := sampleTable)
           (engineOf [mwCleanup; mwOk]) (VRef 0) state0
           [mwCleanup] mwOk [] (cleanupHandlers (tbl := sampleTable)) s3
           (RValue VUndefined) s4 sU).
  - split; [reflexivity|]. split; [reflexivity|]. vm_compute. reflexivity.
  - vm_compute. reflexivity.
  - reflexivity.
  - reflexivity.
  - vm_compute. reflexivity.
Defined.

Lemma thrown_error_is_handed_to_callback_witness :
  exists e s',
    _handle (tbl := sampleTable) (engineOf [mwCleanup; mwThrowOops]) (VRef 0) state0
    = Returned (e, 2) s'
    /\ get 2 "error" s' = e
    /\ truthy e = true
    /\ has 2 "result" s' = false.
Proof.
  pose (s3 := state_of (middleware_loop (tbl := sampleTable) 1 2 [mwCleanup] 0
                          VNull false [] (begun (VRef 0) state0))).
  pose (s4 := state_of (run_of (tbl := sampleTable) (VRef 0) state0
                          [mwCleanup] mwThrowOops s3)).
  pose (sU := state_of (_runReturnHandlers
                          (reverse (cleanupHandlers (tbl := sampleTable)))
                          (caught (tbl := sampleTable) 1 2 (VStr "oops") s4))).
  exists (coerced (tbl := sampleTable) 1 (VStr "oops") s4).1, (del_prop 2 "result" sU).
  split; [|split; [|split]; vm_compute; reflexivity].
  apply (thrown_error_is_handed_to_callback (tbl := sampleTable)
           (engineOf [mwCleanup; mwThrowOops]) (VRef 0) state0
           [mwCleanup] mwThrowOops [] (cleanupHandlers (tbl := sampleTable)) s3
           (VStr "oops") s4 sU).
  - split; [reflexivity|]. split; [reflexivity|]. vm_compute. reflexivity.
  - vm_compute. reflexivity.
  - reflexivity.
  - reflexivity.
  - vm_compute. reflexivity.
  - vm_compute. reflexivity.
Defined.

Lemma error_thrown_after_end_is_not_reported_witness :
  exists sU,
    _handle (tbl := sampleTable) (engineOf [mwEndThenThrow]) (VRef 0) state0
    = Returned (VNull, 2) sU
    /\ truthy (get 2 "error" sU) = true
    /\ get 2 "result" sU = VNum 42.
Proof.
  pose (s4 := state_of (run_of (tbl := sampleTable) (VRef 0) state0
                          [] mwEndThenThrow (begun (VRef 0) state0))).
  pose (sU := caught (tbl := sampleTable) 1 2 (VStr "late") s4).
  exists sU. split; [|split; vm_compute; reflexivity].
  apply (error_thrown_after_end_is_not_reported (tbl := sampleTable)
           (engineOf [mwEndThenThrow]) (VRef 0) state0
           [] mwEndThenThrow [] [] (begun (VRef 0) state0) (VStr "late") s4 sU).
  - split; [reflexivity|]. split; reflexivity.
  - vm_compute. reflexivity.
  - reflexivity.
  - reflexivity.
  - reflexivity.
Defined.

Lemma pending_middleware_leaves_request_pending_witness :
  exists sP,
    _handle (tbl := sampleTable) (engineOf [mwCleanup; mwHang; mwOk]) (VRef 0) state0
    = Pending sP
    /\ _promiseHandle (tbl := sampleTable) (engineOf [mwCleanup; mwHang; mwOk])
         (VRef 0) state0
       = Unsettled sP.
Proof.
  pose (s3 := state_of (middleware_loop (tbl := sampleTable) 1 2 [mwCleanup] 0
                          VNull false [] (begun (VRef 0) state0))).
  pose (sP := state_of (run_of (tbl := sampleTable) (VRef 0) state0
                          [mwCleanup] mwHang s3)).
  exists sP.
  apply (pending_middleware_leaves_request_pending (tbl := sampleTable)
           (engineOf [mwCleanup; mwHang; mwOk]) (VRef 0) state0
           [mwCleanup] mwHang [mwOk] (cleanupHandlers (tbl := sampleTable)) s3 sP).
  - split; [reflexivity|]. split; [reflexivity|]. vm_compute. reflexivity.
  - vm_compute. reflexivity.
Defined.

Lemma non_function_return_value_is_refused_witness :
  exists err s',
    _handle (tbl := sampleTable) (engineOf [mwCleanup; mwReturnFive]) (VRef 0) state0
    = Returned (err, 2) s'
    /\ read_error (get 2 "error" s') s'
       = Some (VNum (-32603),
               VStr "JsonRpcEngine: Return handlers must be functions. Received: number.",
               {["request" := VRef 1]}).
Proof.
  pose (s3 := state_of (middleware_loop (tbl := sampleTable) 1 2 [mwCleanup] 0
                          VNull false [] (begun (VRef 0) state0))).
  pose (s4 := state_of (run_of (tbl := sampleTable) (VRef 0) state0
                          [mwCleanup] mwReturnFive s3)).
  apply (non_function_return_value_is_refused (tbl := sampleTable)
           (engineOf [mwCleanup; mwReturnFive]) (VRef 0) state0
           [mwCleanup] mwReturnFive [] (cleanupHandlers (tbl := sampleTable)) s3
           (VNum 5) s4).
  - split; [reflexivity|]. split; [reflexivity|]. vm_compute. reflexivity.
  - vm_compute. reflexivity.
  - reflexivity.
  - reflexivity.
  - reflexivity.
  - split; [|split].
    + intros sP HP. vm_compute in HP. discriminate HP.
    + vm_compute. reflexivity.
    + intros l Hl.
      apply elem_of_cons in Hl as [->|Hl]; [vm_compute; reflexivity|].
      apply elem_of_cons in Hl as [->|Hl]; [vm_compute; reflexivity|].
      by apply elem_of_nil in Hl.
Defined.

Lemma assigned_error_is_replaced_witness :
  exists err s',
    _handle (tbl := sampleTable) (engineOf [mwCleanup; mwAssignError]) (VRef 0) state0
    = Returned (err, 2) s'
    /\ read_error (get 2 "error" s') s'
       = Some (VNum (-32603), VStr errorMessages.noAssignmentToResponse,
               <["request" := VRef 1]> {["responseError" := VStr "bad"]}).
Proof.
  pose (s3 := state_of (middleware_loop (tbl := sampleTable) 1 2 [mwCleanup] 0
                          VNull false [] (begun (VRef 0) state0))).
  pose (s4 := state_of (run_of (tbl := sampleTable) (VRef 0) state0
                          [mwCleanup] mwAssignError s3)).
  apply (assigned_error_is_replaced (tbl := sampleTable)
           (engineOf [mwCleanup; mwAssignError]) (VRef 0) state0
           [mwCleanup] mwAssignError [] (cleanupHandlers (tbl := sampleTable)) s3
           (RValue VUndefined) s4).
  - split; [reflexivity|]. split; [reflexivity|]. vm_compute. reflexivity.
  - vm_compute. reflexivity.
  - reflexivity.
  - reflexivity.
  - split; [|split].
    + intros sP HP. vm_compute in HP. discriminate HP.
    + vm_compute. reflexivity.
    + intros l Hl.
      apply elem_of_cons in Hl as [->|Hl]; [vm_compute; reflexivity|].
      apply elem_of_cons in Hl as [->|Hl]; [vm_compute; reflexivity|].
      by apply elem_of_nil in Hl.
Defined.

Lemma error_instance_thrown_is_converted_witness :
  exists err s',
    _handle (tbl := sampleTable) (engineOf [mwCleanup; mwThrowError]) (VRef 0) state0
    = Returned (err, 2) s'
    /\ read_error (get 2 "error" s') s'
       = Some (VNum (-32000), VStr "boom",
               <["request" := VRef 1]> {["originalError" := VRef 3]}).
Proof.
  pose (s3 := state_of (middleware_loop (tbl := sampleTable) 1 2 [mwCleanup] 0
                          VNull false [] (begun (VRef 0) state0))).
  pose (s4 := state_of (run_of (tbl := sampleTable) (VRef 0) state0
                          [mwCleanup] mwThrowError s3)).
  apply (error_instance_thrown_is_converted (tbl := sampleTable)
           (engineOf [mwCleanup; mwThrowError]) (VRef 0) state0
           [mwCleanup] mwThrowError [] (cleanupHandlers (tbl := sampleTable)) s3
           (VRef 3) s4).
  - split; [reflexivity|]. split; [reflexivity|]. vm_compute. reflexivity.
  - vm_compute. reflexivity.
  - reflexivity.
  - reflexivity.
  - reflexivity.
  - split; [|split].
    + intros sP HP. vm_compute in HP. discriminate HP.
    + vm_compute. reflexivity.
    + intros l Hl.
      apply elem_of_cons in Hl as [->|Hl]; [vm_compute; reflexivity|].
      apply elem_of_cons in Hl as [->|Hl]; [vm_compute; reflexivity|].
      by apply elem_of_nil in Hl.
Defined.

Lemma unconvertible_error_skips_the_unwind_witness :
  exists x s',
    _handle (tbl := sampleTable) (engineOf [mwCleanup; mwThrowEmptyError]) (VRef 0) state0
    = Returned (x, 2) s'
    /\ class_of x s' = Some CError
    /\ collects (new_calls state0 s') = [0]
    /\ runs (new_calls state0 s') = []
    /\ has 2 "cleaned" s' = false
    /\ has 2 "result" s' = false
    /\ has 2 "error" s' = true.
Proof.
  pose (s3 := state_of (middleware_loop (tbl := sampleTable) 1 2 [mwCleanup] 0
                          VNull false [] (begun (VRef 0) state0))).
  pose (s4 := state_of (run_of (tbl := sampleTable) (VRef 0) state0
                          [mwCleanup] mwThrowEmptyError s3)).
  destruct (unconvertible_error_skips_the_unwind (tbl := sampleTable)
              (engineOf [mwCleanup; mwThrowEmptyError]) (VRef 0) state0
              [mwCleanup] mwThrowEmptyError [] (cleanupHandlers (tbl := sampleTable)) s3
              (VRef 3) s4) as (_ & s' & Hh & Hcls & Hruns & Hresult & Herror & _).
  - split; [reflexivity|]. split; [reflexivity|]. vm_compute. reflexivity.
  - vm_compute. reflexivity.
  - vm_compute. reflexivity.
  - exists (error_in s4), s'. split; [exact Hh|]. split; [exact Hcls|].
    assert (Hs' : s' = state_of (_handle (tbl := sampleTable)
                                   (engineOf [mwCleanup; mwThrowEmptyError])
                                   (VRef 0) state0)) by (by rewrite Hh).
    split; [rewrite Hs'; vm_compute; reflexivity|]. split; [exact Hruns|].
    split; [rewrite Hs'; vm_compute; reflexivity|]. split; [exact Hresult|exact Herror].
Defined.

(** ** When the completion check fails *)

Section Incomplete.
Context {tbl : ErrorTable}.

Lemma get_absent l key s : has l key s = false -> get l key s = VUndefined.
Proof.
  unfold has, get. destruct (heap s !! l) as [o|]; [|done].
  intros H. apply bool_decide_eq_false in H.
  destruct (props o !! key) eqn:E; [|done]. destruct H. eauto.
Qed.

(** While no middleware completes the request, the response holds no truthy
    error. *)
Lemma middleware_loop_incomplete req res stack i e c hs s e' hs' s' :
  middleware_loop req res stack i e c hs s = Returned (e', false, hs') s' ->
  truthy (get res "error" s) = false ->
  truthy (get res "error" s') = false.
Proof.
  revert i e c hs s. induction stack as [|m stack IH]; intros i e c hs s.
  - simpl. by intros [= _ _ _ <-].
  - rewrite middleware_loop_cons.
    destruct (_runMiddleware req res m i hs s) as [[[e1 c1] hs1] s1|v s1|s1] eqn:Hrun;
      try done.
    destruct c1; [done|].
    destruct (_runMiddleware_passed _ _ _ _ _ _ _ _ _ Hrun) as [_ Hfalsy].
    intros Hloop _. by apply (IH _ _ _ _ _ Hloop).
Qed.

Variables (eng : JsonRpcEngine) (callerReq : value) (s : state).
Variables (e : value) (c : bool) (hs : list collected) (sC : state).

Hypothesis Hvalid : valid_request callerReq s = true.
Hypothesis Hphase :
  _runAllMiddleware (req_of s) (res_of s) (_middleware eng) (begun callerReq s)
  = Returned (e, c, hs) sC.

Lemma checked_length : res_of s < length (heap sC).
Proof.
  pose proof (evolves_runAllMiddleware (req_of s) (res_of s) (_middleware eng)
                (begun callerReq s)) as Hev.
  rewrite Hphase in Hev. destruct Hev as [_ E].
  pose proof (ev_length _ _ E) as Hl. rewrite length_heap_begun in Hl.
  unfold res_of. lia.
Qed.

Lemma checked_runs : runs (new_calls s sC) = [].
Proof.
  destruct (phase_invoked (req_of s) (res_of s) (_middleware eng) (begun callerReq s))
    as (k & _ & _ & Hruns).
  rewrite Hphase in Hruns. cbn [state_of] in Hruns.
  by rewrite (new_calls_same s (begun callerReq s)) by (by rewrite calls_begun).
Qed.

(** The completion check throws: [_handle] hands the error to the callback;
    the response, which held no truthy error, loses its result and gets the
    serialized error; no handler is invoked. *)
Lemma response_of_failed_check message :
  accepts (VNum internal) (VStr message) = true ->
  _checkForCompletion (req_of s) (res_of s) c sC
  = Threw (error_in sC)
      (erred (VNum internal) (VStr message) {["request" := VRef (req_of s)]} sC) ->
  truthy (get (res_of s) "error" sC) = false ->
  exists s',
    _handle eng callerReq s = Returned (error_in sC, res_of s) s'
    /\ read_error (error_in sC) s'
       = Some (VNum internal, VStr message, {["request" := VRef (req_of s)]})
    /\ deref (get (res_of s) "error" s') s'
       = Some (serializeError
                 (heap (del_prop (res_of s) "result"
                          (erred (VNum internal) (VStr message)
                             {["request" := VRef (req_of s)]} sC)))
                 (error_in sC))
    /\ has (res_of s) "result" s' = false
    /\ runs (new_calls s s') = [].
Proof.
  intros Ha Hcheck Hfalsy.
  pose proof checked_length as Hres.
  set (sE := erred (VNum internal) (VStr message) {["request" := VRef (req_of s)]} sC)
    in *.
  assert (HresE : res_of s < length (heap sE)).
  { unfold sE. rewrite heap_erred, length_app. lia. }
  assert (HfalsyE : truthy (get (res_of s) "error" sE) = false).
  { unfold sE. by rewrite get_erred_old. }
  pose proof (_handle_valid_outcome eng callerReq s Hvalid) as Ho.
  unfold _processRequest in Ho. unfold bind at 1 in Ho. rewrite Hphase in Ho.
  unfold bind at 1 in Ho. rewrite Hcheck in Ho. rewrite Ho.
  rewrite (finish_serialized (res_of s) (error_in sC) sE eq_refl HfalsyE).
  eexists. split; [reflexivity|].
  split; [|split; [|split]].
  - apply (read_error_erred_later _ _ _ _ _ (res_of s) Ha Hres).
    intros l Hl Hne. rewrite lookup_set_prop_ne by done.
    unfold alloc, set_heap. cbn [snd heap].
    rewrite lookup_app_l by (rewrite length_heap_del_prop; exact Hl).
    by apply lookup_del_prop_ne.
  - rewrite get_set_prop_eq
      by (unfold alloc, set_heap; cbn [snd heap];
          rewrite length_app, length_heap_del_prop; lia).
    unfold deref. rewrite lookup_set_prop_ne
      by (pose proof HresE; lia).
    unfold alloc, set_heap. cbn [snd heap].
    rewrite <- (length_heap_del_prop (res_of s) "result" sE).
    by rewrite list_lookup_middle.
  - rewrite has_set_prop_ne by (by right). unfold has, alloc, set_heap. cbn [snd heap].
    rewrite lookup_app_l by (by rewrite length_heap_del_prop).
    apply (has_del_prop_eq (res_of s) "result" sE).
  - rewrite <- checked_runs. unfold new_calls. do 2 f_equal. apply calls_erred.
Qed.

End Incomplete.

Section CompletionCheck.
Context {tbl : ErrorTable}.

(** When the middleware phase of a valid request ends and no middleware
    has completed the request, while the response has a [result] or an
    [error] property: the callback gets a new standardized error with the
    internal code, the message "JsonRpcEngine: Nothing ended request." and
    the request as data; the response loses its result and gets the
    serialized error as its error; the handlers collected are not invoked. *)
Theorem unended_request_fails eng callerReq s e hs sC :
  valid_request callerReq s = true ->
  _runAllMiddleware (req_of s) (res_of s) (_middleware eng) (begun callerReq s)
  = Returned (e, false, hs) sC ->
  has (res_of s) "result" sC || has (res_of s) "error" sC = true ->
  exists s',
    _handle eng callerReq s = Returned (error_in sC, res_of s) s'
    /\ read_error (error_in sC) s'
       = Some (VNum internal, VStr errorMessages.nothingEndedRequest,
               {["request" := VRef (req_of s)]})
    /\ deref (get (res_of s) "error" s') s'
       = Some (serializeError
                 (heap (del_prop (res_of s) "result"
                          (erred (VNum internal) (VStr errorMessages.nothingEndedRequest)
                             {["request" := VRef (req_of s)]} sC)))
                 (error_in sC))
    /\ has (res_of s) "result" s' = false
    /\ runs (new_calls s s') = [].
Proof.
  intros Hvalid Hphase Hhas.
  apply (response_of_failed_check _ _ _ _ _ _ _ Hvalid Hphase).
  - done.
  - rewrite _checkForCompletion_eq.
    destruct (has (res_of s) "result" sC), (has (res_of s) "error" sC); done.
  - unfold _runAllMiddleware, bind in Hphase.
    destruct (middleware_loop (req_of s) (res_of s) (_middleware eng) 0 VNull false []
                (begun callerReq s)) as [[[e0 c0] hs0] s0|v s0|s0] eqn:Hloop; try done.
    injection Hphase as -> -> _ ->.
    apply (middleware_loop_incomplete _ _ _ _ _ _ _ _ _ _ _ Hloop).
    by rewrite (get_absent _ _ _ (has_error_begun callerReq s)).
Qed.

(** When the middleware phase of a valid request ends, complete or not, and
    the response has neither a [result] nor an [error] property: the callback
    gets a new standardized error with the internal code, the message
    "JsonRpcEngine: Response has no error or result" and the request as data;
    the response gets the serialized error as its error; the handlers
    collected are not invoked. *)
Theorem response_without_result_or_error_fails eng callerReq s e c hs sC :
  valid_request callerReq s = true ->
  _runAllMiddleware (req_of s) (res_of s) (_middleware eng) (begun callerReq s)
  = Returned (e, c, hs) sC ->
  has (res_of s) "result" sC = false ->
  has (res_of s) "error" sC = false ->
  exists s',
    _handle eng callerReq s = Returned (error_in sC, res_of s) s'
    /\ read_error (error_in sC) s'
       = Some (VNum internal, VStr errorMessages.noErrorOrResult,
               {["request" := VRef (req_of s)]})
    /\ deref (get (res_of s) "error" s') s'
       = Some (serializeError
                 (heap (del_prop (res_of s) "result"
                          (erred (VNum internal) (VStr errorMessages.noErrorOrResult)
                             {["request" := VRef (req_of s)]} sC)))
                 (error_in sC))
    /\ has (res_of s) "result" s' = false
    /\ runs (new_calls s s') = [].
Proof.
  intros Hvalid Hphase Hresult Herror.
  apply (response_of_failed_check _ _ _ _ _ _ _ Hvalid Hphase).
  - done.
  - by rewrite _checkForCompletion_eq, Hresult, Herror.
  - by rewrite (get_absent _ _ _ Herror).
Qed.

End CompletionCheck.

Lemma unended_request_fails_witness :
  exists e s',
    _handle (tbl := sampleTable) (engineOf [mwCleanup; mwSetResult]) (VRef 0) state0
    = Returned (e, 2) s'
    /\ read_error e s'
       = Some (VNum (-32603), VStr "JsonRpcEngine: Nothing ended request.",
               {["request" := VRef 1]})
    /\ has 2 "result" s' = false
    /\ runs (new_calls state0 s') = [].
Proof.
  pose (sC := state_of (_runAllMiddleware (tbl := sampleTable) 1 2
                          [mwCleanup; mwSetResult] (begun (VRef 0) state0))).
  destruct (unended_request_fails (tbl := sampleTable)
              (engineOf [mwCleanup; mwSetResult]) (VRef 0) state0
              VNull (cleanupHandlers (tbl := sampleTable)) sC)
    as (s' & Hh & Hread & _ & Hres & Hruns).
  - reflexivity.
  - vm_compute. reflexivity.
  - reflexivity.
  - exists (error_in sC), s'. split; [exact Hh|]. split; [exact Hread|]. by split.
Defined.

Lemma response_without_result_or_error_fails_witness :
  exists e s',
    _handle (tbl := sampleTable) (engineOf [mwCleanup; mwEndOnly]) (VRef 0) state0
    = Returned (e, 2) s'
    /\ read_error e s'
       = Some (VNum (-32603), VStr "JsonRpcEngine: Response has no error or result",
               {["request" := VRef 1]})
    /\ has 2 "result" s' = false
    /\ runs (new_calls state0 s') = [].
Proof.
  pose (sC := state_of (_runAllMiddleware (tbl := sampleTable) 1 2
                          [mwCleanup; mwEndOnly] (begun (VRef 0) state0))).
  destruct (response_without_result_or_error_fails (tbl := sampleTable)
              (engineOf [mwCleanup; mwEndOnly]) (VRef 0) state0
              VNull true (cleanupHandlers (tbl := sampleTable)) sC)
    as (s' & Hh & Hread & _ & Hres & Hruns).
  - reflexivity.
  - vm_compute. reflexivity.
  - reflexivity.
  - reflexivity.
  - exists (error_in sC), s'. split; [exact Hh|]. split; [exact Hread|]. by split.
Defined.

(** ** The two callbacks of a middleware's turn: [catch] and [end] *)

Section Coercion.
Context {tbl : ErrorTable}.

Lemma class_of_set_prop v l key x s :
  class_of v (set_prop l key x s) = class_of v s.
Proof.
  destruct v as [| | | | | |l']; try done. simpl.
  destruct (decide (l = l')) as [<-|Hne].
  - rewrite list_lookup_alter_eq. by destruct (heap s !! l).
  - by rewrite list_lookup_alter_ne.
Qed.

(** For a thrown value that is not an [Error], or that is an
    [EthereumRpcError], or whose message is a nonempty string (with a code
    that is no valid code or is an integer), [_processMiddlewareError]
    returns and leaves an instance of [EthereumRpcError] as the error of the
    response: the thrown value itself if it is such an instance, a new one
    otherwise; it changes no other property of the response and no other
    object of the store.  For every other value, an [Error] whose message is
    empty or not a string, it throws the [Error] of the constructor and
    leaves the response as it is.  In both cases it calls nobody. *)
Theorem thrown_value_becomes_standardized_error req res error s :
  res < length (heap s) ->
  (instanceof_Error error s = false \/ instanceof_EthereumRpcError error s = true
   \/ accepts (if isValidCode (prop_of error "code" s)
               then prop_of error "code" s else VNum internal)
              (prop_of error "message" s) = true ->
   exists s',
     _processMiddlewareError req res error s = Returned tt s'
     /\ instanceof_EthereumRpcError (get res "error" s') s' = true
     /\ (instanceof_EthereumRpcError error s = true -> get res "error" s' = error)
     /\ (instanceof_EthereumRpcError error s = false ->
         get res "error" s' = VRef (S (length (heap s))))
     /\ (forall key, key <> "error" -> get res key s' = get res key s)
     /\ (forall l, l < length (heap s) -> l <> res -> heap s' !! l = heap s !! l)
     /\ calls s' = calls s)
  /\ (instanceof_Error error s = true -> instanceof_EthereumRpcError error s = false ->
      accepts (if isValidCode (prop_of error "code" s)
               then prop_of error "code" s else VNum internal)
              (prop_of error "message" s) = false ->
      exists s',
        _processMiddlewareError req res error s = Threw (VRef (S (length (heap s)))) s'
        /\ class_of (VRef (S (length (heap s)))) s' = Some CError
        /\ (forall l, l < length (heap s) -> heap s' !! l = heap s !! l)
        /\ calls s' = calls s).
Proof.
  intros Hres. split.
  - intros Hor.
    assert (Hcv : converts error s = true).
    { unfold converts. destruct Hor as [->|[->| ->]]; by rewrite ?orb_true_r. }
    rewrite _processMiddlewareError_eq by done. eexists. split; [reflexivity|].
    assert (Hres' : res < length (heap (coerced req error s).2)).
    { pose proof (ev_length _ _ (evolves_coerced req error s)). lia. }
    rewrite get_set_prop_eq by done.
    split; [|split; [|split; [|split; [|split]]]].
    + unfold instanceof_EthereumRpcError. rewrite class_of_set_prop.
      by apply instanceof_coerced.
    + intros Hrpc. unfold coerced, instanceof_Error. by rewrite Hrpc, orb_true_r.
    + intros Hrpc. unfold coerced. rewrite Hrpc.
      by destruct (instanceof_Error error s).
    + intros key Hkey. rewrite get_set_prop_ne by (by right).
      unfold get. by rewrite lookup_coerced_old.
    + intros l Hl Hne. rewrite lookup_set_prop_ne by done. by apply lookup_coerced_old.
    + apply calls_coerced.
  - intros Herror Hrpc Ha.
    assert (Hcv : converts error s = false).
    { unfold converts. by rewrite Herror, Hrpc, Ha. }
    rewrite _processMiddlewareError_refused by done.
    rewrite (coerced_refused _ _ _ Hcv). eexists. split; [reflexivity|].
    split; [|split].
    + rewrite <- (caught_refused req res) by done. by apply refused_class.
    + intros l Hl. by apply lookup_coerced_old.
    + apply calls_coerced.
Qed.

(** A call of [end] completes the request or throws, never both.  With a
    falsy argument and no truthy [error] on the response it returns, having
    set [endCalled] and resolved the promise of the turn with [[null, true]]
    unless that was resolved before.  Otherwise it throws a new standardized
    error with the internal code: "Received an error" for an [Error]
    instance, "Received: <typeof argument>" for another truthy argument, and
    for a falsy argument "The response "error" property must not be directly
    assigned"; then [endCalled] and the promise are as they were: the request
    is not completed by that call. *)
Theorem end_completes_or_throws req res arg s :
  (truthy arg = false -> truthy (get res "error" s) = false ->
   end_callback req res arg s
   = Returned tt (resolve (VNull, true) (set_endCalled true (log (EEnd arg) s))))
  /\ (truthy arg = true \/ truthy (get res "error" s) = true ->
      exists s',
        end_callback req res arg s = Threw (error_in s) s'
        /\ read_error (error_in s) s'
           = Some (VNum internal,
                   VStr (if instanceof_Error arg s then errorMessages.noErrorsToEnd
                         else if truthy arg then errorMessages.noValuesToEnd arg
                         else errorMessages.noAssignmentToResponse),
                   <["request" := VRef req]>
                     (if truthy arg then {["endCallbackCalledWith" := arg]}
                      else {["responseError" := get res "error" s]}))
        /\ endCalled s' = endCalled s
        /\ deferred s' = deferred s
        /\ calls s' = calls s ++ [EEnd arg]).
Proof.
  assert (Herror : instanceof_Error arg s = true -> truthy arg = true).
  { unfold instanceof_Error, instanceof_EthereumRpcError, class_of.
    destruct arg; try done. }
  rewrite end_callback_eq, _validateEndState_eq.
  change (instanceof_Error arg (log (EEnd arg) s)) with (instanceof_Error arg s).
  change (get res "error" (log (EEnd arg) s)) with (get res "error" s).
  split.
  - intros Harg Hres.
    destruct (instanceof_Error arg s); [by rewrite Herror in Harg|].
    by rewrite Harg, Hres.
  - intros Hor.
    assert (Hread : forall code message data,
              accepts code message = true ->
              read_error (error_in s) (erred code message data (log (EEnd arg) s))
              = Some (code, message, data)).
    { intros. by apply (read_error_erred code message data (log (EEnd arg) s)). }
    destruct (instanceof_Error arg s) eqn:Hinst.
    { rewrite (Herror eq_refl). eexists. split; [reflexivity|]. by rewrite Hread. }
    destruct (truthy arg) eqn:Harg.
    { eexists. split; [reflexivity|]. by rewrite Hread. }
    destruct Hor as [?|Hres]; [done|]. rewrite Hres.
    eexists. split; [reflexivity|]. by rewrite Hread.
Qed.

End Coercion.

Lemma thrown_value_becomes_standardized_error_witness :
  exists s',
    _processMiddlewareError (tbl := sampleTable) 1 2 (VStr "oops")
      (begun (VRef 0) state0)
    = Returned tt s'
    /\ instanceof_EthereumRpcError (get 2 "error" s') s' = true
    /\ get 2 "id" s' = VNum 1.
Proof.
  destruct (thrown_value_becomes_standardized_error (tbl := sampleTable) 1 2 (VStr "oops")
              (begun (VRef 0) state0)) as [Hconverts _].
  - vm_compute. lia.
  - destruct Hconverts as (s' & Hrun & Hinst & _ & _ & Hkeys & _); [by left|].
    exists s'. split; [exact Hrun|]. split; [exact Hinst|].
    rewrite Hkeys by done. reflexivity.
Defined.

Lemma end_completes_or_throws_witness :
  end_callback (tbl := sampleTable) 1 2 VUndefined (entered 0 (begun (VRef 0) state0))
  = Returned tt
      (resolve (VNull, true)
         (set_endCalled true (log (EEnd VUndefined) (entered 0 (begun (VRef 0) state0)))))
  /\ exists s',
       end_callback (tbl := sampleTable) 1 2 (VNum 1) (entered 0 (begun (VRef 0) state0))
       = Threw (VRef 4) s'
       /\ read_error (VRef 4) s'
          = Some (VNum (-32603),
                  VStr (errorMessages.noValuesToEnd (VNum 1)),
                  <["request" := VRef 1]> {["endCallbackCalledWith" := VNum 1]})
       /\ endCalled s' = false
       /\ deferred s' = None.
Proof.
  destruct (end_completes_or_throws (tbl := sampleTable) 1 2 VUndefined
              (entered 0 (begun (VRef 0) state0))) as [Hreturns _].
  destruct (end_completes_or_throws (tbl := sampleTable) 1 2 (VNum 1)
              (entered 0 (begun (VRef 0) state0))) as [_ Hthrows].
  split; [by apply Hreturns|].
  destruct Hthrows as (s' & Hrun & Hread & Hcalled & Hd & _); [by left|].
  exists s'. split; [exact Hrun|]. split; [exact Hread|]. by split.
Defined.

(** ** What the engine writes *)

Section Keeps.
Context {tbl : ErrorTable}.
Variables (l : nat) (key : string).

Lemma keeps_refl s : keeps l key s s.
Proof. split; [apply evolves_refl|done]. Qed.

Lemma keeps_trans s1 s2 s3 : keeps l key s1 s2 -> keeps l key s2 s3 -> keeps l key s1 s3.
Proof.
  intros [E1 K1] [E2 K2]. split; [by eapply evolves_trans|].
  intros Hl. destruct (K1 Hl) as [G1 H1].
  destruct K2 as [G2 H2]; [pose proof (ev_length _ _ E1); lia|].
  split; congruence.
Qed.

Lemma keeps_same_heap s s' : evolves s s' -> heap s' = heap s -> keeps l key s s'.
Proof. intros E Hh. split; [done|]. intros _. unfold get, has. by rewrite Hh. Qed.

Lemma keeps_old s s' :
  evolves s s' ->
  (l < length (heap s) -> heap s' !! l = heap s !! l) ->
  keeps l key s s'.
Proof.
  intros E Hh. split; [done|]. intros Hl. unfold get, has. by rewrite (Hh Hl).
Qed.

Lemma keeps_set_prop l' key' v s :
  l' <> l \/ key' <> key -> keeps l key s (set_prop l' key' v s).
Proof.
  intros Hne. split; [apply evolves_set_prop|]. intros _.
  destruct Hne as [Hne|Hne].
  - split; [apply get_set_prop_ne|apply has_set_prop_ne]; by left.
  - split; [apply get_set_prop_ne|apply has_set_prop_ne]; by right.
Qed.

Lemma keeps_del_prop l' key' s :
  l' <> l \/ key' <> key -> keeps l key s (del_prop l' key' s).
Proof.
  intros Hne. split; [apply evolves_del_prop|]. intros _.
  destruct Hne as [Hne|Hne].
  - split; [apply get_del_prop_ne|apply has_del_prop_ne]; by left.
  - split; [apply get_del_prop_ne|apply has_del_prop_ne]; by right.
Qed.

Lemma keeps_alloc o s : keeps l key s (alloc o s).2.
Proof. apply keeps_old; [apply evolves_alloc|]. intros Hl. by apply lookup_alloc_old. Qed.

Lemma keeps_erred code message data s : keeps l key s (erred code message data s).
Proof. apply keeps_old; [apply evolves_erred|]. intros Hl. by apply lookup_erred_old. Qed.

Lemma keeps_resolve d s : keeps l key s (resolve d s).
Proof. apply keeps_same_heap; [apply evolves_resolve|apply heap_resolve]. Qed.

Lemma keeps_log e s : keeps l key s (log e s).
Proof. apply keeps_same_heap; [apply evolves_log|done]. Qed.

Lemma keeps_entered i s : keeps l key s (entered i s).
Proof. apply keeps_same_heap; [|done]. by destruct (quiet_entered i s). Qed.

Lemma keeps_coerced req v s : keeps l key s (coerced req v s).2.
Proof.
  apply keeps_old; [apply evolves_coerced|]. intros Hl. by apply lookup_coerced_old.
Qed.

Lemma keeps_caught req res v s :
  res <> l \/ key <> "error" -> keeps l key s (caught req res v s).
Proof.
  intros Hne. destruct (converts v s) eqn:Hc.
  - rewrite caught_coerced by done. cbn zeta.
    eapply keeps_trans; [apply keeps_coerced|].
    eapply keeps_trans; [|apply keeps_resolve].
    apply keeps_set_prop. destruct Hne as [?|?]; [by left|right; congruence].
  - rewrite caught_refused by done. apply keeps_coerced.
Qed.

Lemma keeps_end_callback req res arg : preserves (keeps l key) (end_callback req res arg).
Proof.
  intros s. rewrite end_callback_eq, _validateEndState_eq.
  repeat (match goal with |- context [if ?b then _ else _] => destruct b end);
    cbn [state_of].
  - eapply keeps_trans; [apply keeps_log|apply keeps_erred].
  - eapply keeps_trans; [apply keeps_log|apply keeps_erred].
  - eapply keeps_trans; [apply keeps_log|apply keeps_erred].
  - apply keeps_same_heap; [|by rewrite heap_resolve].
    eapply evolves_trans; [apply evolves_log|].
    eapply evolves_trans; [apply evolves_set_endCalled|apply evolves_resolve].
Qed.

(** A script that leaves the property alone: so does its run, and what it
    returns is accepted. *)
Lemma exec_keeps {A} req res (P : A -> Prop) (p : script A) s :
  leaves P l key p ->
  keeps l key s (state_of (exec (end_callback req res) p s))
  /\ match exec (end_callback req res) p s with
     | Returned r _ => P r
     | _ => True
     end.
Proof.
  revert s.
  induction p as [r|v| |l' k IH|l' key' v k IH|l' key' k IH|o k IH|arg k IH];
    intros s Hp; simpl in *.
  - split; [apply keeps_refl|done].
  - split; [apply keeps_refl|done].
  - split; [apply keeps_refl|done].
  - by apply IH.
  - destruct Hp as [Hne Hp]. unfold bind, modify.
    destruct (IH (set_prop l' key' v s) Hp) as [Hk Hr].
    split; [|exact Hr]. eapply keeps_trans; [by apply keeps_set_prop|exact Hk].
  - destruct Hp as [Hne Hp]. unfold bind, modify.
    destruct (IH (del_prop l' key' s) Hp) as [Hk Hr].
    split; [|exact Hr]. eapply keeps_trans; [by apply keeps_del_prop|exact Hk].
  - unfold bind, new. simpl.
    destruct (IH (length (heap s)) (alloc o s).2 (Hp _)) as [Hk Hr].
    split; [|exact Hr]. eapply keeps_trans; [apply keeps_alloc|exact Hk].
  - pose proof (keeps_end_callback req res arg s) as Hend.
    destruct (end_callback req res arg s) as [[] s1|e s1|s1]; cbn [state_of] in Hend.
    + destruct (IH None s1 (Hp _)) as [Hk Hr]. split; [|exact Hr]. by eapply keeps_trans.
    + destruct (IH (Some e) s1 (Hp _)) as [Hk Hr]. split; [|exact Hr].
      by eapply keeps_trans.
    + by split.
Qed.

Lemma _runMiddleware_keeps req res m i hs s :
  turn_leaves l key req res m ->
  res <> l \/ key <> "error" ->
  Forall (closure_keeps l key) hs ->
  keeps l key s (state_of (_runMiddleware req res m i hs s))
  /\ match _runMiddleware req res m i hs s with
     | Returned (e, c, hs') s' => Forall (closure_keeps l key) hs'
     | _ => True
     end.
Proof.
  intros Hm Hne Hhs.
  destruct (exec_keeps req res _ (m req res) (entered i s) Hm) as [Hk Hr].
  pose proof (keeps_entered i s) as Hen.
  assert (Hkeep : forall s',
            match awaited hs s' with
            | Returned (e, c, hs') s'' => Forall (closure_keeps l key) hs'
            | _ => True
            end).
  { intros s'. rewrite awaited_eq. by destruct (deferred s') as [[? ?]|]. }
  destruct (exec (end_callback req res) (m req res) (entered i s))
    as [r s1|v s1|s1] eqn:He; cbn [state_of] in Hk.
  - rewrite (_runMiddleware_returned _ _ _ _ _ _ _ _ He).
    destruct (endCalled s1).
    { rewrite awaited_state. split; [by eapply keeps_trans|apply Hkeep]. }
    destruct (truthy (get res "error" s1)).
    { rewrite awaited_state. split; [|apply Hkeep].
      eapply keeps_trans; [exact Hen|]. eapply keeps_trans; [exact Hk|].
      eapply keeps_trans; [apply keeps_erred|by apply keeps_caught]. }
    destruct r as [v|h].
    + destruct (truthy v); rewrite awaited_state; (split; [|apply Hkeep]).
      * eapply keeps_trans; [exact Hen|]. eapply keeps_trans; [exact Hk|].
        eapply keeps_trans; [apply keeps_erred|by apply keeps_caught].
      * eapply keeps_trans; [exact Hen|]. eapply keeps_trans; [exact Hk|].
        apply keeps_resolve.
    + rewrite awaited_state. split.
      * eapply keeps_trans; [exact Hen|]. eapply keeps_trans; [exact Hk|].
        eapply keeps_trans; [apply keeps_log|apply keeps_resolve].
      * rewrite awaited_eq, deferred_resolve.
        destruct (default (VNull, false) (deferred (log (ECollect i) s1))) as [e c].
        apply Forall_app. split; [done|]. apply Forall_singleton.
        intros s2. simpl. by apply (exec_keeps req res (fun _ => True) h s2).
  - assert (Hkc : keeps l key s (caught req res v s1)).
    { eapply keeps_trans; [exact Hen|]. eapply keeps_trans; [exact Hk|].
      by apply keeps_caught. }
    destruct (converts v s1) eqn:Hcv.
    + rewrite (_runMiddleware_threw _ _ _ _ _ _ _ _ He Hcv), awaited_state.
      split; [exact Hkc|apply Hkeep].
    + rewrite (_runMiddleware_refused _ _ _ _ _ _ _ _ He Hcv). by split.
  - rewrite (_runMiddleware_pending _ _ _ _ _ _ _ He). split; [|done].
    by eapply keeps_trans.
Qed.

Lemma middleware_loop_keeps req res stack i e c hs s :
  Forall (turn_leaves l key req res) stack ->
  res <> l \/ key <> "error" ->
  Forall (closure_keeps l key) hs ->
  keeps l key s (state_of (middleware_loop req res stack i e c hs s))
  /\ match middleware_loop req res stack i e c hs s with
     | Returned (e', c', hs') s' => Forall (closure_keeps l key) hs'
     | _ => True
     end.
Proof.
  intros Hstack Hne. revert i e c hs s.
  induction Hstack as [|m stack Hm Hstack IH]; intros i e c hs s Hhs.
  - simpl. split; [apply keeps_refl|done].
  - rewrite middleware_loop_cons.
    destruct (_runMiddleware_keeps req res m i hs s Hm Hne Hhs) as [Hk Hr].
    destruct (_runMiddleware req res m i hs s) as [[[e1 c1] hs1] s1|v s1|s1];
      cbn [state_of] in Hk; try done.
    destruct c1; [done|].
    destruct (IH (S i) e1 false hs1 s1 Hr) as [Hk2 Hr2].
    split; [by eapply keeps_trans|exact Hr2].
Qed.

Lemma _runReturnHandlers_keeps hs s :
  Forall (closure_keeps l key) hs ->
  keeps l key s (state_of (_runReturnHandlers hs s)).
Proof.
  intros Hhs. revert s. induction Hhs as [|[i c] hs Hc Hhs IH]; intros s.
  - apply keeps_refl.
  - rewrite _runReturnHandlers_cons. specialize (Hc (log (ERun i) s)). simpl in Hc.
    pose proof (keeps_log (ERun i) s) as Hlog.
    destruct (c (log (ERun i) s)) as [[] s1|v s1|s1]; cbn [state_of] in *.
    + eapply keeps_trans; [exact Hlog|]. eapply keeps_trans; [exact Hc|apply IH].
    + by eapply keeps_trans.
    + by eapply keeps_trans.
Qed.

Lemma _checkForCompletion_keeps req res c s :
  keeps l key s (state_of (_checkForCompletion req res c s)).
Proof.
  rewrite _checkForCompletion_eq.
  repeat (match goal with |- context [if ?b then _ else _] => destruct b end);
    cbn [state_of]; first [apply keeps_erred|apply keeps_refl].
Qed.

Lemma _processRequest_keeps eng req res s :
  Forall (turn_leaves l key req res) (_middleware eng) ->
  res <> l \/ key <> "error" ->
  keeps l key s (state_of (_processRequest eng req res s)).
Proof.
  intros Hstack Hne.
  unfold _processRequest, _runAllMiddleware. unfold bind at 1 2.
  destruct (middleware_loop_keeps req res (_middleware eng) 0 VNull false [] s
              Hstack Hne (Forall_nil_2 _)) as [Hk Hr].
  destruct (middleware_loop req res (_middleware eng) 0 VNull false [] s)
    as [[[e c] hs] s1|v s1|s1]; cbn [state_of] in Hk; try done.
  unfold ret at 1. unfold bind at 1.
  pose proof (_checkForCompletion_keeps req res c s1) as Hcheck.
  destruct (_checkForCompletion req res c s1) as [[] s2|v s2|s2]; cbn [state_of] in Hcheck;
    try (by apply (keeps_trans s s1 s2)).
  unfold bind.
  pose proof (_runReturnHandlers_keeps (reverse hs) s2
                (proj2 (Forall_reverse _ _) Hr)) as Hunwind.
  assert (H2 : keeps l key s s2) by (by apply (keeps_trans s s1 s2)).
  destruct (_runReturnHandlers (reverse hs) s2) as [[] s3|v s3|s3]; cbn [state_of] in Hunwind;
    try (by apply (keeps_trans s s2 s3)).
  destruct (truthy e); by apply (keeps_trans s s2 s3).
Qed.

Lemma finish_keeps res error s :
  res <> l \/ (key <> "error" /\ key <> "result") ->
  keeps l key s (state_of (finish res error s)).
Proof.
  intros Hne.
  assert (Hr : res <> l \/ "result" <> key) by (destruct Hne as [?|[_ ?]]; eauto).
  assert (He : res <> l \/ "error" <> key) by (destruct Hne as [?|[? _]]; eauto).
  destruct (truthy error) eqn:Herr.
  - destruct (truthy (get res "error" s)) eqn:Hres.
    + rewrite finish_attached by done. cbn [state_of]. by apply keeps_del_prop.
    + rewrite finish_serialized by done. cbn [state_of].
      eapply keeps_trans; [apply (keeps_del_prop res "result" s Hr)|].
      eapply keeps_trans; [|by apply keeps_set_prop].
      apply (keeps_alloc (serializeError (heap (del_prop res "result" s)) error)
               (del_prop res "result" s)).
  - rewrite finish_falsy by done. apply keeps_refl.
Qed.

(** From the creation of the response to the callback, for a valid
    request. *)
Lemma handle_keeps eng callerReq s :
  valid_request callerReq s = true ->
  Forall (turn_leaves l key (req_of s) (res_of s)) (_middleware eng) ->
  res_of s <> l \/ (key <> "error" /\ key <> "result") ->
  keeps l key (begun callerReq s) (state_of (_handle eng callerReq s)).
Proof.
  intros Hvalid Hstack Hne.
  assert (He : res_of s <> l \/ key <> "error") by (destruct Hne as [?|[? _]]; eauto).
  pose proof (_handle_valid_outcome eng callerReq s Hvalid) as Ho.
  pose proof (_processRequest_keeps eng (req_of s) (res_of s) (begun callerReq s)
                Hstack He) as Hk.
  destruct (_processRequest eng (req_of s) (res_of s) (begun callerReq s))
    as [[] s1|e s1|s1]; cbn [state_of] in Hk; rewrite Ho.
  - eapply keeps_trans; [exact Hk|by apply finish_keeps].
  - eapply keeps_trans; [exact Hk|by apply finish_keeps].
  - exact Hk.
Qed.

End Keeps.

Section Footprint.
Context {tbl : ErrorTable}.

Lemma lookup_enumerable o key :
  key <> "message" -> key <> "stack" -> enumerable o !! key = props o !! key.
Proof.
  intros Hm Hs. unfold enumerable.
  destruct (cls o); try done; by rewrite !lookup_delete_ne.
Qed.

(** The response is created with the [id] and the [jsonrpc] of the
    request. *)
Lemma get_response_begun callerReq s key :
  valid_request callerReq s = true ->
  key = "id" \/ key = "jsonrpc" ->
  get (res_of s) key (begun callerReq s) = prop_of callerReq key s.
Proof.
  intros Hvalid Hkey. destruct (valid_request_ref _ _ Hvalid) as [l ->].
  unfold get, res_of. rewrite heap_begun.
  rewrite lookup_app_r by lia. replace (S (length (heap s)) - length (heap s)) with 1 by lia.
  simpl. unfold get.
  assert (Hspread : from_option enumerable ∅ (heap s !! l) !! key
                    = from_option (fun o => props o !! key) None (heap s !! l)).
  { destruct (heap s !! l) as [o|]; [|done]. simpl.
    apply lookup_enumerable; destruct Hkey as [-> | ->]; done. }
  destruct Hkey as [-> | ->].
  - rewrite lookup_insert_eq, Hspread. by destruct (heap s !! l).
  - rewrite lookup_insert_ne by done. rewrite lookup_singleton_eq, Hspread.
    by destruct (heap s !! l).
Qed.

(** For a valid request whose middleware (and their handlers) do not write
    the [id] of the response they receive, the response has the [id] of the
    caller's request from its creation to the callback, whether the request
    succeeds, fails or stays pending; and so for [jsonrpc]. *)
Theorem response_echoes_id_and_jsonrpc eng callerReq s key :
  key = "id" \/ key = "jsonrpc" ->
  valid_request callerReq s = true ->
  Forall (middleware_leaves_response key) (_middleware eng) ->
  get (res_of s) key (state_of (_handle eng callerReq s)) = prop_of callerReq key s.
Proof.
  intros Hkey Hvalid Hstack.
  rewrite <- (get_response_begun _ _ _ Hvalid Hkey).
  destruct (handle_keeps (res_of s) key eng callerReq s Hvalid) as [_ Hk].
  - eapply Forall_impl; [exact Hstack|]. intros m Hm. apply Hm.
  - right. destruct Hkey as [-> | ->]; by split.
  - apply Hk. rewrite length_heap_begun. unfold res_of. lia.
Qed.

(** The engine itself writes two properties, the [error] and the [result]
    of the response: for a valid request, any other property of the response,
    and any property of any other object that exists when the processing
    starts (the caller's objects, the copy of the request), is at the end as
    it was at the start, provided that no middleware and no handler writes
    it. *)
Theorem engine_writes_only_error_and_result eng callerReq s l key :
  valid_request callerReq s = true ->
  l < length (heap (begun callerReq s)) ->
  res_of s <> l \/ (key <> "error" /\ key <> "result") ->
  Forall (middleware_leaves l key) (_middleware eng) ->
  get l key (state_of (_handle eng callerReq s)) = get l key (begun callerReq s)
  /\ has l key (state_of (_handle eng callerReq s)) = has l key (begun callerReq s).
Proof.
  intros Hvalid Hl Hne Hstack.
  destruct (handle_keeps l key eng callerReq s Hvalid) as [_ Hk]; [|done|by apply Hk].
  eapply Forall_impl; [exact Hstack|]. intros m Hm. apply Hm.
Qed.

End Footprint.

Lemma response_echoes_id_and_jsonrpc_witness :
  get 2 "id" (state_of (_handle (tbl := sampleTable)
                          (engineOf [mwCleanup; mwThrowOops]) (VRef 0) state0))
  = VNum 1.
Proof.
  apply (response_echoes_id_and_jsonrpc (tbl := sampleTable)
           (engineOf [mwCleanup; mwThrowOops]) (VRef 0) state0 "id").
  - by left.
  - reflexivity.
  - constructor; [|constructor; [|constructor]].
    + intros req res. split; [by right|exact I].
    + intros req res. exact I.
Defined.

Lemma engine_writes_only_error_and_result_witness :
  get 1 "method" (state_of (_handle (tbl := sampleTable)
                              (engineOf [mwCleanup; mwOk]) (VRef 0) state0))
  = VStr "m"
  /\ has 1 "method" (state_of (_handle (tbl := sampleTable)
                                 (engineOf [mwCleanup; mwOk]) (VRef 0) state0))
     = true.
Proof.
  apply (engine_writes_only_error_and_result (tbl := sampleTable)
           (engineOf [mwCleanup; mwOk]) (VRef 0) state0 1 "method").
  - reflexivity.
  - vm_compute. lia.
  - by left.
  - constructor; [|constructor; [|constructor]].
    + intros req res. split; [by right|exact I].
    + intros req res. split; [by right|]. intros [e|]; exact I.
Defined.

(** ** The errors that reach the callback *)

Section Standardized.
Context {tbl : ErrorTable}.

Lemma instanceof_evolves v s s' :
  evolves s s' ->
  instanceof_EthereumRpcError v s = true -> instanceof_EthereumRpcError v s' = true.
Proof.
  intros E. unfold instanceof_EthereumRpcError. intros H.
  apply bool_decide_eq_true in H. apply bool_decide_eq_true.
  destruct v as [| | | | | |l]; try done. simpl in *.
  rewrite (ev_class _ _ E); [done|].
  destruct (heap s !! l) eqn:Hl; [|done]. by apply lookup_lt_Some in Hl.
Qed.

(** So is what the [catch] block has stored. *)
Lemma instanceof_caught req res v s :
  converts v s = true ->
  instanceof_EthereumRpcError (coerced req v s).1 (caught req res v s) = true.
Proof.
  intros Hc. eapply instanceof_evolves; [|by apply instanceof_coerced].
  rewrite caught_coerced by done. cbn zeta.
  eapply evolves_trans; [apply evolves_set_prop|apply evolves_resolve].
Qed.

Lemma cell_ok_erred code message data s : cell_ok s -> cell_ok (erred code message data s).
Proof. unfold cell_ok. by rewrite endCalled_erred, deferred_erred. Qed.

(** What the [catch] block reports: nothing if [end] had returned, and
    otherwise the error it stored on the response. *)
Lemma awaited_caught req res v s hs e c hs' s' :
  converts v s = true ->
  res < length (heap s) ->
  cell_ok s ->
  awaited hs (caught req res v s) = Returned (e, c, hs') s' ->
  e = VNull
  \/ (get res "error" s' = e /\ instanceof_EthereumRpcError e s' = true).
Proof.
  intros Hcv Hres Hc. rewrite awaited_eq, deferred_caught by done.
  destruct Hc as [[_ ->]|[_ ->]]; simpl; intros [= <- <- <- <-].
  - right. split; [by apply get_error_caught|by apply instanceof_caught].
  - by left.
Qed.

(** The error that [_runMiddleware] reports, if any, is an instance of
    [EthereumRpcError], and it is the error of the response. *)
Lemma _runMiddleware_reports req res m i hs s e c hs' s' :
  res < length (heap s) ->
  _runMiddleware req res m i hs s = Returned (e, c, hs') s' ->
  e = VNull
  \/ (get res "error" s' = e /\ instanceof_EthereumRpcError e s' = true).
Proof.
  intros Hres.
  pose proof (cell_ok_exec req res (m req res) (entered i s) (cell_ok_entered i s)) as Hc.
  pose proof (ev_length _ _ (evolves_exec req res (m req res) (entered i s))) as Hl.
  change (length (heap (entered i s))) with (length (heap s)) in Hl.
  destruct (exec (end_callback req res) (m req res) (entered i s))
    as [r s1|v s1|s1] eqn:He; cbn [state_of] in Hc, Hl.
  - rewrite (_runMiddleware_returned _ _ _ _ _ _ _ _ He).
    assert (Hrefused : forall code message data,
              accepts code message = true ->
              awaited hs (caught req res (error_in s1) (erred code message data s1))
              = Returned (e, c, hs') s' ->
              e = VNull
              \/ (get res "error" s' = e /\ instanceof_EthereumRpcError e s' = true)).
    { intros code message data Ha.
      apply awaited_caught; [by apply converts_erred| |by apply cell_ok_erred].
      rewrite heap_erred, length_app. lia. }
    destruct (endCalled s1) eqn:Hcalled.
    { rewrite awaited_eq. destruct Hc as [[? _]|[_ ->]]; [congruence|].
      intros [= <- _ _ _]. by left. }
    destruct (truthy (get res "error" s1)); [by apply Hrefused|].
    destruct r as [v|h].
    + destruct (truthy v); [by apply Hrefused|].
      rewrite awaited_eq, deferred_resolve.
      destruct Hc as [[_ ->]|[? _]]; [|congruence]. intros [= <- _ _ _]. by left.
    + rewrite awaited_eq, deferred_resolve. simpl.
      destruct Hc as [[_ ->]|[? _]]; [|congruence]. intros [= <- _ _ _]. by left.
  - destruct (converts v s1) eqn:Hcv.
    + rewrite (_runMiddleware_threw _ _ _ _ _ _ _ _ He Hcv).
      apply awaited_caught; [done|lia|exact Hc].
    + by rewrite (_runMiddleware_refused _ _ _ _ _ _ _ _ He Hcv).
  - by rewrite (_runMiddleware_pending _ _ _ _ _ _ _ He).
Qed.

Lemma middleware_loop_reports req res stack i c hs s e' c' hs' s' :
  res < length (heap s) ->
  middleware_loop req res stack i VNull c hs s = Returned (e', c', hs') s' ->
  e' = VNull
  \/ (get res "error" s' = e' /\ instanceof_EthereumRpcError e' s' = true).
Proof.
  revert i c hs s. induction stack as [|m stack IH]; intros i c hs s Hres.
  - simpl. intros [= <- _ _ _]. by left.
  - rewrite middleware_loop_cons.
    pose proof (ev_length _ _ (evolves_runMiddleware req res m i hs s)) as Hl.
    destruct (_runMiddleware req res m i hs s) as [[[e1 c1] hs1] s1|v s1|s1] eqn:Hrun;
      cbn [state_of] in Hl; try done.
    destruct c1.
    + intros [= <- <- <- <-]. by apply (_runMiddleware_reports _ _ _ _ _ _ _ _ _ _ Hres Hrun).
    + destruct (_runMiddleware_passed _ _ _ _ _ _ _ _ _ Hrun) as [-> _].
      apply IH. lia.
Qed.

(** The error that the middleware phase reports, if any, is an instance of
    [EthereumRpcError], and it is the error of the response. *)
Lemma _runAllMiddleware_reports req res stack s e c hs sC :
  res < length (heap s) ->
  _runAllMiddleware req res stack s = Returned (e, c, hs) sC ->
  e = VNull
  \/ (get res "error" sC = e /\ instanceof_EthereumRpcError e sC = true).
Proof.
  intros Hres. unfold _runAllMiddleware, bind.
  destruct (middleware_loop req res stack 0 VNull false [] s)
    as [[[e0 c0] hs0] s0|v s0|s0] eqn:Hloop; try done.
  intros [= <- <- <- <-].
  by apply (middleware_loop_reports _ _ _ _ _ _ _ _ _ _ _ Hres Hloop).
Qed.

(** Every truthy error that [_handle] hands to the callback is an instance
    of [EthereumRpcError], with two exceptions: what a return handler threw,
    which is handed over as it is, and the [Error] that the constructor of
    [EthereumRpcError] threw when [_processMiddlewareError] passed it the
    message of a thrown [Error] (the middleware phase then throws that
    [Error]).  The errors of the two request checks, of the completion check
    and the other errors of the middleware phase are standardized. *)
Theorem callback_error_is_standardized_unless_handler_threw
    eng callerReq s err res s' :
  _handle eng callerReq s = Returned (err, res) s' ->
  truthy err = true ->
  instanceof_EthereumRpcError err s' = true
  \/ (exists e hs sC sT,
        _runAllMiddleware (req_of s) (res_of s) (_middleware eng) (begun callerReq s)
        = Returned (e, true, hs) sC
        /\ _runReturnHandlers hs sC = Threw err sT)
  \/ (exists sT,
        _runAllMiddleware (req_of s) (res_of s) (_middleware eng) (begun callerReq s)
        = Threw err sT
        /\ class_of err s' = Some CError).
Proof.
  intros Hhandle Herr.
  destruct (valid_request callerReq s) eqn:Hvalid.
  2:{ left.
      assert (Hnew : forall o code message data,
                accepts code message = true ->
                instanceof_EthereumRpcError (error_in s)
                  (alloc o (erred code message data s)).2 = true).
      { intros. eapply instanceof_evolves; [apply evolves_alloc|by apply instanceof_erred]. }
      destruct (negb (truthy callerReq) || isArray callerReq s
                || negb (String.eqb (typeof callerReq) "object")) eqn:Hfirst.
      - rewrite (_handle_non_object _ _ _ Hfirst) in Hhandle.
        injection Hhandle as <- <- <-. by apply Hnew.
      - assert (Hmethod : String.eqb (typeof (prop_of callerReq "method" s)) "string"
                          = false).
        { unfold valid_request in Hvalid.
          apply orb_false_iff in Hfirst as [Hfirst Hobj].
          apply orb_false_iff in Hfirst as [Htruthy Harr].
          apply negb_false_iff in Htruthy, Hobj.
          by rewrite Htruthy, Harr, Hobj in Hvalid. }
        rewrite (_handle_non_string_method _ _ _ Hfirst Hmethod) in Hhandle.
        injection Hhandle as <- <- <-. by apply Hnew. }
  assert (Hres : res_of s < length (heap (begun callerReq s))).
  { rewrite length_heap_begun. unfold res_of. lia. }
  pose proof (_handle_valid_outcome eng callerReq s Hvalid) as Ho.
  unfold _processRequest in Ho. unfold bind at 1 in Ho.
  pose proof (evolves_runAllMiddleware (req_of s) (res_of s) (_middleware eng)
                (begun callerReq s)) as Hphase.
  destruct (_runAllMiddleware (req_of s) (res_of s) (_middleware eng) (begun callerReq s))
    as [[[e c] hs] sC|v sC|sC] eqn:Hrun; [| |by rewrite Ho in Hhandle].
  2:{ right. right. rewrite Ho in Hhandle.
      pose proof (evolves_finish (res_of s) v sC) as Hev.
      destruct (finish_frame (res_of s) v sC) as (s2 & Hfin2 & _).
      rewrite Hfin2 in Hhandle, Hev. injection Hhandle as <- _ <-. cbn [state_of] in Hev.
      exists sC. split; [done|].
      destruct v as [| | | | | |l]; try done. simpl in *.
      rewrite (ev_class _ _ Hev); [done|].
      destruct (heap sC !! l) eqn:E; [|done]. by apply lookup_lt_Some in E. }
  destruct Hphase as [F E].
  assert (Hfinish : forall x sX,
            finish (res_of s) x sX = Returned (err, res) s' ->
            instanceof_EthereumRpcError x sX = true ->
            instanceof_EthereumRpcError err s' = true).
  { intros x sX Hfin Hinst.
    pose proof (evolves_finish (res_of s) x sX) as Hev.
    destruct (finish_frame (res_of s) x sX) as (s2 & Hfin2 & _).
    rewrite Hfin2 in Hfin, Hev. injection Hfin as <- _ <-.
    by apply (instanceof_evolves _ _ _ Hev). }
  unfold bind at 1 in Ho. rewrite _checkForCompletion_eq in Ho.
  destruct (negb (has (res_of s) "result" sC) && negb (has (res_of s) "error" sC)).
  { left. rewrite Ho in Hhandle. by apply (Hfinish _ _ Hhandle), instanceof_erred. }
  destruct c; cbn [negb] in Ho.
  2:{ left. rewrite Ho in Hhandle. by apply (Hfinish _ _ Hhandle), instanceof_erred. }
  unfold bind in Ho.
  pose proof (evolves_runReturnHandlers _ _ hs F sC) as EU.
  destruct (_runReturnHandlers hs sC) as [[] sU|x sU|sU] eqn:Hunwind;
    cbn [state_of] in EU.
  - destruct (truthy e) eqn:He.
    + left. rewrite Ho in Hhandle. apply (Hfinish _ _ Hhandle).
      apply (instanceof_evolves _ _ _ EU).
      destruct (_runAllMiddleware_reports _ _ _ _ _ _ _ _ Hres Hrun) as [->|[_ Hinst]];
        [done|exact Hinst].
    + rewrite Ho in Hhandle. rewrite finish_falsy in Hhandle by done.
      injection Hhandle as <- _ _. done.
  - right. left. rewrite Ho in Hhandle.
    destruct (finish_frame (res_of s) x sU) as (s2 & Hfin2 & _).
    rewrite Hfin2 in Hhandle. injection Hhandle as <- _ _.
    by exists e, hs, sC, sU.
  - by rewrite Ho in Hhandle.
Qed.

End Standardized.

Lemma callback_error_is_standardized_unless_handler_threw_witness :
  exists err s',
    _handle (tbl := sampleTable) (engineOf [mwCleanup; mwThrowOops]) (VRef 0) state0
    = Returned (err, 2) s'
    /\ instanceof_EthereumRpcError err s' = true.
Proof.
  pose (s' := state_of (_handle (tbl := sampleTable)
                          (engineOf [mwCleanup; mwThrowOops]) (VRef 0) state0)).
  pose (err := VRef 4).
  assert (Hh : _handle (tbl := sampleTable) (engineOf [mwCleanup; mwThrowOops])
                 (VRef 0) state0 = Returned (err, 2) s').
  { vm_compute. reflexivity. }
  exists err, s'. split; [exact Hh|].
  destruct (callback_error_is_standardized_unless_handler_threw (tbl := sampleTable)
              (engineOf [mwCleanup; mwThrowOops]) (VRef 0) state0 err 2 s' Hh eq_refl)
    as [Hinst|[(e & hs & sC & sT & Hphase & Hthrow)|(sT & Hphase & Hcls)]].
  - exact Hinst.
  - vm_compute. reflexivity.
  - vm_compute. reflexivity.
Defined.

(** ** An engine as a middleware of another *)

Section AsMiddleware.
Context {tbl : ErrorTable}.







End AsMiddleware.




(** ** Handing over: to the next middleware, to the unwind *)

Section HandingOver.
Context {tbl : ErrorTable}.

(** When [_runMiddleware] reports the request complete, it has collected
    no handler. *)
Lemma _runMiddleware_complete req res m i hs s e hs' s' :
  Forall (closure_of req res) hs ->
  _runMiddleware req res m i hs s = Returned (e, true, hs') s' ->
  hs' = hs /\ collects (new_calls s s') = [].
Proof.
  intros Hhs Hrun.
  assert (Hsame : hs' = hs).
  { pose proof (cell_ok_exec req res (m req res) (entered i s) (cell_ok_entered i s))
      as Hc.
    destruct (exec (end_callback req res) (m req res) (entered i s))
      as [r s1|v s1|s1] eqn:He; cbn [state_of] in Hc.
    - rewrite (_runMiddleware_returned _ _ _ _ _ _ _ _ He) in Hrun.
      assert (Ha : forall s0, awaited hs s0 = Returned (e, true, hs') s' -> hs' = hs).
      { intros s0. rewrite awaited_eq. destruct (deferred s0) as [[? ?]|]; [|done].
        by intros [= _ _ <- _]. }
      destruct (endCalled s1) eqn:Hcalled; [by apply (Ha _ Hrun)|].
      destruct (truthy (get res "error" s1)); [by apply (Ha _ Hrun)|].
      destruct r as [v|h].
      + destruct (truthy v); by apply (Ha _ Hrun).
      + rewrite awaited_eq, deferred_resolve in Hrun. simpl in Hrun.
        destruct Hc as [[_ Hd]|[? _]]; [|congruence]. by rewrite Hd in Hrun.
    - destruct (converts v s1) eqn:Hcv.
      + rewrite (_runMiddleware_threw _ _ _ _ _ _ _ _ He Hcv), awaited_eq in Hrun.
        destruct (deferred (caught req res v s1)) as [[? ?]|]; [|done].
        by injection Hrun as _ _ <- _.
      + by rewrite (_runMiddleware_refused _ _ _ _ _ _ _ _ He Hcv) in Hrun.
    - by rewrite (_runMiddleware_pending _ _ _ _ _ _ _ He) in Hrun. }
  split; [exact Hsame|]. subst hs'.
  pose proof (_runMiddleware_trace req res m i hs s Hhs) as Htr.
  rewrite Hrun in Htr. destruct Htr as (_ & _ & _ & Happ & _).
  symmetry in Happ. rewrite <- (app_nil_r (hs.*1)) in Happ at 2.
  by apply app_inv_head in Happ.
Qed.

(** A middleware that completes the request, by calling [end] or by
    failing, registers no handler, whatever it settles with: the list of
    handlers is the one it found, and no handler collected during [_handle]
    comes from it or from a middleware after it. *)
Theorem completing_middleware_registers_no_handler
    eng callerReq s pre m post hs s3 e hs' s4 :
  reaches eng callerReq s pre m post hs s3 ->
  _runMiddleware (req_of s) (res_of s) m (length pre) hs s3 = Returned (e, true, hs') s4 ->
  hs' = hs
  /\ forall j, j ∈ collects (new_calls s (state_of (_handle eng callerReq s))) ->
               j < length pre.
Proof.
  intros Hreach Hrun.
  pose proof (phase_of_turn _ _ _ _ _ _ _ _ Hreach _ _ _ Hrun) as Hphase.
  destruct Hreach as (Hvalid & Hstack & Hloop).
  pose proof (middleware_loop_trace (req_of s) (res_of s) pre 0 VNull false []
                (begun callerReq s) (Forall_nil_2 _)) as Htr.
  rewrite Hloop in Htr. destruct Htr as (F & E1 & _ & _ & Hsub).
  destruct (_runMiddleware_complete _ _ _ _ _ _ _ _ _ F Hrun) as [Hsame Hnone].
  split; [exact Hsame|].
  destruct (handle_calls eng callerReq s Hvalid) as (t2 & -> & Ht2).
  rewrite Hphase. cbn [state_of].
  pose proof (evolves_runMiddleware (req_of s) (res_of s) m (length pre) hs s3) as E2.
  rewrite Hrun in E2. cbn [state_of] in E2.
  rewrite collects_app, (proj2 (invoked_unwind _ Ht2)), app_nil_r.
  rewrite (new_calls_trans _ _ _ E1 E2), collects_app, Hnone, app_nil_r.
  intros j Hj.
  assert (Hin : j ∈ seq 0 (length pre)).
  { eapply elem_of_sublist; [exact Hj|exact Hsub]. }
  apply elem_of_seq in Hin. lia.
Qed.

(** A middleware that settles without having called [end], with no truthy
    [error] on the response, hands over to the next middleware of the stack.
    If it settled with a function, that handler is collected, last on the
    list; if it settled with a falsy value, the list is as it was. *)
Theorem settled_middleware_hands_over eng callerReq s pre m m' post hs s3 r s4 :
  reaches eng callerReq s pre m (m' :: post) hs s3 ->
  run_of callerReq s pre m s3 = Returned r s4 ->
  endCalled s4 = false ->
  truthy (get (res_of s) "error" s4) = false ->
  match r with
  | RValue v =>
      truthy v = false ->
      reaches eng callerReq s (pre ++ [m]) m' post hs (resolve (VNull, false) s4)
  | RFunction h =>
      reaches eng callerReq s (pre ++ [m]) m' post
        (hs ++ [(length pre, exec (end_callback (req_of s) (res_of s)) h)])
        (resolve (VNull, false) (log (ECollect (length pre)) s4))
  end.
Proof.
  intros (Hvalid & Hstack & Hloop) Hrun Hcalled Herr.
  pose proof (cell_ok_exec (req_of s) (res_of s) (m (req_of s) (res_of s))
                (entered (length pre) s3) (cell_ok_entered _ _)) as Hc.
  unfold run_of in Hrun. rewrite Hrun in Hc. cbn [state_of] in Hc.
  assert (Hd : deferred s4 = None) by (destruct Hc as [[_ ->]|[? _]]; [done|congruence]).
  pose proof (_runMiddleware_returned _ _ _ _ hs _ _ _ Hrun) as Hturn.
  rewrite Hcalled, Herr in Hturn.
  assert (Hnext : forall hs' s',
            _runMiddleware (req_of s) (res_of s) m (length pre) hs s3
            = Returned (VNull, false, hs') s' ->
            reaches eng callerReq s (pre ++ [m]) m' post hs' s').
  { intros hs' s' Hm. split; [exact Hvalid|]. split.
    - by rewrite Hstack, <- (assoc_L (++)).
    - rewrite (middleware_loop_app _ _ _ _ _ _ _ _ _ _ _ _ Hloop).
      rewrite middleware_loop_cons. simpl. by rewrite Hm. }
  destruct r as [v|h].
  - intros Hv. apply Hnext. rewrite Hturn, Hv, awaited_eq, deferred_resolve, Hd. done.
  - apply Hnext. rewrite Hturn, awaited_eq, deferred_resolve. simpl. by rewrite Hd.
Qed.

(** When a return handler throws a falsy value, the unwind stops there and
    [_handle] hands that value to the callback with the response as it was
    when the handler threw: nothing is removed from it, nothing is added. *)
Theorem falsy_handler_error_leaves_response_as_it_is
    eng callerReq s err hs sC before i h after sB v sT :
  valid_request callerReq s = true ->
  _runAllMiddleware (req_of s) (res_of s) (_middleware eng) (begun callerReq s)
  = Returned (err, true, hs) sC ->
  has (res_of s) "result" sC || has (res_of s) "error" sC = true ->
  hs = before ++ (i, h) :: after ->
  _runReturnHandlers before sC = Returned tt sB ->
  h (log (ERun i) sB) = Threw v sT ->
  truthy v = false ->
  _handle eng callerReq s = Returned (v, res_of s) sT.
Proof.
  intros Hvalid Hphase Hcheck Hhs Hbefore Hthrow Hv.
  rewrite (_handle_of_phase _ _ _ _ _ _ Hvalid Hphase Hcheck).
  rewrite Hhs, _runReturnHandlers_app, Hbefore, _runReturnHandlers_cons, Hthrow.
  by apply finish_falsy.
Qed.

End HandingOver.

Lemma completing_middleware_registers_no_handler_witness :
  Forall (fun j => j < 1)
    (collects (new_calls state0
                 (state_of (_handle (tbl := sampleTable)
                              (engineOf [mwCleanup; mwEndAndHandler]) (VRef 0) state0)))).
Proof.
  apply Forall_forall.
  pose (s3 := state_of (middleware_loop (tbl := sampleTable) 1 2 [mwCleanup] 0
                          VNull false [] (begun (VRef 0) state0))).
  pose (s4 := state_of (_runMiddleware (tbl := sampleTable) 1 2 mwEndAndHandler 1
                          (cleanupHandlers (tbl := sampleTable)) s3)).
  apply (completing_middleware_registers_no_handler (tbl := sampleTable)
           (engineOf [mwCleanup; mwEndAndHandler]) (VRef 0) state0
           [mwCleanup] mwEndAndHandler [] (cleanupHandlers (tbl := sampleTable)) s3
           VNull (cleanupHandlers (tbl := sampleTable)) s4).
  - split; [reflexivity|]. split; [reflexivity|]. vm_compute. reflexivity.
  - vm_compute. reflexivity.
Defined.

Lemma settled_middleware_hands_over_witness :
  exists hs s',
    reaches (tbl := sampleTable) (engineOf [mwCleanup; mwOk]) (VRef 0) state0
      [mwCleanup] mwOk [] hs s'
    /\ hs.*1 = [0].
Proof.
  pose (s4 := state_of (run_of (tbl := sampleTable) (VRef 0) state0 [] mwCleanup
                          (begun (VRef 0) state0))).
  exists ([] ++ [(0, exec (end_callback (tbl := sampleTable) 1 2)
                       (SetProp 2 "cleaned" (VBool true) (Ret tt)))]),
         (resolve (VNull, false) (log (ECollect 0) s4)).
  split; [|reflexivity].
  apply (settled_middleware_hands_over (tbl := sampleTable)
           (engineOf [mwCleanup; mwOk]) (VRef 0) state0
           [] mwCleanup mwOk [] [] (begun (VRef 0) state0)
           (RFunction (SetProp 2 "cleaned" (VBool true) (Ret tt))) s4).
  - split; [reflexivity|]. split; reflexivity.
  - vm_compute. reflexivity.
  - reflexivity.
  - reflexivity.
Defined.

Lemma falsy_handler_error_leaves_response_as_it_is_witness :
  exists sT,
    _handle (tbl := sampleTable) (engineOf [mwFalsyFailingCleanup; mwOk]) (VRef 0) state0
    = Returned (VNum 0, 2) sT
    /\ get 2 "result" sT = VNum 42
    /\ has 2 "error" sT = false.
Proof.
  pose (sC := state_of (_runAllMiddleware (tbl := sampleTable) 1 2
                          [mwFalsyFailingCleanup; mwOk] (begun (VRef 0) state0))).
  pose (h := exec (R := unit) (end_callback (tbl := sampleTable) 1 2) (Throw (VNum 0))).
  exists (log (ERun 0) sC). split; [|split; vm_compute; reflexivity].
  apply (falsy_handler_error_leaves_response_as_it_is (tbl := sampleTable)
           (engineOf [mwFalsyFailingCleanup; mwOk]) (VRef 0) state0
           VNull [(0, h)] sC [] 0 h [] sC (VNum 0) (log (ERun 0) sC)).
  - reflexivity.
  - vm_compute. reflexivity.
  - reflexivity.
  - reflexivity.
  - reflexivity.
  - reflexivity.
  - reflexivity.
Defined.
